(** * FMG metadata generator: the template engine of [server/server.js]

    A shallow embedding of the request-scoped core of the server (topic
    extraction, content-type detection, template selection and interpolation,
    tone rules, hash-tag formatting, compliance check) and the properties the
    specification states about it.

    Text.  A JavaScript string is modelled as a Rocq [string]: the bytes of
    its UTF-8 encoding.  The character classes the code uses ([\w], [A-Z])
    are ASCII classes, so every byte of a non-ASCII character is outside them,
    and a literal pattern matches byte-wise exactly where it matches
    character-wise.  [toLowerCase] and [toUpperCase] convert the ASCII
    letters, and [\s] and [trim] know the ASCII white space; the case of
    non-ASCII letters and the white space outside ASCII are not modelled.  In
    [extractKeyTopics] this loses nothing but the two characters whose lower
    case is ASCII (U+0130, U+212A): any other non-ASCII character ends up as a
    blank, as it does in JavaScript, being outside [\w].  [jsLength] is the
    [length] of the JavaScript string.

    Objects.  An object literal used as a table ([allTemplates], [keywords],
    [scores], [wordCount]) is an association list in the order of
    [Object.keys]; property names inherited from [Object.prototype] are not
    part of the model.

    Shuffle.  [templates.sort(() => 0.5 - Math.random())] leaves the bucket in
    an order that depends on the random draws.  The model takes the draws as a
    list of numbers, the [picks], and builds the order from them: the result
    is always an order of the bucket ([shuffle_Permutation]) and every order
    of the bucket is the result of some picks ([shuffle_complete]).

    The repository holds two copies of the server.  They share the text of
    every function modelled here and differ in the stop words, in the
    detection of the content type (absent from the earlier copy) and in the
    number of buckets (four in the earlier copy): [server] and
    [earlierServer].

    Around the engine.  [GeminiService] is the service of
    [server/services/geminiService.js], over any Gemini client: an awaited
    call is a value or an exception ([outcome]).  [Frontend] is the part of
    the script of the page that sends the request and merges the two answers
    of the server. *)

From Stdlib Require Import String Ascii List Bool Arith NArith ZArith Lia Permutation.
Import ListNotations.
Local Open Scope list_scope.
Local Open Scope string_scope.

(** ** String primitives *)

Definition code (c : ascii) : nat := nat_of_ascii c.

Definition between (lo hi : nat) (c : ascii) : bool :=
  Nat.leb lo (code c) && Nat.leb (code c) hi.

Definition isUpper (c : ascii) : bool := between 65 90 c.
Definition isLower (c : ascii) : bool := between 97 122 c.
Definition isDigit (c : ascii) : bool := between 48 57 c.

(** [\w] is [[A-Za-z0-9_]]. *)
Definition isWordChar (c : ascii) : bool :=
  isUpper c || isLower c || isDigit c || Nat.eqb (code c) 95.

(** [\s] on ASCII: tab, line feed, vertical tab, form feed, carriage return,
    space. *)
Definition isSpace (c : ascii) : bool :=
  between 9 13 c || Nat.eqb (code c) 32.

Definition isAscii (c : ascii) : bool := Nat.ltb (code c) 128.

Definition lowerChar (c : ascii) : ascii :=
  if isUpper c then ascii_of_nat (code c + 32) else c.

Definition upperChar (c : ascii) : ascii :=
  if isLower c then ascii_of_nat (code c - 32) else c.

Fixpoint mapChars (f : ascii -> ascii) (s : string) : string :=
  match s with
  | EmptyString => EmptyString
  | String c s' => String (f c) (mapChars f s')
  end.

Fixpoint allChars (p : ascii -> bool) (s : string) : bool :=
  match s with
  | EmptyString => true
  | String c s' => p c && allChars p s'
  end.

Fixpoint anyChar (p : ascii -> bool) (s : string) : bool :=
  match s with
  | EmptyString => false
  | String c s' => p c || anyChar p s'
  end.

Definition toLowerCase (s : string) : string := mapChars lowerChar s.
Definition toUpperCase (s : string) : string := mapChars upperChar s.

(** [s.charAt(0)] and [s.slice(1)]. *)
Definition charAt0 (s : string) : string :=
  match s with
  | EmptyString => EmptyString
  | String c _ => String c EmptyString
  end.

Definition slice1 (s : string) : string :=
  match s with
  | EmptyString => EmptyString
  | String _ s' => s'
  end.

(** [s.startsWith(p)]; with [ci] the comparison ignores the case of ASCII
    letters, as a regular expression with the [i] flag does. *)
Fixpoint startsWithCase (ci : bool) (s p : string) {struct p} : bool :=
  match p with
  | EmptyString => true
  | String a p' =>
      match s with
      | EmptyString => false
      | String b s' =>
          (if ci then Ascii.eqb (lowerChar a) (lowerChar b) else Ascii.eqb a b)
          && startsWithCase ci s' p'
      end
  end.

Definition startsWith (s p : string) : bool := startsWithCase false s p.

(** [s.includes(sub)]. *)
Fixpoint includes (s sub : string) : bool :=
  startsWith s sub ||
  match s with
  | EmptyString => false
  | String _ s' => includes s' sub
  end.

Fixpoint dropChars (n : nat) (s : string) : string :=
  match n with
  | O => s
  | S k => match s with
           | EmptyString => EmptyString
           | String _ s' => dropChars k s'
           end
  end.

Fixpoint takeChars (n : nat) (s : string) : string :=
  match n with
  | O => EmptyString
  | S k => match s with
           | EmptyString => EmptyString
           | String c s' => String c (takeChars k s')
           end
  end.

(** [s.endsWith(p)]. *)
Definition endsWith (s p : string) : bool :=
  Nat.leb (String.length p) (String.length s)
  && String.eqb (dropChars (String.length s - String.length p) s) p.

Fixpoint trimStart (s : string) : string :=
  match s with
  | EmptyString => EmptyString
  | String c s' => if isSpace c then trimStart s' else s
  end.

Fixpoint trimEnd (s : string) : string :=
  match s with
  | EmptyString => EmptyString
  | String c s' =>
      let r := trimEnd s' in
      if isSpace c && String.eqb r EmptyString then EmptyString else String c r
  end.

Definition trim (s : string) : string := trimEnd (trimStart s).

(** [parts.join(sep)]. *)
Fixpoint join (sep : string) (parts : list string) : string :=
  match parts with
  | [] => EmptyString
  | [p] => p
  | p :: rest => p ++ sep ++ join sep rest
  end.

(** [s.split(/\s+/)]: the fields between the maximal runs of white space;
    [cur] is the field being read, [inRun] says the previous character was
    white space. *)
Fixpoint splitSpaces_go (cur : string) (inRun : bool) (s : string) : list string :=
  match s with
  | EmptyString => [cur]
  | String c s' =>
      if isSpace c then
        if inRun then splitSpaces_go cur true s'
        else cur :: splitSpaces_go EmptyString true s'
      else splitSpaces_go (cur ++ String c EmptyString) false s'
  end.

Definition splitSpaces (s : string) : list string :=
  splitSpaces_go EmptyString false s.

(** [s.split(' ')]: the fields between single blanks. *)
Fixpoint splitBlank_go (cur : string) (s : string) : list string :=
  match s with
  | EmptyString => [cur]
  | String c s' =>
      if Ascii.eqb c " " then cur :: splitBlank_go EmptyString s'
      else splitBlank_go (cur ++ String c EmptyString) s'
  end.

Definition splitBlank (s : string) : list string := splitBlank_go EmptyString s.

(** ** Regular-expression replacement

    Every pattern of the tone rules is a literal or an alternation of
    literals, with the flags [g] or [gi]. *)

Record rule : Type := mkRule {
  alts : list string;   (* the alternatives, in the order of the pattern *)
  ignoreCase : bool;    (* the [i] flag *)
  repl : string         (* the replacement *)
}.

Definition g (a : list string) (r : string) : rule := mkRule a false r.
Definition gi (a : list string) (r : string) : rule := mkRule a true r.

(** The match at the start of [s]: the length of the first alternative that
    matches there. *)
Fixpoint matchAlts (ci : bool) (ps : list string) (s : string) : option nat :=
  match ps with
  | [] => None
  | p :: ps' =>
      if startsWithCase ci s p then Some (String.length p) else matchAlts ci ps' s
  end.

(** [s.replace(/a1|a2|.../g, repl)]: scan from the left; at a match emit the
    replacement and go on behind the match, otherwise copy one character.
    [skip] counts the characters of the current match still to be passed
    over.  (An empty match emits the replacement and copies the character.) *)
Fixpoint replace_go (r : rule) (skip : nat) (s : string) : string :=
  match s with
  | EmptyString =>
      match skip, matchAlts (ignoreCase r) (alts r) EmptyString with
      | O, Some _ => repl r
      | _, _ => EmptyString
      end
  | String c s' =>
      match skip with
      | S k => replace_go r k s'
      | O =>
          match matchAlts (ignoreCase r) (alts r) s with
          | Some (S n) => repl r ++ replace_go r n s'
          | Some O => repl r ++ String c (replace_go r 0 s')
          | None => String c (replace_go r 0 s')
          end
      end
  end.

Definition replace (r : rule) (s : string) : string := replace_go r 0 s.

(** A chain [s.replace(...).replace(...)...]: each rule works on the output
    of the one before. *)
Definition applyRules (rs : list rule) (s : string) : string :=
  fold_left (fun acc r => replace r acc) rs s.

(** ** Topic extraction *)

(** The [commonWords] set of [extractKeyTopics]. *)
Definition commonWords : list string :=
  ["the"; "and"; "for"; "with"; "that"; "this"; "have"; "will"; "from"; "they";
   "know"; "want"; "been"; "good"; "much"; "some"; "time"; "very"; "when";
   "come"; "just"; "into"; "than"; "more"; "other"; "about"; "many"; "then";
   "them"; "these"; "so"; "people"; "can"; "said"; "each"; "which"; "she";
   "do"; "how"; "their"; "if"; "up"; "out"; "many"; "then"; "them"; "would";
   "write"; "go"; "see"; "number"; "no"; "way"; "could"; "my"; "than"; "first";
   "water"; "been"; "call"; "who"; "oil"; "sit"; "now"; "find"; "down"; "day";
   "did"; "get"; "come"; "made"; "may"; "part"; "billion"; "million";
   "dollars"; "year"; "years"; "continue"; "continues"; "continuing";
   "remains"; "remain"; "reflecting"; "reflects"; "impact"; "strong";
   "financial"; "markets"; "individuals"; "corporations"; "generosity";
   "economy"; "force"; "major"; "key"; "part"].

(** [set.has(w)]. *)
Definition has (set : list string) (w : string) : bool :=
  existsb (String.eqb w) set.

(** [.replace(/[^\w\s]/g, ' ')]. *)
Definition blankPunctuation (s : string) : string :=
  mapChars (fun c => if isWordChar c || isSpace c then c else " "%char) s.

(** [.replace(/\s+/g, ' ')]. *)
Fixpoint collapseSpaces_go (inRun : bool) (s : string) : string :=
  match s with
  | EmptyString => EmptyString
  | String c s' =>
      if isSpace c then
        if inRun then collapseSpaces_go true s'
        else String " " (collapseSpaces_go true s')
      else String c (collapseSpaces_go false s')
  end.

Definition collapseSpaces (s : string) : string := collapseSpaces_go false s.

Definition cleanContent (content : string) : string :=
  trim (collapseSpaces (blankPunctuation (toLowerCase content))).

(** [wordCount[word] = (wordCount[word] || 0) + 1]: a new word is added behind
    the words seen so far. *)
Fixpoint bump (word : string) (wordCount : list (string * nat)) : list (string * nat) :=
  match wordCount with
  | [] => [(word, 1)]
  | (k, n) :: rest =>
      if String.eqb k word then (k, n + 1) :: rest else (k, n) :: bump word rest
  end.

Definition countWords (words : list string) : list (string * nat) :=
  fold_left (fun wordCount word => bump word wordCount) words [].

(** The value of a string of decimal digits. *)
Definition decimal (s : string) : N :=
  (fix go (acc : N) (s : string) : N :=
     match s with
     | EmptyString => acc
     | String c s' => go (acc * 10 + N.of_nat (code c - 48))%N s'
     end) 0%N s.

(** A property name that is an array index (a canonical decimal numeral below
    2^32 - 1): [Object.entries] lists these first, in ascending order. *)
Definition arrayIndex (k : string) : option N :=
  if allChars isDigit k
     && negb (String.eqb k EmptyString)
     && (String.eqb k "0" || negb (startsWith k "0"))
     && Nat.leb (String.length k) 10
     && N.ltb (decimal k) 4294967295
  then Some (decimal k) else None.

Definition isArrayIndex (k : string) : bool :=
  match arrayIndex k with Some _ => true | None => false end.

Fixpoint insertByIndex (e : string * nat) (l : list (string * nat)) : list (string * nat) :=
  match l with
  | [] => [e]
  | y :: l' =>
      if N.ltb (decimal (fst y)) (decimal (fst e)) then y :: insertByIndex e l'
      else e :: y :: l'
  end.

(** [Object.entries(wordCount)]: array-index keys in ascending order, then the
    other keys in the order of their creation. *)
Definition entries (wordCount : list (string * nat)) : list (string * nat) :=
  fold_right insertByIndex [] (filter (fun e => isArrayIndex (fst e)) wordCount)
  ++ filter (fun e => negb (isArrayIndex (fst e))) wordCount.

(** [.sort(([,a], [,b]) => b - a)]: a stable sort, larger counts first. *)
Fixpoint insertByCount (e : string * nat) (l : list (string * nat)) : list (string * nat) :=
  match l with
  | [] => [e]
  | y :: l' =>
      if Nat.ltb (snd e) (snd y) then y :: insertByCount e l' else e :: y :: l'
  end.

Definition sortByCount (l : list (string * nat)) : list (string * nat) :=
  fold_right insertByCount [] l.

(** [l.slice(0, e)]: a negative [e] counts from the end. *)
Definition slice0 {A : Type} (e : Z) (l : list A) : list A :=
  let len := Z.of_nat (List.length l) in
  let stop := if (e <? 0)%Z then Z.max (len + e) 0 else Z.min e len in
  firstn (Z.to_nat stop) l.

Section ExtractKeyTopics.

(** The two copies of the server differ in the stop words only. *)
Variable stopWords : list string.

Definition keepWord (word : string) : bool :=
  Nat.ltb 3 (String.length word) && negb (has stopWords word).

Definition contentWords (content : string) : list string :=
  filter keepWord (splitSpaces (cleanContent content)).

Definition extractKeyTopicsWith (content : string) (maxTopics : Z) : list string :=
  let words := contentWords content in
  let wordCount := countWords words in
  let topics := map fst (slice0 maxTopics (sortByCount (entries wordCount))) in
  match List.length topics with
  | 0 => ["content"; "information"; "strategies"]
  | 1 => topics ++ ["strategies"; "success"]
  | 2 => topics ++ ["success"]
  | _ => topics
  end.

End ExtractKeyTopics.

Definition extractKeyTopics (content : string) (maxTopics : Z) : list string :=
  extractKeyTopicsWith commonWords content maxTopics.

(** [extractKeyTopics(content)]: [maxTopics = 5] by default. *)
Definition extractKeyTopicsDefault (content : string) : list string :=
  extractKeyTopics content 5.

(** The guard [!word || word.length < 3] of [ensureCompleteWord]; [None] is
    [undefined]. *)
Definition fallbackGuard (word : option string) : bool :=
  match word with
  | None => true
  | Some w => String.eqb w EmptyString || Nat.ltb (String.length w) 3
  end.

(** [ensureCompleteWord(word)]: ["content"] when the guard fires;
    [word.replace(/for$/, 'marketing')] on a word that ends with "for". *)
Definition ensureCompleteWord (word : option string) : string :=
  if fallbackGuard word then "content"
  else
    match word with
    | None => "content"
    | Some w =>
        if endsWith w "for" then takeChars (String.length w - 3) w ++ "marketing"
        else if endsWith w "ing" then w
        else if endsWith w "ed" then w
        else if endsWith w "er" then w
        else w
    end.

(** [a || b] on strings: the empty string is falsy. *)
Definition orElse (a b : string) : string :=
  if String.eqb a EmptyString then b else a.


(** ** Content-type detection *)

(** The [keywords] table of [detectContentType], in the order of its keys. *)
Definition keywords : list (string * list string) :=
  [ ("charitable", ["charitable"; "donation"; "donations"; "giving"; "philanthropy";
                    "nonprofit"; "charity"; "fundraising"])
  ; ("financial", ["financial"; "investment"; "investing"; "money"; "finance";
                   "economic"; "economy"; "market"; "markets"])
  ; ("business", ["business"; "company"; "corporate"; "enterprise"; "startup";
                  "entrepreneur"])
  ; ("technology", ["technology"; "tech"; "software"; "app"; "digital"; "online";
                    "web"; "internet"])
  ; ("health", ["health"; "medical"; "wellness"; "fitness"; "nutrition"; "healthcare"])
  ; ("education", ["education"; "learning"; "teaching"; "school"; "university";
                   "course"; "training"])
  ].

(** [o[k]] on a table: [None] is [undefined]. *)
Fixpoint lookup {A : Type} (k : string) (o : list (string * A)) : option A :=
  match o with
  | [] => None
  | (k', v) :: o' => if String.eqb k' k then Some v else lookup k o'
  end.

(** [l.reduce(f)] without an initial value; [None] on the empty array, where
    JavaScript throws. *)
Definition reduce {A : Type} (f : A -> A -> A) (l : list A) : option A :=
  match l with
  | [] => None
  | a :: l' => Some (fold_left f l' a)
  end.

(** [scores[type] = keywords[type].filter(k => lowerContent.includes(k)).length]
    for each key of [keywords]. *)
Definition scoresOf (content : string) : list (string * nat) :=
  let lowerContent := toLowerCase content in
  map (fun entry =>
         (fst entry,
          List.length (filter (fun keyword => includes lowerContent keyword) (snd entry))))
      keywords.

Definition scoreIn (scores : list (string * nat)) (type : string) : nat :=
  match lookup type scores with Some n => n | None => 0 end.

(** [Object.keys(scores).reduce((a, b) => scores[a] > scores[b] ? a : b)]. *)
Definition highestScore (scores : list (string * nat)) : option string :=
  reduce (fun a b => if Nat.ltb (scoreIn scores b) (scoreIn scores a) then a else b)
         (map fst scores).

Definition detectContentType (content userSelectedType : string) : string :=
  let scores := scoresOf content in
  match highestScore scores with
  | Some detectedType =>
      if Nat.leb 2 (scoreIn scores detectedType) then detectedType
      else userSelectedType
  | None => userSelectedType
  end.

(** ** Templates *)

(** The expressions a template literal of the three tables interpolates. *)
Inductive slot : Type :=
| MainTopicCap     (* mainTopic.charAt(0).toUpperCase() + mainTopic.slice(1) *)
| MainTopic        (* mainTopic *)
| SecondaryTopic   (* secondaryTopic *)
| TargetAudience   (* targetAudience *)
| ValidAudience.   (* validAudience *)

(** A template literal: literal text and interpolated expressions, in order. *)
Inductive piece : Type :=
| T (text : string)
| V (x : slot).

Definition template : Type := list piece.

Definition pieceText (value : slot -> string) (p : piece) : string :=
  match p with
  | T text => text
  | V x => value x
  end.

(** The string a template literal evaluates to: its pieces, one after the
    other. *)
Fixpoint interpolate (value : slot -> string) (t : template) : string :=
  match t with
  | [] => EmptyString
  | p :: t' => pieceText value p ++ interpolate value t'
  end.

Definition slot_eqb (x y : slot) : bool :=
  match x, y with
  | MainTopicCap, MainTopicCap | MainTopic, MainTopic
  | SecondaryTopic, SecondaryTopic | TargetAudience, TargetAudience
  | ValidAudience, ValidAudience => true
  | _, _ => false
  end.

(** The template interpolates [x]. *)
Definition hasSlot (x : slot) (t : template) : bool :=
  existsb (fun p => match p with V y => slot_eqb x y | T _ => false end) t.

(** The [allTemplates] table of [generateTitles]: content type, then the templates of its bucket in source order. *)
Definition titleTemplates : list (string * list template) :=
  [ ("article",
     [ [T "The Complete Guide to "; V MainTopicCap]
     ; [T "The Ultimate "; V MainTopicCap; T " Guide for "; V TargetAudience]
     ; [V MainTopicCap; T ": What Every "; V TargetAudience; T " Needs to Know"]
     ; [T "How to Master "; V MainTopicCap; T " in 2024"]
     ; [T "The Definitive Guide to "; V MainTopicCap]
     ; [T "Solving "; V MainTopicCap; T " Challenges: A "; V TargetAudience; T " Guide"]
     ; [T "Common "; V MainTopicCap; T " Mistakes and How to Avoid Them"]
     ; [T "The "; V MainTopicCap; T " Roadmap: From Beginner to Expert"]
     ; [T "Unlock the Power of "; V MainTopicCap]
     ; [V MainTopicCap; T " Strategies That Actually Work"]
     ; [T "Transform Your "; V SecondaryTopic; T " with "; V MainTopicCap]
     ; [V MainTopicCap; T " Best Practices for "; V TargetAudience]
     ; [T "The Future of "; V MainTopicCap; T ": Trends and Insights"]
     ; [V MainTopicCap; T " Fundamentals Every "; V TargetAudience; T " Should Master"]
     ])
  ; ("blog",
     [ [T "Why "; V MainTopicCap; T " Matters More Than Ever"]
     ; [T "The Hidden Truth About "; V MainTopicCap]
     ; [V MainTopicCap; T ": Tips and Tricks You'll Love"]
     ; [T "Discover the Power of "; V MainTopicCap]
     ; [V MainTopicCap; T ": Everything You've Been Missing"]
     ; [T "How "; V MainTopicCap; T " Changed My Business"]
     ; [T "The Real Story Behind "; V MainTopicCap; T " Success"]
     ; [T "What I Learned About "; V MainTopicCap; T " the Hard Way"]
     ; [T "The "; V MainTopicCap; T " Secret Nobody Talks About"]
     ; [T "Is "; V MainTopicCap; T " Worth Your Time? Here's the Truth"]
     ; [V MainTopicCap; T ": The Good, the Bad, and the Ugly"]
     ; [T "Ready to Level Up Your "; V MainTopicCap; T "?"]
     ; [V MainTopicCap; T ": Your Action Plan for Success"]
     ; [T "Stop Struggling with "; V MainTopicCap; T " - Try This Instead"]
     ])
  ; ("product",
     [ [T "Transform Your "; V MainTopicCap; T " Experience"]
     ; [T "The Future of "; V MainTopicCap; T " is Here"]
     ; [T "Revolutionary "; V MainTopicCap; T " Solutions"]
     ; [T "Upgrade Your "; V MainTopicCap; T " Today"]
     ; [T "Premium "; V MainTopicCap; T " for Modern Needs"]
     ; [T "Introducing the Next Generation of "; V MainTopicCap]
     ; [V MainTopicCap; T " Made Simple: Powerful Features, Easy Use"]
     ; [T "The "; V MainTopicCap; T " Tool You've Been Waiting For"]
     ; [T "Save Time and Money with Smart "; V MainTopicCap]
     ; [T "Boost Your "; V SecondaryTopic; T " with Advanced "; V MainTopicCap]
     ; [T "Professional "; V MainTopicCap; T " at an Affordable Price"]
     ; [T "Why Choose Our "; V MainTopicCap; T " Over the Competition"]
     ; [T "The "; V MainTopicCap; T " Difference: Quality You Can Trust"]
     ; [T "Built for "; V TargetAudience; T ": The "; V MainTopicCap; T " Solution"]
     ])
  ; ("service",
     [ [T "Professional "; V MainTopicCap; T " Services"]
     ; [T "Expert "; V MainTopicCap; T " Solutions"]
     ; [T "Trusted "; V MainTopicCap; T " Partners"]
     ; [T "Quality "; V MainTopicCap; T " Guaranteed"]
     ; [T "Your "; V MainTopicCap; T " Success Partner"]
     ; [T "Custom "; V MainTopicCap; T " Solutions for "; V TargetAudience]
     ; [T "Full-Service "; V MainTopicCap; T " Support"]
     ; [T "Dedicated "; V MainTopicCap; T " Team at Your Service"]
     ; [T "Get More Value from Your "; V MainTopicCap; T " Investment"]
     ; [T "Streamline Your "; V SecondaryTopic; T " with Professional "; V MainTopicCap]
     ; [T "Expert "; V MainTopicCap; T " Consultation and Implementation"]
     ; [V MainTopicCap; T " Services Tailored for "; V TargetAudience]
     ; [T "Proven "; V MainTopicCap; T " Methods for Business Growth"]
     ; [T "Reliable "; V MainTopicCap; T " Support When You Need It Most"]
     ])
  ; ("video",
     [ [T "The Ultimate "; V MainTopicCap; T " Video Guide"]
     ; [T "Watch: Complete "; V MainTopicCap; T " Tutorial"]
     ; [V MainTopicCap; T ": Everything You Need to Know (Video)"]
     ; [T "Master "; V MainTopicCap; T " in This Comprehensive Video"]
     ; [T "Video Guide: "; V MainTopicCap; T " Best Practices"]
     ; [T "Learn "; V MainTopicCap; T " Step-by-Step (Video Tutorial)"]
     ; [T "Video Tutorial: "; V MainTopicCap; T " for "; V TargetAudience]
     ; [T "Complete "; V MainTopicCap; T " Video Course"]
     ; [T "Must-Watch: "; V MainTopicCap; T " Video Guide"]
     ; [T "Video: The Truth About "; V MainTopicCap]
     ; [V MainTopicCap; T " Secrets Revealed (Video)"]
     ; [T "Transform Your "; V MainTopicCap; T " with This Video"]
     ; [T "Video: "; V MainTopicCap; T " Strategies That Work"]
     ; [T "Watch and Learn: "; V MainTopicCap; T " Masterclass"]
     ])
  ; ("email",
     [ [T "Email Marketing: "; V MainTopicCap; T " Best Practices"]
     ; [T "The Complete "; V MainTopicCap; T " Email Guide"]
     ; [T "Email Strategy: "; V MainTopicCap; T " for "; V TargetAudience]
     ; [T "Master Email "; V MainTopicCap; T " in 2024"]
     ; [T "Email Marketing "; V MainTopicCap; T " That Converts"]
     ; [T "Email Campaign: "; V MainTopicCap; T " Success Strategies"]
     ; [T "Email Templates for "; V MainTopicCap]
     ; [T "Email Automation: "; V MainTopicCap; T " Workflows"]
     ; [T "Boost Email Engagement with "; V MainTopicCap]
     ; [T "Email Subject Lines: "; V MainTopicCap; T " That Get Opens"]
     ; [T "Email Content: "; V MainTopicCap; T " Best Practices"]
     ; [T "Email ROI: "; V MainTopicCap; T " Strategies That Work"]
     ; [T "Email Marketing ROI: "; V MainTopicCap; T " for Growth"]
     ; [T "Email Success: "; V MainTopicCap; T " Case Studies"]
     ])
  ; ("social",
     [ [T "Social Media "; V MainTopicCap; T " Strategy"]
     ; [T "The Complete "; V MainTopicCap; T " Social Media Guide"]
     ; [T "Social Media Marketing: "; V MainTopicCap; T " Best Practices"]
     ; [T "Master Social Media "; V MainTopicCap; T " in 2024"]
     ; [T "Social Media "; V MainTopicCap; T " for "; V TargetAudience]
     ; [T "Instagram "; V MainTopicCap; T " Strategy"]
     ; [T "Facebook "; V MainTopicCap; T " Guide"]
     ; [T "LinkedIn "; V MainTopicCap; T " Best Practices"]
     ; [T "Boost Social Media Engagement with "; V MainTopicCap]
     ; [T "Social Media Content: "; V MainTopicCap; T " That Gets Shares"]
     ; [T "Social Media Growth: "; V MainTopicCap; T " Strategies"]
     ; [T "Social Media ROI: "; V MainTopicCap; T " That Converts"]
     ; [T "Social Media Success: "; V MainTopicCap; T " Case Studies"]
     ; [T "Social Media Marketing: "; V MainTopicCap; T " for Business Growth"]
     ])
  ; ("landing",
     [ [T "Landing Page "; V MainTopicCap; T " Optimization"]
     ; [T "The Complete "; V MainTopicCap; T " Landing Page Guide"]
     ; [T "Landing Page Design: "; V MainTopicCap; T " Best Practices"]
     ; [T "Master Landing Page "; V MainTopicCap; T " in 2024"]
     ; [T "Landing Page "; V MainTopicCap; T " for "; V TargetAudience]
     ; [T "Landing Page Conversion: "; V MainTopicCap; T " Strategies"]
     ; [T "High-Converting Landing Page "; V MainTopicCap]
     ; [T "Landing Page Optimization: "; V MainTopicCap; T " Techniques"]
     ; [T "Landing Page Design: "; V MainTopicCap; T " Principles"]
     ; [T "Landing Page UX: "; V MainTopicCap; T " Best Practices"]
     ; [T "Landing Page Copy: "; V MainTopicCap; T " That Converts"]
     ; [T "Landing Page Performance: "; V MainTopicCap; T " Optimization"]
     ; [T "Landing Page ROI: "; V MainTopicCap; T " Strategies"]
     ; [T "Landing Page Success: "; V MainTopicCap; T " Case Studies"]
     ])
  ; ("charitable",
     [ [T "The Impact of "; V MainTopicCap; T ": A Complete Guide"]
     ; [T "Understanding "; V MainTopicCap; T " in 2024"]
     ; [V MainTopicCap; T ": Trends and Insights for "; V TargetAudience]
     ; [T "The Future of "; V MainTopicCap; T ": What You Need to Know"]
     ; [V MainTopicCap; T " Statistics and Analysis"]
     ; [T "How "; V MainTopicCap; T " is Changing the World"]
     ; [T "The Power of "; V MainTopicCap; T ": Real Impact Stories"]
     ; [V MainTopicCap; T ": Making a Difference in 2024"]
     ; [T "Everything You Need to Know About "; V MainTopicCap]
     ; [V MainTopicCap; T ": A Comprehensive Overview"]
     ; [T "The Complete Guide to "; V MainTopicCap]
     ; [V MainTopicCap; T " Trends in 2024: What's New"]
     ; [T "The State of "; V MainTopicCap; T ": Current Landscape"]
     ; [V MainTopicCap; T ": Key Insights and Opportunities"]
     ])
  ; ("financial",
     [ [V MainTopicCap; T ": Financial Insights and Analysis"]
     ; [T "The Economics of "; V MainTopicCap]
     ; [V MainTopicCap; T ": Market Trends and Opportunities"]
     ; [T "Financial Impact of "; V MainTopicCap; T " in 2024"]
     ; [V MainTopicCap; T ": Investment and Growth Strategies"]
     ; [V MainTopicCap; T " Market Analysis: What You Need to Know"]
     ; [T "The Financial Landscape of "; V MainTopicCap]
     ; [V MainTopicCap; T ": Economic Trends and Forecasts"]
     ; [V MainTopicCap; T ": Strategic Financial Planning"]
     ; [T "Maximizing Returns in "; V MainTopicCap]
     ; [V MainTopicCap; T ": Financial Best Practices"]
     ; [V MainTopicCap; T ": Growth Opportunities and Strategies"]
     ; [T "The Financial Future of "; V MainTopicCap]
     ; [V MainTopicCap; T ": Investment Insights for "; V TargetAudience]
     ])
  ].

(** The [switch(tone)] of [generateTitles]: the ordered [replace] calls of each case; no case, no rule. *)
Definition titleToneRules (tone : string) : list rule :=
  if tone =? "professional" then
    [ g  ["!"] "."
    ; g  ["ğŸ”¥"; "ğŸš€"; "âœ¨"; "ğŸ’¡"; "ğŸ¯"] ""
    ; g  ["Complete Guide"] "Comprehensive Guide"
    ; g  ["Ultimate"] "Definitive"
    ; g  ["Master"] "Excel in"
    ; g  ["Tips and Tricks"] "Proven Strategies"
    ; g  ["Awesome"; "Amazing"] "Exceptional"
    ; g  ["Level Up"] "Optimize"
    ]
  else if tone =? "casual" then
    [ g  ["Professional"; "Expert"; "Trusted"; "Quality"] "Awesome"
    ; g  ["Revolutionary"; "Premium"] "Amazing"
    ; g  ["Transform"; "Upgrade"] "Level Up"
    ; g  ["Complete Guide"] "Complete Guide"
    ; g  ["Ultimate"] "Best"
    ; g  ["Master"] "Get Good at"
    ; g  ["Comprehensive"] "Complete"
    ; g  ["Essential"] "Important"
    ; g  ["Definitive"] "Best"
    ; g  ["Excel in"] "Get Good at"
    ]
  else if tone =? "friendly" then
    [ g  ["Professional"; "Expert"] "Friendly"
    ; g  ["Revolutionary"] "Game-Changing"
    ; g  ["Transform"] "Improve"
    ; g  ["Complete Guide"] "Friendly Guide to"
    ; g  ["Ultimate"] "Best"
    ; g  ["Master"] "Learn"
    ; g  ["Comprehensive"] "Complete"
    ; g  ["Definitive"] "Best"
    ; g  ["Excel in"] "Learn"
    ]
  else if tone =? "authoritative" then
    [ g  ["Tips and Tricks"] "Proven Strategies"
    ; g  ["Everything You've Been Missing"] "Critical Insights"
    ; g  ["What You Need to Know"] "Essential Knowledge"
    ; g  ["Complete Guide"] "Expert Guide to"
    ; g  ["Ultimate"] "Definitive"
    ; g  ["Master"] "Master"
    ; g  ["Comprehensive"] "Comprehensive"
    ; g  ["Essential"] "Essential"
    ; g  ["Get Good at"] "Master"
    ; g  ["Learn"] "Master"
    ]
  else [].

(** The [allTemplates] table of [generateDescriptions]: content type, then the templates of its bucket in source order. *)
Definition descriptionTemplates : list (string * list template) :=
  [ ("article",
     [ [T "Discover everything you need to know about "; V MainTopic; T " and "; V SecondaryTopic; T ". Expert insights, practical tips, and actionable strategies to help you succeed."]
     ; [T "Learn the essential strategies for mastering "; V MainTopic; T ". From beginner basics to advanced techniques, this comprehensive guide covers it all."]
     ; [T "Explore the latest trends and best practices in "; V MainTopic; T ". Get expert advice and real-world examples to improve your results."]
     ; [T "Struggling with "; V MainTopic; T "? This comprehensive guide breaks down complex concepts into simple, actionable steps for "; V ValidAudience; T "."]
     ; [T "Master "; V MainTopic; T " with proven methodologies and industry best practices. Perfect for "; V ValidAudience; T " looking to enhance their skills."]
     ; [T "Transform your understanding of "; V MainTopic; T " with expert analysis, case studies, and practical implementation strategies."]
     ; [T "Unlock the full potential of "; V MainTopic; T " with our detailed guide. Learn proven techniques that deliver measurable results for "; V ValidAudience; T "."]
     ; [T "Navigate the complexities of "; V MainTopic; T " with confidence. This resource provides the knowledge and tools you need to excel."]
     ; [T "Elevate your "; V MainTopic; T " expertise with comprehensive coverage of fundamentals, advanced techniques, and emerging trends."]
     ])
  ; ("blog",
     [ [T "Uncover the secrets of "; V MainTopic; T " that most people miss. Practical advice, real stories, and actionable tips to transform your approach."]
     ; [T "Dive deep into "; V MainTopic; T " with insights that will change how you think about "; V SecondaryTopic; T ". Expert analysis and practical takeaways."]
     ; [T "Discover why "; V MainTopic; T " is crucial for success and how to implement it effectively. Real-world examples and proven strategies."]
     ; [T "Follow the journey of "; V MainTopic; T " success through real stories and lessons learned. Practical insights for "; V ValidAudience; T " at every level."]
     ; [T "Get behind-the-scenes access to "; V MainTopic; T " strategies that actually work. No fluff, just proven methods and honest advice."]
     ; [T "Learn from the mistakes and triumphs of "; V MainTopic; T " implementation. Real experiences shared to help you avoid common pitfalls."]
     ; [T "Challenge everything you thought you knew about "; V MainTopic; T ". Fresh perspectives and unconventional approaches for modern "; V ValidAudience; T "."]
     ; [T "Explore the controversial side of "; V MainTopic; T " and discover what really works versus what's just hype."]
     ; [T "Question traditional "; V MainTopic; T " methods and discover innovative approaches that deliver better results."]
     ])
  ; ("product",
     [ [T "Experience the next generation of "; V MainTopic; T " technology. Innovative features, superior performance, and unmatched reliability for modern needs."]
     ; [T "Transform your workflow with our advanced "; V MainTopic; T " solution. Designed for professionals who demand excellence and efficiency."]
     ; [T "Upgrade to premium "; V MainTopic; T " quality with cutting-edge features and intuitive design. Built for performance and user satisfaction."]
     ; [T "Streamline your "; V MainTopic; T " processes with intelligent automation and powerful analytics. Built specifically for "; V ValidAudience; T "."]
     ; [T "Maximize your "; V MainTopic; T " ROI with our comprehensive suite of tools and features. Everything you need in one integrated platform."]
     ; [T "Accelerate your "; V MainTopic; T " success with proven technology that scales with your business."]
     ; [T "Reduce costs and increase efficiency with our smart "; V MainTopic; T " solution. Designed to deliver measurable results for "; V ValidAudience; T "."]
     ; [T "Get more done with less effort using our intuitive "; V MainTopic; T " platform. Powerful features wrapped in a user-friendly interface."]
     ; [T "Invest in your future with our reliable "; V MainTopic; T " technology. Built to grow with your business and adapt to changing needs."]
     ])
  ; ("service",
     [ [T "Professional "; V MainTopic; T " services tailored to your specific needs. Expert consultation, reliable delivery, and ongoing support for your success."]
     ; [T "Trust our experienced team for all your "; V MainTopic; T " requirements. Quality service, competitive pricing, and guaranteed satisfaction."]
     ; [T "Partner with industry leaders in "; V MainTopic; T " solutions. Comprehensive services, expert guidance, and proven results for your business."]
     ; [T "Custom "; V MainTopic; T " solutions designed specifically for "; V TargetAudience; T ". Personalized approach, expert execution, and measurable outcomes."]
     ; [T "Full-service "; V MainTopic; T " support from strategy to implementation. Our dedicated team handles every aspect of your project."]
     ; [T "End-to-end "; V MainTopic; T " services that take you from concept to completion. Professional expertise at every step of the process."]
     ; [T "Maximize your "; V MainTopic; T " investment with our proven methodologies and experienced team. Results-driven approach for "; V TargetAudience; T "."]
     ; [T "Optimize your "; V MainTopic; T " performance with data-driven insights and strategic guidance. Expert analysis and actionable recommendations."]
     ; [T "Scale your "; V MainTopic; T " capabilities with our comprehensive support services. From consultation to ongoing optimization."]
     ])
  ; ("video",
     [ [T "Watch our comprehensive "; V MainTopic; T " video guide. Learn step-by-step techniques and best practices for "; V ValidAudience; T "."]
     ; [T "Master "; V MainTopic; T " through our detailed video tutorial. Perfect for "; V ValidAudience; T " looking to enhance their skills visually."]
     ; [T "Discover "; V MainTopic; T " strategies through engaging video content. Real examples and practical demonstrations for immediate application."]
     ; [T "Learn "; V MainTopic; T " fundamentals through our video course. From basics to advanced techniques, all explained with clear visual examples."]
     ; [T "Visual learning at its best: our "; V MainTopic; T " video series breaks down complex concepts into easy-to-follow tutorials."]
     ; [T "Transform your understanding of "; V MainTopic; T " with our comprehensive video library. Expert instruction for "; V ValidAudience; T "."]
     ])
  ; ("email",
     [ [T "Master email marketing "; V MainTopic; T " with our comprehensive guide. Learn proven strategies that drive engagement and conversions for "; V ValidAudience; T "."]
     ; [T "Discover email "; V MainTopic; T " best practices that actually work. From subject lines to content optimization, everything you need to know."]
     ; [T "Transform your email campaigns with "; V MainTopic; T " strategies. Expert guidance for "; V ValidAudience; T " looking to improve email performance."]
     ; [T "Learn email "; V MainTopic; T " techniques that boost open rates and click-through rates. Practical strategies for "; V ValidAudience; T "."]
     ; [T "Master email automation "; V MainTopic; T " workflows. Streamline your email marketing and improve results with proven methodologies."]
     ; [T "Optimize your email "; V MainTopic; T " for maximum ROI. Data-driven strategies and best practices for modern email marketing."]
     ])
  ; ("social",
     [ [T "Master social media "; V MainTopic; T " strategies that drive engagement and growth. Expert guidance for "; V ValidAudience; T " in the digital age."]
     ; [T "Discover social media "; V MainTopic; T " best practices that actually work. From content creation to audience engagement, everything you need to know."]
     ; [T "Transform your social media presence with "; V MainTopic; T " techniques. Proven strategies for "; V ValidAudience; T " looking to grow their online reach."]
     ; [T "Learn platform-specific "; V MainTopic; T " strategies for Instagram, Facebook, LinkedIn, and more. Tailored approaches for "; V ValidAudience; T "."]
     ; [T "Master social media "; V MainTopic; T " across all major platforms. Comprehensive strategies that work for every social media channel."]
     ; [T "Optimize your social media "; V MainTopic; T " for maximum engagement and conversions. Data-driven approaches for modern social media marketing."]
     ])
  ; ("landing",
     [ [T "Master landing page "; V MainTopic; T " optimization techniques. Learn proven strategies that convert visitors into customers for "; V ValidAudience; T "."]
     ; [T "Discover landing page "; V MainTopic; T " best practices that drive conversions. From design to copy optimization, everything you need to know."]
     ; [T "Transform your landing page performance with "; V MainTopic; T " strategies. Expert guidance for "; V ValidAudience; T " looking to improve conversion rates."]
     ; [T "Learn landing page "; V MainTopic; T " techniques that boost conversion rates. Practical strategies for "; V ValidAudience; T " in competitive markets."]
     ; [T "Master landing page "; V MainTopic; T " for maximum ROI. Data-driven optimization strategies and best practices for modern landing pages."]
     ; [T "Optimize your landing page "; V MainTopic; T " for better user experience and higher conversions. Proven methodologies for "; V ValidAudience; T "."]
     ])
  ; ("charitable",
     [ [T "Discover the latest trends and insights in "; V MainTopic; T ". Learn about the impact of charitable giving and how it's shaping our communities."]
     ; [T "Explore the world of "; V MainTopic; T " and understand its significance in today's society. Expert analysis and real-world impact stories."]
     ; [T "Learn about the power of "; V MainTopic; T " and how it's making a difference. Comprehensive coverage of trends, statistics, and success stories."]
     ; [T "Understand the real impact of "; V MainTopic; T " on communities and individuals. Data-driven insights and compelling stories of change."]
     ; [T "Discover how "; V MainTopic; T " is transforming lives and communities. Expert analysis of trends, challenges, and opportunities."]
     ; [T "Explore the significance of "; V MainTopic; T " in modern society. Learn about its economic and social impact on our world."]
     ; [T "Get comprehensive insights into "; V MainTopic; T " and its role in society. Expert analysis, statistics, and real-world examples."]
     ; [T "Master the fundamentals of "; V MainTopic; T " with our detailed guide. From basic concepts to advanced strategies and impact measurement."]
     ; [T "Transform your understanding of "; V MainTopic; T " with expert analysis, case studies, and practical insights for "; V ValidAudience; T "."]
     ])
  ; ("financial",
     [ [T "Discover the financial implications of "; V MainTopic; T " and its impact on the economy. Expert analysis and market insights for "; V ValidAudience; T "."]
     ; [T "Learn about the economic aspects of "; V MainTopic; T " and how it affects financial markets and investment opportunities."]
     ; [T "Explore the financial landscape of "; V MainTopic; T " with comprehensive analysis of trends, opportunities, and market dynamics."]
     ; [T "Understand the market dynamics of "; V MainTopic; T " and its financial impact. Expert insights for investors and financial professionals."]
     ; [T "Get detailed analysis of "; V MainTopic; T " from a financial perspective. Market trends, investment opportunities, and economic impact."]
     ; [T "Master the financial aspects of "; V MainTopic; T " with expert guidance and comprehensive market analysis for "; V ValidAudience; T "."]
     ])
  ].

(** The [switch(tone)] of [generateDescriptions]: the ordered [replace] calls of each case; no case, no rule. *)
Definition descriptionToneRules (tone : string) : list rule :=
  if tone =? "professional" then
    [ gi ["awesome"; "amazing"; "incredible"] "exceptional"
    ; gi ["transform"] "optimize"
    ; gi ["secrets"] "insights"
    ; gi ["struggling"] "facing challenges with"
    ; gi ["unlock"] "access"
    ]
  else if tone =? "casual" then
    [ gi ["Professional"] "Awesome"
    ; gi ["Expert"] "Pro"
    ; gi ["comprehensive"] "complete"
    ; gi ["strategies"] "tips"
    ; gi ["optimize"] "level up"
    ; gi ["exceptional"] "amazing"
    ; gi ["insights"] "secrets"
    ]
  else if tone =? "friendly" then
    [ gi ["Professional"] "Friendly"
    ; gi ["Expert"] "Helpful"
    ; gi ["secrets"] "tips"
    ; gi ["transform"] "improve"
    ; gi ["struggling"] "having trouble with"
    ; gi ["unlock"] "discover"
    ]
  else if tone =? "authoritative" then
    [ gi ["tips"] "proven strategies"
    ; gi ["helpful"] "expert"
    ; gi ["improve"] "optimize"
    ; gi ["secrets"] "critical insights"
    ; gi ["having trouble"] "facing challenges"
    ; gi ["discover"] "access"
    ]
  else [].

(** The [allTemplates] table of [generateSocialCopy]: content type, then the templates of its bucket in source order. *)
Definition socialTemplates : list (string * list template) :=
  [ ("article",
     [ [T "ğŸ“š Just published: The ultimate guide to "; V MainTopic; T "! Whether you're a beginner or expert, this comprehensive article has something for everyone. #"; V MainTopic; T " #ContentMarketing"]
     ; [T "ğŸ¯ Want to master "; V MainTopic; T "? Our latest article breaks down everything you need to know, from basics to advanced strategies. Check it out! #"; V MainTopic]
     ; [T "ğŸ’¡ New insights on "; V MainTopic; T "! Discover proven strategies and expert tips that will transform your approach. Don't miss this! #"; V MainTopic; T " #Tips"]
     ; [T "ğŸ” Struggling with "; V MainTopic; T "? Our new article reveals the most common mistakes and how to avoid them. Essential reading for "; V ValidAudience; T "! #"; V MainTopic; T " #Tips"]
     ; [T "ğŸ“– Just released: The complete "; V MainTopic; T " roadmap from beginner to expert. Perfect for "; V ValidAudience; T " looking to level up their skills! #"; V MainTopic; T " #Learning"]
     ; [T "ğŸ“ New article alert! Master "; V MainTopic; T " with our step-by-step guide. From fundamentals to advanced techniques, we've got you covered. #"; V MainTopic; T " #Education"]
     ; [T "ğŸš€ Transform your "; V MainTopic; T " results with our latest article! Real strategies that actually work, backed by expert analysis. #"; V MainTopic; T " #Results"]
     ; [T "ğŸ’ª Ready to excel in "; V MainTopic; T "? Our comprehensive guide shows you exactly how to implement proven strategies for success. #"; V MainTopic; T " #Success"]
     ; [T "ğŸ“ˆ Boost your "; V MainTopic; T " performance with our expert insights. Learn from industry leaders and avoid common pitfalls. #"; V MainTopic; T " #Performance"]
     ])
  ; ("blog",
     [ [T "ğŸ”¥ Hot off the press: The truth about "; V MainTopic; T " that nobody talks about! Real insights, practical advice, and actionable takeaways. #"; V MainTopic; T " #Blog"]
     ; [T "ğŸš€ Just dropped: Everything you need to know about "; V MainTopic; T "! From beginner tips to expert strategies, we've got you covered. #"; V MainTopic; T " #Learning"]
     ; [T "âœ¨ New blog alert! Discover the secrets of "; V MainTopic; T " and how to implement them effectively. Your success starts here! #"; V MainTopic; T " #Success"]
     ; [T "ğŸ“– The real story behind "; V MainTopic; T " success! Learn from real experiences and avoid the mistakes others have made. #"; V MainTopic; T " #Stories"]
     ; [T "ğŸ­ What I learned about "; V MainTopic; T " the hard way - and how you can avoid the same pitfalls. Honest insights from the trenches! #"; V MainTopic; T " #Lessons"]
     ; [T "ğŸ” Behind the scenes: How "; V MainTopic; T " changed my business and what you can learn from it. Real results, real stories. #"; V MainTopic; T " #BehindTheScenes"]
     ; [T "ğŸ¤” Is "; V MainTopic; T " worth your time? Here's the honest truth that most people won't tell you. #"; V MainTopic; T " #Truth"]
     ; [T "ğŸ’­ The "; V MainTopic; T " secret nobody talks about - and why it matters for "; V ValidAudience; T ". You won't believe what we discovered! #"; V MainTopic; T " #Secrets"]
     ; [T "â“ Question everything you thought you knew about "; V MainTopic; T ". Fresh perspectives that challenge conventional wisdom. #"; V MainTopic; T " #Perspectives"]
     ])
  ; ("product",
     [ [T "ğŸ†• Introducing our revolutionary "; V MainTopic; T " solution! Experience the future of technology with cutting-edge features and unmatched performance. #"; V MainTopic; T " #Innovation"]
     ; [T "âš¡ Transform your workflow with our advanced "; V MainTopic; T " platform! Designed for professionals who demand excellence. #"; V MainTopic; T " #Productivity"]
     ; [T "ğŸ‰ Game-changing "; V MainTopic; T " technology is here! Upgrade your experience with premium features and intuitive design. #"; V MainTopic; T " #Technology"]
     ; [T "ğŸ”§ The "; V MainTopic; T " tool you've been waiting for is finally here! Powerful features, easy use, designed for "; V TargetAudience; T ". #"; V MainTopic; T " #Tools"]
     ; [T "âš™ï¸ Streamline your "; V MainTopic; T " processes with intelligent automation. Built specifically for modern business needs. #"; V MainTopic; T " #Automation"]
     ; [T "ğŸ“Š Maximize your "; V MainTopic; T " ROI with our comprehensive suite. Everything you need in one integrated platform. #"; V MainTopic; T " #ROI"]
     ; [T "ğŸ’° Save time and money with smart "; V MainTopic; T " solutions. Designed to deliver measurable results for "; V TargetAudience; T ". #"; V MainTopic; T " #Savings"]
     ; [T "ğŸ¯ Get more done with less effort using our intuitive "; V MainTopic; T " platform. Powerful features wrapped in a user-friendly interface. #"; V MainTopic; T " #Efficiency"]
     ; [T "ğŸ† Why choose our "; V MainTopic; T " over the competition? Quality you can trust, backed by proven results. #"; V MainTopic; T " #Quality"]
     ])
  ; ("service",
     [ [T "ğŸ› ï¸ Professional "; V MainTopic; T " services that deliver results! Expert consultation, reliable delivery, and ongoing support. #"; V MainTopic; T " #Services"]
     ; [T "ğŸ¤ Trust our experienced team for all your "; V MainTopic; T " needs! Quality service, competitive pricing, guaranteed satisfaction. #"; V MainTopic; T " #Professional"]
     ; [T "ğŸ’¼ Partner with industry leaders in "; V MainTopic; T " solutions! Comprehensive services and proven results for your business. #"; V MainTopic; T " #Partnership"]
     ; [T "ğŸ¯ Custom "; V MainTopic; T " solutions designed specifically for "; V TargetAudience; T ". Personalized approach, expert execution, measurable outcomes. #"; V MainTopic; T " #Custom"]
     ; [T "ğŸ”§ Full-service "; V MainTopic; T " support from strategy to implementation. Our dedicated team handles every aspect of your project. #"; V MainTopic; T " #FullService"]
     ; [T "ğŸ“‹ End-to-end "; V MainTopic; T " services that take you from concept to completion. Professional expertise at every step. #"; V MainTopic; T " #EndToEnd"]
     ; [T "ğŸ“ˆ Maximize your "; V MainTopic; T " investment with our proven methodologies. Results-driven approach for "; V TargetAudience; T ". #"; V MainTopic; T " #Investment"]
     ; [T "ğŸ“Š Optimize your "; V MainTopic; T " performance with data-driven insights. Expert analysis and actionable recommendations. #"; V MainTopic; T " #Optimization"]
     ; [T "ğŸš€ Scale your "; V MainTopic; T " capabilities with our comprehensive support. From consultation to ongoing optimization. #"; V MainTopic; T " #Scaling"]
     ])
  ; ("video",
     [ [T "ğŸ¥ New video alert! Master "; V MainTopic; T " with our comprehensive tutorial. Step-by-step guidance for "; V ValidAudience; T "! #"; V MainTopic; T " #Video"]
     ; [T "ğŸ“¹ Just uploaded: The complete "; V MainTopic; T " video guide! Learn everything you need to know with clear visual examples. #"; V MainTopic; T " #Tutorial"]
     ; [T "ğŸ¬ Watch and learn: "; V MainTopic; T " strategies that actually work! Real examples and practical demonstrations. #"; V MainTopic; T " #Learning"]
     ; [T "ğŸ“š Visual learning at its best! Our "; V MainTopic; T " video series breaks down complex concepts into easy-to-follow tutorials. #"; V MainTopic; T " #Education"]
     ; [T "ğŸ“ From beginner to expert: Master "; V MainTopic; T " through our comprehensive video course. Perfect for "; V ValidAudience; T "! #"; V MainTopic; T " #Course"]
     ; [T "ğŸ’¡ Transform your understanding of "; V MainTopic; T " with our video library. Expert instruction with visual examples. #"; V MainTopic; T " #Expertise"]
     ; [T "ğŸ”¥ Must-watch: The truth about "; V MainTopic; T " revealed in our latest video! Real insights you won't find anywhere else. #"; V MainTopic; T " #Insights"]
     ; [T "âœ¨ Video tutorial: "; V MainTopic; T " secrets that will change how you approach everything! Don't miss this one. #"; V MainTopic; T " #Secrets"]
     ; [T "ğŸš€ Level up your "; V MainTopic; T " skills with our video masterclass! Professional techniques made simple. #"; V MainTopic; T " #Masterclass"]
     ])
  ; ("email",
     [ [T "ğŸ“§ Email marketing mastery: "; V MainTopic; T " strategies that drive engagement and conversions! Essential for "; V ValidAudience; T ". #"; V MainTopic; T " #EmailMarketing"]
     ; [T "ğŸ“¨ Discover email "; V MainTopic; T " best practices that actually work! From subject lines to content optimization. #"; V MainTopic; T " #Email"]
     ; [T "ğŸ“¬ Transform your email campaigns with "; V MainTopic; T " techniques! Expert guidance for better performance. #"; V MainTopic; T " #Campaigns"]
     ; [T "ğŸ“Š Boost your email "; V MainTopic; T " performance! Learn techniques that increase open rates and click-through rates. #"; V MainTopic; T " #EmailROI"]
     ; [T "âš¡ Master email automation "; V MainTopic; T " workflows! Streamline your email marketing for better results. #"; V MainTopic; T " #Automation"]
     ; [T "ğŸ¯ Optimize your email "; V MainTopic; T " for maximum ROI! Data-driven strategies for modern email marketing. #"; V MainTopic; T " #Optimization"]
     ; [T "ğŸ“ˆ Email engagement secrets: "; V MainTopic; T " strategies that get your emails opened and clicked! #"; V MainTopic; T " #Engagement"]
     ; [T "ğŸ’Œ Email subject line mastery: "; V MainTopic; T " techniques that boost open rates! #"; V MainTopic; T " #SubjectLines"]
     ; [T "ğŸ“‹ Email content optimization: "; V MainTopic; T " best practices for higher conversions! #"; V MainTopic; T " #Content"]
     ])
  ; ("social",
     [ [T "ğŸ“± Social media mastery: "; V MainTopic; T " strategies that drive engagement and growth! Essential for "; V ValidAudience; T ". #"; V MainTopic; T " #SocialMedia"]
     ; [T "ğŸ“² Discover social media "; V MainTopic; T " best practices that actually work! From content creation to audience engagement. #"; V MainTopic; T " #Social"]
     ; [T "ğŸ“¸ Transform your social media presence with "; V MainTopic; T " techniques! Proven strategies for growth. #"; V MainTopic; T " #Growth"]
     ; [T "ğŸ“· Instagram "; V MainTopic; T " strategies that get results! Platform-specific techniques for better engagement. #"; V MainTopic; T " #Instagram"]
     ; [T "ğŸ“˜ Facebook "; V MainTopic; T " guide: Best practices for maximum reach and engagement! #"; V MainTopic; T " #Facebook"]
     ; [T "ğŸ’¼ LinkedIn "; V MainTopic; T " strategies for professional networking! Tailored approaches for business growth. #"; V MainTopic; T " #LinkedIn"]
     ; [T "ğŸ”¥ Boost your social media engagement with "; V MainTopic; T "! Proven techniques that get your content shared. #"; V MainTopic; T " #Engagement"]
     ; [T "ğŸ“ˆ Social media growth: "; V MainTopic; T " strategies that expand your reach! #"; V MainTopic; T " #Growth"]
     ; [T "ğŸ¯ Social media ROI: "; V MainTopic; T " techniques that convert followers into customers! #"; V MainTopic; T " #ROI"]
     ])
  ; ("landing",
     [ [T "ğŸ¯ Landing page mastery: "; V MainTopic; T " optimization techniques that convert visitors into customers! #"; V MainTopic; T " #LandingPage"]
     ; [T "ğŸ“„ Discover landing page "; V MainTopic; T " best practices that drive conversions! From design to copy optimization. #"; V MainTopic; T " #Landing"]
     ; [T "ğŸš€ Transform your landing page performance with "; V MainTopic; T " strategies! Expert guidance for better conversions. #"; V MainTopic; T " #Performance"]
     ; [T "ğŸ’° Boost your conversion rates with "; V MainTopic; T " landing page techniques! Practical strategies for "; V ValidAudience; T ". #"; V MainTopic; T " #Conversions"]
     ; [T "ğŸ“Š Landing page ROI: "; V MainTopic; T " optimization strategies for maximum returns! #"; V MainTopic; T " #ROI"]
     ; [T "ğŸ¨ Landing page design: "; V MainTopic; T " principles that improve user experience and conversions! #"; V MainTopic; T " #Design"]
     ; [T "âš¡ Landing page performance: "; V MainTopic; T " optimization techniques that work! #"; V MainTopic; T " #Performance"]
     ; [T "ğŸ“ˆ Landing page success: "; V MainTopic; T " case studies and proven strategies! #"; V MainTopic; T " #Success"]
     ; [T "ğŸ¯ High-converting landing pages: "; V MainTopic; T " strategies that get results! #"; V MainTopic; T " #Results"]
     ])
  ; ("charitable",
     [ [T "ğŸ’ New insights on "; V MainTopic; T "! Discover the impact of charitable giving and how it's changing lives. #"; V MainTopic; T " #CharitableGiving"]
     ; [T "ğŸ“Š Just published: The latest statistics on "; V MainTopic; T " and its impact on communities. Essential reading! #"; V MainTopic; T " #Impact"]
     ; [T "ğŸ¯ Understanding "; V MainTopic; T ": How charitable giving is making a difference in 2024. #"; V MainTopic; T " #Philanthropy"]
     ; [T "ğŸŒŸ The power of "; V MainTopic; T ": Real stories of how charitable giving transforms communities. #"; V MainTopic; T " #Stories"]
     ; [T "ğŸ“ˆ Discover the trends in "; V MainTopic; T " and how they're shaping the future of philanthropy. #"; V MainTopic; T " #Trends"]
     ; [T "ğŸ’¡ Learn about the significance of "; V MainTopic; T " in today's society. Expert analysis and insights. #"; V MainTopic; T " #Insights"]
     ; [T "ğŸ“š Everything you need to know about "; V MainTopic; T ": A comprehensive guide to charitable giving. #"; V MainTopic; T " #Guide"]
     ; [T "ğŸ“ Master the fundamentals of "; V MainTopic; T " with our detailed analysis. From basics to advanced insights. #"; V MainTopic; T " #Education"]
     ; [T "ğŸ” Explore the world of "; V MainTopic; T " and understand its role in modern philanthropy. #"; V MainTopic; T " #Philanthropy"]
     ])
  ; ("financial",
     [ [T "ğŸ’° New analysis: The financial impact of "; V MainTopic; T " on the economy. Expert insights for investors. #"; V MainTopic; T " #Finance"]
     ; [T "ğŸ“Š Just released: Economic analysis of "; V MainTopic; T " and its market implications. #"; V MainTopic; T " #Economics"]
     ; [T "ğŸ¯ Understanding the financial landscape of "; V MainTopic; T ": Market trends and opportunities. #"; V MainTopic; T " #Markets"]
     ; [T "ğŸ“ˆ Discover the market dynamics of "; V MainTopic; T " and investment opportunities. #"; V MainTopic; T " #Investment"]
     ; [T "ğŸ’¼ Financial insights on "; V MainTopic; T ": How it affects markets and economic growth. #"; V MainTopic; T " #Growth"]
     ; [T "ğŸ“‹ Expert analysis of "; V MainTopic; T " from a financial perspective. Market trends and forecasts. #"; V MainTopic; T " #Analysis"]
     ])
  ].

(** The [switch(tone)] of [generateSocialCopy]: the ordered [replace] calls of each case; no case, no rule. *)
Definition socialToneRules (tone : string) : list rule :=
  if tone =? "professional" then
    [ g  ["ğŸ”¥"; "ğŸš€"; "âœ¨"; "ğŸ‰"] "ğŸ“Š"
    ; g  ["Hot off the press"] "New publication"
    ; g  ["Just dropped"] "Recently published"
    ; g  ["Game-changing"] "Innovative"
    ; g  ["revolutionary"] "advanced"
    ; g  ["secrets"] "insights"
    ; g  ["ultimate guide"] "comprehensive guide"
    ; g  ["Don't miss this!"] "Essential reading."
    ; g  ["Check it out!"] "Learn more."
    ; g  ["Struggling"] "Facing challenges with"
    ; g  ["Ready to excel"] "Excel in"
    ; g  ["Boost your"] "Enhance your"
    ]
  else if tone =? "casual" then
    [ g  ["ğŸ“Š"] "ğŸ”¥"
    ; gi ["Professional"] "Awesome"
    ; gi ["Expert"] "Pro"
    ; gi ["comprehensive"] "complete"
    ; gi ["strategies"] "tips"
    ; gi ["insights"] "secrets"
    ; g  ["New publication"] "Hot off the press"
    ; g  ["Recently published"] "Just dropped"
    ; g  ["Innovative"] "Game-changing"
    ; g  ["advanced"] "revolutionary"
    ; g  ["Facing challenges with"] "Struggling with"
    ; g  ["Excel in"] "Get good at"
    ; g  ["Enhance your"] "Boost your"
    ]
  else if tone =? "friendly" then
    [ gi ["Professional"] "Friendly"
    ; gi ["Expert"] "Helpful"
    ; gi ["secrets"] "tips"
    ; gi ["revolutionary"] "amazing"
    ; gi ["Game-changing"] "Helpful"
    ; g  ["Struggling"] "Having trouble with"
    ; g  ["Ready to excel"] "Ready to learn"
    ; g  ["Boost your"] "Improve your"
    ; g  ["Transform your"] "Improve your"
    ]
  else if tone =? "authoritative" then
    [ gi ["tips"] "proven strategies"
    ; gi ["helpful"] "expert"
    ; gi ["secrets"] "critical insights"
    ; gi ["amazing"] "exceptional"
    ; gi ["awesome"] "professional"
    ; g  ["Having trouble with"] "Facing challenges with"
    ; g  ["Ready to learn"] "Ready to master"
    ; g  ["Improve your"] "Optimize your"
    ; g  ["Get good at"] "Master"
    ]
  else [].

(** ** Selection *)

Fixpoint removeAt {A : Type} (i : nat) (l : list A) : list A :=
  match l with
  | [] => []
  | x :: l' => match i with
               | O => l'
               | S j => x :: removeAt j l'
               end
  end.

(** [templates.sort(() => 0.5 - Math.random())]: the order the draws leave the
    bucket in.  Each pick takes one of the templates not yet placed; when the
    picks run out the rest keeps its order. *)
Fixpoint shuffle {A : Type} (picks : list nat) (l : list A) : list A :=
  match picks with
  | [] => l
  | k :: picks' =>
      match l with
      | [] => []
      | x :: _ =>
          let i := k mod List.length l in
          nth i l x :: shuffle picks' (removeAt i l)
      end
  end.

(** [a || b || ...] on table look-ups: the first one that is defined. *)
Fixpoint firstDefined {A : Type} (l : list (option A)) : option A :=
  match l with
  | [] => None
  | Some a :: _ => Some a
  | None :: l' => firstDefined l'
  end.

(** [`${x}`] of a string that may be [undefined]. *)
Definition toText (x : option string) : string :=
  match x with
  | Some s => s
  | None => "undefined"
  end.

(** [targetAudience && targetAudience.trim() ? targetAudience.trim()
    : 'professionals']. *)
Definition validAudienceOf (targetAudience : option string) : string :=
  match targetAudience with
  | None => "professionals"
  | Some a =>
      if String.eqb a EmptyString then "professionals"
      else if String.eqb (trim a) EmptyString then "professionals"
      else trim a
  end.

Definition capitalize (w : string) : string :=
  toUpperCase (charAt0 w) ++ slice1 w.

(** The values of the interpolated expressions. *)
Definition valuesOf (mainTopic secondaryTopic : string)
    (targetAudience : option string) (x : slot) : string :=
  match x with
  | MainTopicCap => capitalize mainTopic
  | MainTopic => mainTopic
  | SecondaryTopic => secondaryTopic
  | TargetAudience => toText targetAudience
  | ValidAudience => validAudienceOf targetAudience
  end.

(** The object [allTemplates]: every template literal evaluated. *)
Definition evaluate (value : slot -> string) (table : list (string * list template))
  : list (string * list string) :=
  map (fun b => (fst b, map (interpolate value) (snd b))) table.

(** ** Hash tags *)

(** The longest prefix made of [\w] characters. *)
Fixpoint takeWord (s : string) : string :=
  match s with
  | EmptyString => EmptyString
  | String c s' => if isWordChar c then String c (takeWord s') else EmptyString
  end.

(** [h.replace(/([A-Z])/g, ' $1')]. *)
Fixpoint spaceCapitals (h : string) : string :=
  match h with
  | EmptyString => EmptyString
  | String c h' =>
      if isUpper c then String " " (String c (spaceCapitals h'))
      else String c (spaceCapitals h')
  end.

(** [word.charAt(0).toUpperCase() + word.slice(1).toLowerCase()]. *)
Definition titleWord (word : string) : string :=
  toUpperCase (charAt0 word) ++ toLowerCase (slice1 word).

(** The callback of [formatHashtags] on the captured [hashtag]. *)
Definition formatTag (hashtag : string) : string :=
  if negb (includes hashtag "_") && negb (anyChar isUpper hashtag)
  then "#" ++ capitalize hashtag
  else "#" ++ join EmptyString
                     (map titleWord (splitBlank (trim (spaceCapitals hashtag)))).

(** [text.replace(/#(\w+)/g, callback)]; [skip] counts the characters of the
    current match still to be passed over. *)
Fixpoint formatHashtags_go (skip : nat) (text : string) : string :=
  match text with
  | EmptyString => EmptyString
  | String c text' =>
      match skip with
      | S k => formatHashtags_go k text'
      | O =>
          if Ascii.eqb c "#" && negb (String.eqb (takeWord text') EmptyString)
          then formatTag (takeWord text')
               ++ formatHashtags_go (String.length (takeWord text')) text'
          else String c (formatHashtags_go 0 text')
      end
  end.

Definition formatHashtags (text : string) : string := formatHashtags_go 0 text.

(** ** The server *)

(** What the two copies of the server differ in: the stop words, whether the
    content type is detected, and the buckets of the three tables. *)
Record serverCopy : Type := mkCopy {
  stopWords : list string;
  detector : option (string -> string -> string);
  titleTable : list (string * list template);
  descriptionTable : list (string * list template);
  socialTable : list (string * list template)
}.

(** The copy with [detectContentType] and ten buckets per table. *)
Definition server : serverCopy :=
  mkCopy commonWords (Some detectContentType)
         titleTemplates descriptionTemplates socialTemplates.

(** The earlier copy: the first 73 stop words, no detection, and the first
    four buckets ([article], [blog], [product], [service]) of each table. *)
Definition earlierServer : serverCopy :=
  mkCopy (firstn 73 commonWords) None
         (firstn 4 titleTemplates) (firstn 4 descriptionTemplates)
         (firstn 4 socialTemplates).

Section Generate.

Variable copy : serverCopy.

(** [allTemplates[detectedType] || allTemplates[contentType] ||
    allTemplates['article']]; without detection
    [allTemplates[contentType] || allTemplates['article']].  The bucket
    [article] exists, so the result is defined. *)
Definition bucketOf (allTemplates : list (string * list string))
    (content contentType : string) : list string :=
  let found :=
    match detector copy with
    | Some detect =>
        let detectedType := detect content contentType in
        firstDefined [lookup detectedType allTemplates;
                      lookup contentType allTemplates;
                      lookup "article" allTemplates]
    | None =>
        firstDefined [lookup contentType allTemplates;
                      lookup "article" allTemplates]
    end in
  match found with Some templates => templates | None => [] end.

(** The titles before the [switch(tone)]: interpolated, shuffled, cut to 5.
    ([thirdTopic] is computed by the code and used by no template.) *)
Definition selectedTitles (content contentType : string)
    (targetAudience : option string) (picks : list nat) : list string :=
  let topics := extractKeyTopicsWith (stopWords copy) content 3 in
  let mainTopic := orElse (ensureCompleteWord (nth_error topics 0)) "content" in
  let secondaryTopic := orElse (ensureCompleteWord (nth_error topics 1)) "strategies" in
  let allTemplates :=
    evaluate (valuesOf mainTopic secondaryTopic targetAudience) (titleTable copy) in
  let templates := bucketOf allTemplates content contentType in
  let shuffled := shuffle picks templates in
  slice0 5 shuffled.

Definition generateTitlesIn (content contentType : string)
    (targetAudience : option string) (tone : string) (picks : list nat) : list string :=
  map (applyRules (titleToneRules tone))
      (selectedTitles content contentType targetAudience picks).

(** The descriptions before the [switch(tone)]. *)
Definition selectedDescriptions (content contentType : string)
    (targetAudience : option string) (picks : list nat) : list string :=
  let topics := extractKeyTopicsWith (stopWords copy) content 2 in
  let mainTopic := orElse (ensureCompleteWord (nth_error topics 0)) "content" in
  let secondaryTopic := orElse (ensureCompleteWord (nth_error topics 1)) "information" in
  let allTemplates :=
    evaluate (valuesOf mainTopic secondaryTopic targetAudience) (descriptionTable copy) in
  let templates := bucketOf allTemplates content contentType in
  let shuffled := shuffle picks templates in
  slice0 3 shuffled.

Definition generateDescriptionsIn (content contentType : string)
    (targetAudience : option string) (tone : string) (picks : list nat) : list string :=
  map (applyRules (descriptionToneRules tone))
      (selectedDescriptions content contentType targetAudience picks).

(** The social posts before the [switch(tone)]. *)
Definition selectedSocialCopy (content contentType : string)
    (targetAudience : option string) (picks : list nat) : list string :=
  let topics := extractKeyTopicsWith (stopWords copy) content 2 in
  let mainTopic := orElse (ensureCompleteWord (nth_error topics 0)) "content" in
  let secondaryTopic := orElse (ensureCompleteWord (nth_error topics 1)) "strategies" in
  let allTemplates :=
    evaluate (valuesOf mainTopic secondaryTopic targetAudience) (socialTable copy) in
  let templates := bucketOf allTemplates content contentType in
  let shuffled := shuffle picks templates in
  slice0 3 shuffled.

Definition generateSocialCopyIn (content contentType : string)
    (targetAudience : option string) (tone : string) (picks : list nat) : list string :=
  map formatHashtags
      (map (applyRules (socialToneRules tone))
           (selectedSocialCopy content contentType targetAudience picks)).

End Generate.

(** The three generators of [server/server.js]. *)
Definition generateTitles := generateTitlesIn server.
Definition generateDescriptions := generateDescriptionsIn server.
Definition generateSocialCopy := generateSocialCopyIn server.

(** The body of a request to [/api/generate]. *)
Record generationRequest : Type := mkRequest {
  contentType : string;
  content : string;
  targetAudience : option string;
  tone : string
}.

(** The [result] object of the handler. *)
Record generationResult : Type := mkResult {
  titles : list string;
  descriptions : list string;
  socialCopy : list string;
  warnings : list string
}.

(** The random draws of the three shuffles of one request. *)
Record draws : Type := mkDraws {
  titlePicks : list nat;
  descriptionPicks : list nat;
  socialPicks : list nat
}.

(** [app.post('/api/generate', ...)]: the object passed to [res.json]. *)
Definition apiGenerateIn (copy : serverCopy) (req : generationRequest) (d : draws)
  : generationResult :=
  mkResult
    (generateTitlesIn copy (content req) (contentType req) (targetAudience req)
                      (tone req) (titlePicks d))
    (generateDescriptionsIn copy (content req) (contentType req) (targetAudience req)
                            (tone req) (descriptionPicks d))
    (generateSocialCopyIn copy (content req) (contentType req) (targetAudience req)
                          (tone req) (socialPicks d))
    [].

Definition apiGenerate := apiGenerateIn server.

(** ** Compliance check *)

(** The file [data/prohibited-words.json], which the handler loads: three
    lists of phrases. *)
Record prohibitedWords : Type := mkWords {
  red_words : list string;
  yellow_words : list string;
  us_specific_terms : list string
}.

(** [phrases.filter(word => content.toLowerCase().includes(word.toLowerCase()))]. *)
Definition wordsFound (content : string) (phrases : list string) : list string :=
  filter (fun word => includes (toLowerCase content) (toLowerCase word)) phrases.

(** [if (found.length > 0) warnings.push(`${label}: ${found.join(', ')}`)]. *)
Definition pushWarning (label : string) (found : list string) (warnings : list string)
  : list string :=
  if Nat.ltb 0 (List.length found)
  then warnings ++ [label ++ ": " ++ join ", " found]
  else warnings.

(** [app.post('/api/compliance/check', ...)]: the [warnings] of the answer. *)
Definition apiComplianceCheck (words : prohibitedWords) (content : string) : list string :=
  let warnings := [] in
  let redWordsFound := wordsFound content (red_words words) in
  let warnings := pushWarning "Red words found" redWordsFound warnings in
  let yellowWordsFound := wordsFound content (yellow_words words) in
  let warnings := pushWarning "Yellow words found" yellowWordsFound warnings in
  let usTermsFound := wordsFound content (us_specific_terms words) in
  let warnings := pushWarning "US-specific terms found" usTermsFound warnings in
  warnings.

(** ** Awaited calls *)

(** What an awaited expression comes to: a value, or an exception (a
    rejected promise). *)
Inductive outcome (A : Type) : Type :=
| Returned (a : A)
| Thrown.

Arguments Returned {A} a.
Arguments Thrown {A}.

Definition bind {A B : Type} (x : outcome A) (f : A -> outcome B) : outcome B :=
  match x with
  | Returned a => f a
  | Thrown => Thrown
  end.

(** [try { body } catch (error) { handler }]. *)
Definition tryCatch {A : Type} (body handler : outcome A) : outcome A :=
  match body with
  | Returned a => Returned a
  | Thrown => handler
  end.

(** ** The Gemini service

    [server/services/geminiService.js].  The Gemini client ([model], built in
    [server/config/gemini.js] from the package [@google/generative-ai]) is
    outside the repository: the service is modelled over any client, an
    awaited call being a value or an exception. *)

Module GeminiService.

(** [(await result.response).text()] of an answer of the client. *)
Definition response : Type := outcome string.

(** [await model.generateContent(prompt)]. *)
Definition client : Type := string -> outcome response.

Definition newline : ascii := ascii_of_nat 10.
Definition doubleQuote : string := String (ascii_of_nat 34) EmptyString.

(** [x || d] on a string that may be [undefined]: the empty string is falsy
    as well. *)
Definition orDefault (x : option string) (d : string) : string :=
  match x with
  | Some s => if String.eqb s EmptyString then d else s
  | None => d
  end.

(** The template literal of [buildTitlePrompt], line by line. *)
Definition buildTitlePrompt (content contentType : string)
    (targetAudience tone : option string) : string :=
  join (String newline EmptyString)
    [ "You are an expert SEO content strategist. Generate 5 compelling, SEO-optimized titles for the following content."
    ; EmptyString
    ; "Content: " ++ doubleQuote ++ content ++ doubleQuote
    ; "Content Type: " ++ contentType
    ; "Target Audience: " ++ orDefault targetAudience "professionals"
    ; "Tone: " ++ orDefault tone "professional"
    ; EmptyString
    ; "Requirements:"
    ; "- Each title should be 50-60 characters"
    ; "- Include the main topic naturally"
    ; "- Match the specified tone"
    ; "- Be engaging and click-worthy"
    ; "- Avoid clickbait or overly promotional language"
    ; "- Use title case formatting"
    ; EmptyString
    ; "Please provide exactly 5 titles, one per line, without numbering or bullet points."
    ].

Definition buildDescriptionPrompt (content contentType : string)
    (targetAudience tone : option string) : string :=
  join (String newline EmptyString)
    [ "You are an expert content strategist. Generate 3 compelling meta descriptions for the following content."
    ; EmptyString
    ; "Content: " ++ doubleQuote ++ content ++ doubleQuote
    ; "Content Type: " ++ contentType
    ; "Target Audience: " ++ orDefault targetAudience "professionals"
    ; "Tone: " ++ orDefault tone "professional"
    ; EmptyString
    ; "Requirements:"
    ; "- Each description should be 150-160 characters"
    ; "- Include the main topic and key benefits"
    ; "- Match the specified tone"
    ; "- Include a call-to-action"
    ; "- Be engaging and informative"
    ; "- Avoid promotional language"
    ; EmptyString
    ; "Please provide exactly 3 descriptions, one per line, without numbering or bullet points."
    ].

Definition buildSocialPrompt (content contentType : string)
    (targetAudience tone : option string) : string :=
  join (String newline EmptyString)
    [ "You are an expert social media strategist. Generate 3 engaging social media posts for the following content."
    ; EmptyString
    ; "Content: " ++ doubleQuote ++ content ++ doubleQuote
    ; "Content Type: " ++ contentType
    ; "Target Audience: " ++ orDefault targetAudience "professionals"
    ; "Tone: " ++ orDefault tone "professional"
    ; EmptyString
    ; "Requirements:"
    ; "- Each post should be 200-280 characters"
    ; "- Include relevant emojis (avoid money/gambling emojis like 💰, 🎰, etc.)"
    ; "- Include 2-3 relevant hashtags"
    ; "- Match the specified tone"
    ; "- Be engaging and shareable"
    ; "- Include a call-to-action"
    ; EmptyString
    ; "Please provide exactly 3 social posts, one per line, without numbering or bullet points."
    ].

(** [s.split(sep)] for a separator of one character. *)
Fixpoint splitChar_go (sep : ascii) (cur : string) (s : string) : list string :=
  match s with
  | EmptyString => [cur]
  | String c s' =>
      if Ascii.eqb c sep then cur :: splitChar_go sep EmptyString s'
      else splitChar_go sep (cur ++ String c EmptyString) s'
  end.

Definition splitChar (sep : ascii) (s : string) : list string :=
  splitChar_go sep EmptyString s.

(** [text.trim().split('\n').filter(line => line.trim())]. *)
Definition answerLines (text : string) : list string :=
  filter (fun line => negb (String.eqb (trim line) EmptyString))
         (splitChar newline (trim text)).

(** [parseTitles]: [lines.slice(0, 5).map(title => title.trim())].  The
    [catch] that returns [null] is for a [text] that is no string; [None] is
    [null]. *)
Definition parseTitles (text : string) : option (list string) :=
  Some (map trim (slice0 5 (answerLines text))).

Definition parseDescriptions (text : string) : option (list string) :=
  Some (map trim (slice0 3 (answerLines text))).

Definition parseSocialCopy (text : string) : option (list string) :=
  Some (map trim (slice0 3 (answerLines text))).

(** The three generators: the call and the reading of the answer are inside
    the [try], the [catch] returns [null]. *)
Definition generateTitles (model : client) (content contentType : string)
    (targetAudience tone : option string) : outcome (option (list string)) :=
  let prompt := buildTitlePrompt content contentType targetAudience tone in
  tryCatch
    (bind (model prompt) (fun result =>
     bind result (fun text =>
     Returned (parseTitles text))))
    (Returned None).

Definition generateDescriptions (model : client) (content contentType : string)
    (targetAudience tone : option string) : outcome (option (list string)) :=
  let prompt := buildDescriptionPrompt content contentType targetAudience tone in
  tryCatch
    (bind (model prompt) (fun result =>
     bind result (fun text =>
     Returned (parseDescriptions text))))
    (Returned None).

Definition generateSocialCopy (model : client) (content contentType : string)
    (targetAudience tone : option string) : outcome (option (list string)) :=
  let prompt := buildSocialPrompt content contentType targetAudience tone in
  tryCatch
    (bind (model prompt) (fun result =>
     bind result (fun text =>
     Returned (parseSocialCopy text))))
    (Returned None).

(** The fields of the service object. *)
Record service : Type := mkService {
  isAvailable : bool;
  initialized : bool
}.

(** The state the constructor sets before it calls [init]. *)
Definition constructed : service := mkService false false.

(** [process.env.GEMINI_API_KEY] as a condition: unset or empty is falsy. *)
Definition truthy (x : option string) : bool :=
  match x with
  | Some s => negb (String.eqb s EmptyString)
  | None => false
  end.

(** [checkAvailability]: with a key the client is tried on ["Hello"]; the
    answer itself is not read. *)
Definition checkAvailability (apiKey : option string) (model : client) (s : service)
  : outcome service :=
  tryCatch
    (if truthy apiKey
     then bind (model "Hello") (fun result => Returned (mkService true (initialized s)))
     else Returned s)
    (Returned (mkService false (initialized s))).

(** [init]. *)
Definition init (apiKey : option string) (model : client) (s : service) : outcome service :=
  bind (checkAvailability apiKey model s) (fun s' =>
  Returned (mkService (isAvailable s') true)).

(** The object [generateMetadata] returns. *)
Record metadata : Type := mkMetadata {
  titles : list string;
  descriptions : list string;
  socialCopy : list string
}.

(** [x || []] on a list that may be [null]; the empty array is truthy. *)
Definition orEmpty (x : option (list string)) : list string :=
  match x with
  | Some l => l
  | None => []
  end.

(** [generateMetadata], on the state [s] that the waiting loop ends with
    ([initialized] set by [init]).  [templateFallback] is the outcome of the
    callback; [Promise.all] throws when one of the three calls throws. *)
Definition generateMetadata (s : service) (model : client) (content contentType : string)
    (targetAudience tone : option string) (templateFallback : outcome metadata)
  : outcome metadata :=
  if negb (isAvailable s) then templateFallback
  else
    tryCatch
      (bind (generateTitles model content contentType targetAudience tone) (fun titles =>
       bind (generateDescriptions model content contentType targetAudience tone)
            (fun descriptions =>
       bind (generateSocialCopy model content contentType targetAudience tone)
            (fun socialCopy =>
       Returned (mkMetadata (orEmpty titles) (orEmpty descriptions) (orEmpty socialCopy))))))
      templateFallback.

End GeminiService.

(** ** The page

    [script.js], the script of the page: the request and what is shown of
    the answers. *)

Module Frontend.

(** [await fetch(url, ...)] that did not reject: the [ok] flag of the
    response and its body, read by [response.json()]. *)
Record fetched (A : Type) : Type := mkFetched {
  ok : bool;
  json : A
}.

Arguments mkFetched {A} ok json.
Arguments ok {A} f.
Arguments json {A} f.

(** The body of an answer of [/api/generate]; [warnings] may be missing. *)
Record data : Type := mkData {
  titles : list string;
  descriptions : list string;
  socialCopy : list string;
  warnings : option (list string)
}.

(** [x || []]. *)
Definition orEmpty (x : option (list string)) : list string :=
  match x with
  | Some l => l
  | None => []
  end.

(** [generateMetadata(formData)], over the outcomes of its two calls of
    [fetch]: the answer of [/api/generate], then the answer of
    [/api/compliance/check] for the same content.  The [catch] throws the
    error again. *)
Definition generateMetadata (generate : outcome (fetched data))
    (compliance : outcome (fetched (list string))) : outcome data :=
  tryCatch
    (bind generate (fun response =>
     if negb (ok response) then Thrown
     else
       let data := json response in
       bind compliance (fun complianceResponse =>
       if ok complianceResponse
       then Returned (mkData (titles data) (descriptions data) (socialCopy data)
                             (Some (orEmpty (warnings data) ++ json complianceResponse)%list))
       else Returned data)))
    Thrown.

(** [displayResults]: whether the block of the warnings is shown
    ([data.warnings && data.warnings.length > 0]), and the warnings listed
    in it. *)
Definition warningsShown (d : data) : bool :=
  match warnings d with
  | Some l => Nat.ltb 0 (List.length l)
  | None => false
  end.

End Frontend.

(** What the page receives from the two handlers of the server, which
    answer with status 200 and the object passed to [res.json]. *)
Definition generateAnswer (r : generationResult) : Frontend.fetched Frontend.data :=
  Frontend.mkFetched true
    (Frontend.mkData (titles r) (descriptions r) (socialCopy r) (Some (warnings r))).

Definition complianceAnswer (warnings : list string) : Frontend.fetched (list string) :=
  Frontend.mkFetched true warnings.

(** ** Vocabulary of the further properties *)




(** The characters of a topic: lower-case letters, digits and the underscore. *)
Definition isTopicChar (c : ascii) : bool :=
  isLower c || isDigit c || Nat.eqb (code c) 95.

(** What [formatHashtags] comes to, character by character: a character that
    follows a [#] is put in upper case, every other character is kept. *)
Fixpoint capitalizeTags (afterHash : bool) (text : string) : string :=
  match text with
  | EmptyString => EmptyString
  | String c text' =>
      String (if afterHash then upperChar c else c)
             (capitalizeTags (Ascii.eqb c "#") text')
  end.

(** A copy of the server with the detection of the content type taken out:
    the bucket is [allTemplates[contentType] || allTemplates['article']]. *)
Definition withoutDetection (copy : serverCopy) : serverCopy :=
  mkCopy (stopWords copy) None (titleTable copy) (descriptionTable copy) (socialTable copy).



(** A rule [.replace(/p/g, 'p')]: one literal, no [i] flag, replaced by
    itself. *)
Definition selfReplacing (r : rule) : bool :=
  match alts r with
  | [p] => negb (ignoreCase r) && String.eqb p (repl r) && negb (String.eqb p EmptyString)
  | _ => false
  end.

(** No template of the table interpolates [x]. *)
Definition unusedIn (x : slot) (table : list (string * list template)) : bool :=
  forallb (fun b => forallb (fun t => negb (hasSlot x t)) (snd b)) table.

(** A line of a parsed answer: not empty, no white space at its ends, no
    line feed inside. *)
Definition isCleanLine (line : string) : bool :=
  negb (String.eqb line EmptyString)
  && String.eqb (trim line) line
  && allChars (fun c => negb (Ascii.eqb c GeminiService.newline)) line.


(** [a] stands in front of an occurrence of [b] in [l]. *)
Definition before {A : Type} (l : list A) (a b : A) : Prop :=
  exists p q, l = (p ++ a :: q)%list /\ In b q.


(** ** Vocabulary of the properties *)

(** The fixed words [extractKeyTopics] pads with. *)
Definition fillers : list string := ["content"; "information"; "strategies"; "success"].

(** The number of characters of [s] with the property [p]. *)
Fixpoint countChars (p : ascii -> bool) (s : string) : nat :=
  match s with
  | EmptyString => 0
  | String c s' => (if p c then 1 else 0) + countChars p s'
  end.

(** [s.length], the number of UTF-16 code units of the text: an ASCII byte
    and the first byte of a 2- or 3-byte sequence count one, the first byte
    of a 4-byte sequence counts two (a surrogate pair), a continuation byte
    counts nothing. *)
Definition codeUnits (c : ascii) : nat :=
  if Nat.ltb (code c) 128 then 1
  else if Nat.ltb (code c) 192 then 0
  else if Nat.ltb (code c) 240 then 1
  else 2.

Fixpoint jsLength (s : string) : nat :=
  match s with
  | EmptyString => 0
  | String c s' => codeUnits c + jsLength s'
  end.

Definition nonSpace (c : ascii) : bool := negb (isSpace c).

(** The score of a category on a text: [scores[type]]. *)
Definition score (content type : string) : nat := scoreIn (scoresOf content) type.

(** The category the specification names on a tie: the first one, in the
    order of the keys, whose score is the maximum. *)
Definition firstWithMaximum (scores : list (string * nat)) : option string :=
  find (fun type => Nat.eqb (scoreIn scores type) (list_max (map snd scores)))
       (map fst scores).

(** The warning of one list of phrases: none when nothing matched. *)
Definition warningFor (label : string) (found : list string) : list string :=
  match found with
  | [] => []
  | _ :: _ => [label ++ ": " ++ join ", " found]
  end.

Definition nonAscii (c : ascii) : bool := negb (isAscii c).

(** A rule cannot erase the ASCII part of a string: its replacement has an
    ASCII character, or its alternatives have none. *)
Definition keepsAscii (r : rule) : bool :=
  anyChar isAscii (repl r) || forallb (allChars nonAscii) (alts r).

(** The table has the bucket [article]. *)
Definition hasArticle (table : list (string * list template)) : bool :=
  match lookup "article" table with Some _ => true | None => false end.

(** A template with some ASCII literal text. *)
Definition hasAsciiText (t : template) : bool :=
  existsb (fun p => match p with T text => anyChar isAscii text | V _ => false end) t.

(** Every bucket holds at least [n] templates, each with ASCII literal text,
    and [article] is one of the buckets. *)
Definition tableReady (n : nat) (table : list (string * list template)) : bool :=
  hasArticle table
  && forallb (fun b => Nat.leb n (List.length (snd b)) && forallb hasAsciiText (snd b))
             table.

Definition notBang (c : ascii) : bool := negb (Ascii.eqb "!" c).

(** No emoji: every character of the string is ASCII.  (An emoji is a
    non-ASCII character, and so is every character of the sequences that
    stand for the emoji in the tone rules.) *)
Definition noEmoji (s : string) : bool := allChars isAscii s.

(** The emoji the professional title rule deletes, as the source spells
    them. *)
Definition strippedEmoji : list string :=
  match titleToneRules "professional" with
  | _ :: r :: _ => alts r
  | _ => []
  end.

(** A template whose literal text is ASCII. *)
Definition asciiText (t : template) : bool :=
  forallb (fun p => match p with T text => allChars isAscii text | V _ => true end) t.

(** The template has a slot for the audience. *)
Definition hasAudience (t : template) : bool :=
  hasSlot TargetAudience t || hasSlot ValidAudience t.

(** * Properties *)

(** ** Sample evaluations *)

Example extractKeyTopics_sample :
  extractKeyTopics
    "Charitable giving and philanthropy continue to be major forces for good." 3
  = ["charitable"; "giving"; "philanthropy"].
Proof. vm_compute. reflexivity. Qed.

(** Equal counts keep the order of [Object.entries]: array-index keys first. *)
Example extractKeyTopics_numeric_keys :
  extractKeyTopics "alpha 2024 beta alpha 1999" 5 = ["alpha"; "1999"; "2024"; "beta"].
Proof. vm_compute. reflexivity. Qed.

Example extractKeyTopics_negative_count :
  extractKeyTopics "alpha beta gamma delta epsilon" (-1)
  = ["alpha"; "beta"; "gamma"; "delta"].
Proof. vm_compute. reflexivity. Qed.

Example ensureCompleteWord_sample :
  ensureCompleteWord (Some "therefor") = "theremarketing"
  /\ ensureCompleteWord (Some "planning") = "planning"
  /\ ensureCompleteWord (Some "ab") = "content"
  /\ ensureCompleteWord None = "content".
Proof. repeat split. Qed.

Example formatHashtags_sample :
  formatHashtags "x #finance #ContentMarketing #ROI #my_topic # #2024!"
  = "x #Finance #ContentMarketing #ROI #My_topic # #2024!".
Proof. vm_compute. reflexivity. Qed.

Example generateTitles_sample :
  generateTitles "Tax planning and tax planning! for retirement" "article"
                 (Some "managers") "professional" [3; 0; 7]
  = ["How to Excel in Planning in 2024";
     "The Comprehensive Guide to Planning";
     "Planning Strategies That Actually Work";
     "The Definitive Planning Guide for managers";
     "Planning: What Every managers Needs to Know"].
Proof. vm_compute. reflexivity. Qed.

Example generateDescriptions_sample :
  generateDescriptions "Tax planning and tax planning! for retirement" "blog"
                       None "friendly" [8]
  = ["Question traditional planning methods and discover innovative approaches that deliver better results.";
     "Uncover the tips of planning that most people miss. Practical advice, real stories, and actionable tips to improve your approach.";
     "Dive deep into planning with insights that will change how you think about retirement. Helpful analysis and practical takeaways."].
Proof. vm_compute. reflexivity. Qed.

(** ** Characters and strings *)

Lemma anyChar_nonempty (p : ascii -> bool) (s : string) :
  anyChar p s = true -> s <> EmptyString.
Proof. destruct s; simpl; [discriminate | intros _ H; discriminate H]. Qed.

Lemma anyChar_append (p : ascii -> bool) (s1 s2 : string) :
  anyChar p (s1 ++ s2) = anyChar p s1 || anyChar p s2.
Proof.
  induction s1 as [|c s1 IH]; simpl; [reflexivity|].
  rewrite IH. apply orb_assoc.
Qed.

Lemma allChars_append (p : ascii -> bool) (s1 s2 : string) :
  allChars p (s1 ++ s2) = allChars p s1 && allChars p s2.
Proof.
  induction s1 as [|c s1 IH]; simpl; [reflexivity|].
  rewrite IH. apply andb_assoc.
Qed.

Lemma allChars_mapChars (p : ascii -> bool) (f : ascii -> ascii) (s : string) :
  (forall c, p (f c) = true) -> allChars p (mapChars f s) = true.
Proof.
  intros Hf. induction s as [|c s IH]; simpl; [reflexivity|].
  now rewrite Hf, IH.
Qed.

Lemma length_append (s1 s2 : string) :
  String.length (s1 ++ s2) = String.length s1 + String.length s2.
Proof. induction s1 as [|c s1 IH]; simpl; congruence. Qed.

Lemma allChars_trimStart (p : ascii -> bool) (s : string) :
  allChars p s = true -> allChars p (trimStart s) = true.
Proof.
  induction s as [|c s IH]; simpl; [reflexivity|].
  intros H. destruct (isSpace c); [|exact H].
  apply andb_true_iff in H as [_ Hs]. now apply IH.
Qed.

Lemma allChars_trimEnd (p : ascii -> bool) (s : string) :
  allChars p s = true -> allChars p (trimEnd s) = true.
Proof.
  induction s as [|c s IH]; simpl; [reflexivity|].
  intros H. apply andb_true_iff in H as [Hc Hs].
  destruct (isSpace c && String.eqb (trimEnd s) EmptyString); simpl; [reflexivity|].
  now rewrite Hc, IH.
Qed.

Lemma allChars_collapseSpaces (p : ascii -> bool) (b : bool) (s : string) :
  p " "%char = true -> allChars p s = true -> allChars p (collapseSpaces_go b s) = true.
Proof.
  intros Hsp. revert b. induction s as [|c s IH]; intros b; simpl; [reflexivity|].
  intros H. apply andb_true_iff in H as [Hc Hs].
  destruct (isSpace c); [destruct b|]; simpl; rewrite ?Hsp, ?Hc, ?IH; auto.
Qed.

(** Every field of a split is made of characters of the string (and of the
    field under construction). *)
Lemma allChars_splitSpaces_go (p : ascii -> bool) (cur : string) (b : bool) (s : string) :
  allChars p cur = true -> allChars p s = true ->
  Forall (fun w => allChars p w = true) (splitSpaces_go cur b s).
Proof.
  revert cur b. induction s as [|c s IH]; intros cur b Hcur Hs; simpl.
  - constructor; [exact Hcur | constructor].
  - simpl in Hs. apply andb_true_iff in Hs as [Hc Hs].
    destruct (isSpace c); [destruct b|].
    + now apply IH.
    + constructor; [exact Hcur | now apply IH].
    + apply IH; [|exact Hs]. rewrite allChars_append. simpl. now rewrite Hcur, Hc.
Qed.

Lemma isAscii_lowerChar (c : ascii) : isAscii c = true -> isAscii (lowerChar c) = true.
Proof.
  unfold lowerChar. destruct (isUpper c) eqn:Hu; [|trivial]. intros _.
  unfold isUpper, between in Hu. apply andb_true_iff in Hu as [H1 H2].
  apply Nat.leb_le in H1, H2.
  unfold isAscii, code. rewrite nat_ascii_embedding by (unfold code in *; lia).
  apply Nat.ltb_lt. unfold code in *. lia.
Qed.

Lemma isAscii_upperChar (c : ascii) : isAscii c = true -> isAscii (upperChar c) = true.
Proof.
  unfold upperChar. destruct (isLower c) eqn:Hu; [|trivial]. intros _.
  unfold isLower, between in Hu. apply andb_true_iff in Hu as [H1 H2].
  apply Nat.leb_le in H1, H2.
  unfold isAscii, code. rewrite nat_ascii_embedding by (unfold code in *; lia).
  apply Nat.ltb_lt. unfold code in *. lia.
Qed.

Lemma isAscii_wordOrSpace (c : ascii) :
  isWordChar c || isSpace c = true -> isAscii c = true.
Proof.
  unfold isWordChar, isSpace, isUpper, isLower, isDigit, between, isAscii.
  intros H. apply Nat.ltb_lt.
  repeat (apply orb_true_iff in H as [H | H]);
    try (apply andb_true_iff in H as [_ H]; apply Nat.leb_le in H; lia);
    apply Nat.eqb_eq in H; lia.
Qed.

(** ** Lists *)

Lemma filter_none {A : Type} (f : A -> bool) (l : list A) :
  Forall (fun x => f x = false) l -> filter f l = [].
Proof.
  induction 1 as [|x l Hx _ IH]; simpl; [reflexivity|]. now rewrite Hx.
Qed.

Lemma In_firstn {A : Type} (n : nat) (l : list A) (x : A) :
  In x (firstn n l) -> In x l.
Proof.
  intros H. rewrite <- (firstn_skipn n l). apply in_or_app. now left.
Qed.

Lemma In_slice0 {A : Type} (e : Z) (l : list A) (x : A) :
  In x (slice0 e l) -> In x l.
Proof. unfold slice0. apply In_firstn. Qed.

(** [l.slice(0, n)] for a count [n] that the array can fill. *)
Lemma slice0_firstn {A : Type} (n : nat) (l : list A) :
  slice0 (Z.of_nat n) l = firstn n l.
Proof.
  unfold slice0.
  destruct (Z.ltb_spec (Z.of_nat n) 0) as [H | _]; [lia|].
  destruct (Nat.le_gt_cases n (List.length l)) as [Hle | Hgt].
  - rewrite Z.min_l by lia. now rewrite Nat2Z.id.
  - rewrite Z.min_r by lia. rewrite Nat2Z.id.
    rewrite firstn_all. symmetry. apply firstn_all2. lia.
Qed.

Lemma length_slice0 {A : Type} (n : nat) (l : list A) :
  n <= List.length l -> List.length (slice0 (Z.of_nat n) l) = n.
Proof. intros H. rewrite slice0_firstn, length_firstn. lia. Qed.

(** ** Topic extraction: where a topic comes from *)

Lemma bump_keys (word : string) (wordCount : list (string * nat)) (k : string) :
  In k (map fst (bump word wordCount)) -> k = word \/ In k (map fst wordCount).
Proof.
  induction wordCount as [|[k' n] rest IH]; simpl.
  - intros [H | []]. now left.
  - destruct (String.eqb k' word); simpl.
    + intros [H | H]; auto.
    + intros [H | H]; auto. destruct (IH H); auto.
Qed.

Lemma countWords_keys_from (words : list string) (wordCount : list (string * nat)) (k : string) :
  In k (map fst (fold_left (fun wc w => bump w wc) words wordCount)) ->
  In k words \/ In k (map fst wordCount).
Proof.
  revert wordCount. induction words as [|w words IH]; intros wordCount; simpl.
  - auto.
  - intros H. destruct (IH _ H) as [H1 | H1]; auto.
    destruct (bump_keys _ _ _ H1) as [-> | H2]; auto.
Qed.

Lemma countWords_keys (words : list string) (k : string) :
  In k (map fst (countWords words)) -> In k words.
Proof.
  intros H. destruct (countWords_keys_from _ _ _ H) as [H1 | []]. exact H1.
Qed.

Lemma insertByIndex_In (e x : string * nat) (l : list (string * nat)) :
  In x (insertByIndex e l) -> x = e \/ In x l.
Proof.
  induction l as [|y l IH]; simpl.
  - intros [H | []]; auto.
  - destruct (N.ltb (decimal (fst y)) (decimal (fst e))); simpl.
    + intros [H | H]; auto. destruct (IH H); auto.
    + intros [H | [H | H]]; auto.
Qed.

Lemma entries_In (wordCount : list (string * nat)) (x : string * nat) :
  In x (entries wordCount) -> In x wordCount.
Proof.
  unfold entries. intros H. apply in_app_or in H as [H | H].
  - assert (G : forall l, In x (fold_right insertByIndex [] l) -> In x l).
    { induction l as [|y l IH]; simpl; [tauto|].
      intros Hx. destruct (insertByIndex_In _ _ _ Hx) as [-> | Hx']; auto. }
    apply G in H. apply filter_In in H. tauto.
  - apply filter_In in H. tauto.
Qed.

Lemma insertByCount_In (e x : string * nat) (l : list (string * nat)) :
  In x (insertByCount e l) -> x = e \/ In x l.
Proof.
  induction l as [|y l IH]; simpl.
  - intros [H | []]; auto.
  - destruct (Nat.ltb (snd e) (snd y)); simpl.
    + intros [H | H]; auto. destruct (IH H); auto.
    + intros [H | [H | H]]; auto.
Qed.

Lemma sortByCount_In (l : list (string * nat)) (x : string * nat) :
  In x (sortByCount l) -> In x l.
Proof.
  unfold sortByCount. induction l as [|y l IH]; simpl; [tauto|].
  intros Hx. destruct (insertByCount_In _ _ _ Hx) as [-> | Hx']; auto.
Qed.

(** A topic read off the word counts is one of the words. *)
Lemma ranked_topic_is_word (words : list string) (maxTopics : Z) (t : string) :
  In t (map fst (slice0 maxTopics (sortByCount (entries (countWords words))))) ->
  In t words.
Proof.
  intros H. apply in_map_iff in H as [[k n] [Hk Hin]]. simpl in Hk. subst k.
  apply In_slice0, sortByCount_In, entries_In in Hin.
  apply countWords_keys. apply in_map_iff. exists (t, n). auto.
Qed.

Lemma extractKeyTopics_origin (stop : list string) (content : string) (maxTopics : Z)
    (t : string) :
  In t (extractKeyTopicsWith stop content maxTopics) ->
  In t (contentWords stop content) \/ In t fillers.
Proof.
  unfold extractKeyTopicsWith.
  set (topics := map fst _).
  assert (Hw : forall x, In x topics -> In x (contentWords stop content))
    by (intros x; apply ranked_topic_is_word).
  destruct topics as [|a [|b [|c rest]]]; simpl; unfold fillers; simpl.
  - intros [H | [H | [H | []]]]; right; tauto.
  - intros [H | [H | [H | []]]]; [left; apply Hw; simpl; auto | right; tauto ..].
  - intros [H | [H | [H | []]]]; [left; apply Hw; simpl; auto .. | right; tauto].
  - intros H. left. apply Hw. exact H.
Qed.

Lemma extractKeyTopics_length (stop : list string) (content : string) (maxTopics : Z) :
  3 <= List.length (extractKeyTopicsWith stop content maxTopics).
Proof.
  unfold extractKeyTopicsWith.
  set (topics := map fst _).
  destruct topics as [|a [|b [|c rest]]]; simpl; lia.
Qed.

Lemma contentWords_kept (stop : list string) (content : string) (w : string) :
  In w (contentWords stop content) ->
  3 < String.length w /\ has stop w = false.
Proof.
  unfold contentWords. intros H. apply filter_In in H as [_ H].
  unfold keepWord in H. apply andb_true_iff in H as [H1 H2].
  apply Nat.ltb_lt in H1. apply negb_true_iff in H2. auto.
Qed.

(** A topic is never a stop word and never short, whenever the fillers are
    not stop words. *)
Lemma extractKeyTopics_clean (stop : list string) (content : string) (maxTopics : Z) :
  forallb (fun f => negb (has stop f)) fillers = true ->
  Forall (fun t => has stop t = false /\ 3 < String.length t)
         (extractKeyTopicsWith stop content maxTopics).
Proof.
  intros Hf. apply Forall_forall. intros t Ht.
  destruct (extractKeyTopics_origin _ _ _ _ Ht) as [H | H].
  - apply contentWords_kept in H. tauto.
  - rewrite forallb_forall in Hf. specialize (Hf _ H).
    apply negb_true_iff in Hf. split; [exact Hf|].
    unfold fillers in H. simpl in H.
    destruct H as [<- | [<- | [<- | [<- | []]]]]; simpl; lia.
Qed.

(** C2.  For every text and every requested count, [extractKeyTopics] returns
    at least three topics (so never an empty list), none of them a stop word
    of [commonWords] and none of them of length 3 or less; the same holds of
    the earlier copy of the function with its shorter stop-word list. *)
Theorem extractKeyTopics_three_clean_topics (content : string) (maxTopics : Z) :
  (3 <= List.length (extractKeyTopics content maxTopics)
   /\ extractKeyTopics content maxTopics <> []
   /\ Forall (fun t => has commonWords t = false /\ 3 < String.length t)
             (extractKeyTopics content maxTopics))
  /\
  (3 <= List.length (extractKeyTopicsWith (stopWords earlierServer) content maxTopics)
   /\ extractKeyTopicsWith (stopWords earlierServer) content maxTopics <> []
   /\ Forall (fun t => has (stopWords earlierServer) t = false /\ 3 < String.length t)
             (extractKeyTopicsWith (stopWords earlierServer) content maxTopics)).
Proof.
  unfold extractKeyTopics.
  split; (split; [apply extractKeyTopics_length | split]).
  - intros H. pose proof (extractKeyTopics_length commonWords content maxTopics) as L.
    rewrite H in L. simpl in L. lia.
  - apply extractKeyTopics_clean. vm_compute. reflexivity.
  - intros H.
    pose proof (extractKeyTopics_length (stopWords earlierServer) content maxTopics) as L.
    rewrite H in L. simpl in L. lia.
  - apply extractKeyTopics_clean. vm_compute. reflexivity.
Qed.

(** ** Short and blank texts *)

Lemma countChars_ext (p q : ascii -> bool) (f : ascii -> ascii) (s : string) :
  (forall c, p (f c) = q c) -> countChars p (mapChars f s) = countChars q s.
Proof.
  intros H. induction s as [|c s IH]; simpl; [reflexivity|]. now rewrite H, IH.
Qed.

Lemma countChars_trimStart (s : string) :
  countChars nonSpace (trimStart s) <= countChars nonSpace s.
Proof.
  induction s as [|c s IH]; simpl; [lia|].
  destruct (isSpace c) eqn:E; simpl; lia.
Qed.

Lemma countChars_trimEnd (s : string) :
  countChars nonSpace (trimEnd s) <= countChars nonSpace s.
Proof.
  induction s as [|c s IH]; simpl; [lia|].
  destruct (isSpace c && String.eqb (trimEnd s) EmptyString); simpl; lia.
Qed.

Lemma countChars_collapseSpaces (b : bool) (s : string) :
  countChars nonSpace (collapseSpaces_go b s) = countChars nonSpace s.
Proof.
  revert b. induction s as [|c s IH]; intros b; simpl; [reflexivity|].
  assert (N : nonSpace c = negb (isSpace c)) by reflexivity.
  assert (B : nonSpace " "%char = false) by reflexivity.
  destruct (isSpace c); [destruct b|]; simpl in *; rewrite ?N, ?B, ?IH; reflexivity.
Qed.

Lemma word_not_space (c : ascii) : isWordChar c = true -> isSpace c = false.
Proof.
  unfold isWordChar, isSpace, isUpper, isLower, isDigit, between. intros H.
  apply orb_false_iff. split; [apply andb_false_iff | apply Nat.eqb_neq];
    repeat (apply orb_true_iff in H as [H | H]);
    try (apply andb_true_iff in H as [H _]; apply Nat.leb_le in H;
         first [right; apply Nat.leb_gt; lia | lia]);
    apply Nat.eqb_eq in H; first [right; apply Nat.leb_gt; lia | lia].
Qed.

Lemma nonSpace_blankPunctuation (c : ascii) :
  nonSpace (if isWordChar c || isSpace c then c else " "%char) = isWordChar c.
Proof.
  unfold nonSpace. destruct (isWordChar c) eqn:W; simpl.
  - now rewrite (word_not_space c W).
  - destruct (isSpace c) eqn:S; [now rewrite S | reflexivity].
Qed.

Lemma isWordChar_lowerChar (c : ascii) : isWordChar (lowerChar c) = isWordChar c.
Proof.
  unfold lowerChar. destruct (isUpper c) eqn:U; [|reflexivity].
  unfold isWordChar at 2. rewrite U. simpl.
  unfold isUpper, between in U. apply andb_true_iff in U as [U1 U2].
  apply Nat.leb_le in U1, U2.
  unfold isWordChar, isLower, between, code.
  rewrite nat_ascii_embedding by (unfold code in *; lia).
  replace (Nat.leb 97 (nat_of_ascii c + 32)) with true
    by (symmetry; apply Nat.leb_le; unfold code in *; lia).
  replace (Nat.leb (nat_of_ascii c + 32) 122) with true
    by (symmetry; apply Nat.leb_le; unfold code in *; lia).
  simpl. now rewrite orb_true_r.
Qed.

Lemma countChars_word_jsLength (s : string) : countChars isWordChar s <= jsLength s.
Proof.
  induction s as [|c s IH]; simpl; [lia|].
  destruct (isWordChar c) eqn:W; [|lia].
  assert (A : isAscii c = true) by (apply isAscii_wordOrSpace; now rewrite W).
  unfold codeUnits. unfold isAscii in A. rewrite A. lia.
Qed.

(** The characters of the fields are the characters that are not white
    space. *)
Lemma length_splitSpaces_go (cur : string) (b : bool) (s : string) :
  Forall (fun w => String.length w <= String.length cur + countChars nonSpace s)
         (splitSpaces_go cur b s).
Proof.
  revert cur b. induction s as [|c s IH]; intros cur b; simpl.
  - constructor; [lia | constructor].
  - assert (N : nonSpace c = negb (isSpace c)) by reflexivity.
    destruct (isSpace c); [destruct b|]; rewrite N; simpl.
    + apply IH.
    + constructor; [lia|].
      eapply Forall_impl; [|apply IH]. intros w Hw; simpl in *; lia.
    + eapply Forall_impl; [|apply IH]. intros w Hw; simpl in *.
      rewrite length_append in Hw. simpl in Hw. lia.
Qed.

Lemma countChars_cleanContent (content : string) :
  countChars nonSpace (cleanContent content) <= countChars isWordChar content.
Proof.
  unfold cleanContent, trim, collapseSpaces, blankPunctuation, toLowerCase.
  etransitivity; [apply countChars_trimEnd|].
  etransitivity; [apply countChars_trimStart|].
  rewrite countChars_collapseSpaces.
  rewrite (countChars_ext nonSpace isWordChar) by apply nonSpace_blankPunctuation.
  rewrite (countChars_ext isWordChar isWordChar) by apply isWordChar_lowerChar.
  lia.
Qed.

(** A text with fewer than four word characters has no word to keep. *)
Lemma contentWords_few_word_chars (stop : list string) (content : string) :
  countChars isWordChar content < 4 -> contentWords stop content = [].
Proof.
  intros H. unfold contentWords, splitSpaces. apply filter_none.
  eapply Forall_impl; [|apply length_splitSpaces_go].
  intros w Hw. simpl in Hw. pose proof (countChars_cleanContent content).
  unfold keepWord. replace (Nat.ltb 3 (String.length w)) with false; [reflexivity|].
  symmetry. apply Nat.ltb_ge. lia.
Qed.

Lemma countChars_blank (s : string) :
  allChars isSpace s = true -> countChars isWordChar s = 0.
Proof.
  induction s as [|c s IH]; simpl; [reflexivity|].
  intros H. apply andb_true_iff in H as [Hc Hs].
  destruct (isWordChar c) eqn:W; [|now apply IH].
  apply word_not_space in W. congruence.
Qed.

Lemma extractKeyTopics_no_words (stop : list string) (content : string) (maxTopics : Z) :
  contentWords stop content = [] ->
  extractKeyTopicsWith stop content maxTopics = ["content"; "information"; "strategies"].
Proof.
  intros H. unfold extractKeyTopicsWith. rewrite H. simpl.
  unfold slice0. rewrite firstn_nil. reflexivity.
Qed.

(** C8.  On a text that is empty, made of white space only, or shorter than
    four characters ([content.length < 4]), [extractKeyTopics] returns exactly
    the default topics ["content"], ["information"], ["strategies"], whatever
    count is asked for.  The function is total: there is no input on which it
    fails. *)
Theorem extractKeyTopics_short_or_blank (content : string) (maxTopics : Z) :
  content = EmptyString \/ allChars isSpace content = true \/ jsLength content < 4 ->
  extractKeyTopics content maxTopics = ["content"; "information"; "strategies"].
Proof.
  intros H. apply extractKeyTopics_no_words, contentWords_few_word_chars.
  destruct H as [-> | [H | H]].
  - simpl. lia.
  - rewrite (countChars_blank _ H). lia.
  - pose proof (countChars_word_jsLength content). lia.
Qed.

Lemma extractKeyTopics_short_or_blank_witness :
  extractKeyTopics "    " 5 = ["content"; "information"; "strategies"]
  /\ extractKeyTopics "Tax" 3 = ["content"; "information"; "strategies"].
Proof.
  split.
  - apply extractKeyTopics_short_or_blank. right. left. reflexivity.
  - apply extractKeyTopics_short_or_blank. right. right. simpl. lia.
Defined.

(** ** The arguments of [ensureCompleteWord] *)

Lemma nth_error_topic (stop : list string) (content : string) (maxTopics : Z) (i : nat) :
  forallb (fun f => negb (has stop f)) fillers = true ->
  i < 3 ->
  exists w, nth_error (extractKeyTopicsWith stop content maxTopics) i = Some w
            /\ 3 < String.length w
            /\ fallbackGuard (Some w) = false.
Proof.
  intros Hf Hi.
  pose proof (extractKeyTopics_length stop content maxTopics) as L.
  destruct (nth_error (extractKeyTopicsWith stop content maxTopics) i) as [w|] eqn:E.
  - exists w. split; [reflexivity|].
    apply nth_error_In in E.
    pose proof (extractKeyTopics_clean stop content maxTopics Hf) as C.
    rewrite Forall_forall in C. destruct (C _ E) as [_ Hlen].
    split; [exact Hlen|].
    unfold fallbackGuard. destruct w as [|c w]; [simpl in Hlen; lia|].
    simpl. apply Nat.ltb_ge. simpl in Hlen. lia.
  - apply nth_error_None in E. lia.
Qed.

(** C10.  Every argument the three generators pass to [ensureCompleteWord]
    ([topics[0]], [topics[1]], [topics[2]] of [extractKeyTopics(content, 3)]
    in [generateTitles]; [topics[0]], [topics[1]] of
    [extractKeyTopics(content, 2)] in [generateDescriptions] and
    [generateSocialCopy]) is a defined string longer than 3, so the guard
    [!word || word.length < 3] that returns ["content"] never fires. *)
Theorem ensureCompleteWord_guard_never_fires (content : string) :
  Forall (fun word => exists w, word = Some w
                                /\ 3 < String.length w
                                /\ fallbackGuard word = false)
         [ nth_error (extractKeyTopics content 3) 0
         ; nth_error (extractKeyTopics content 3) 1
         ; nth_error (extractKeyTopics content 3) 2
         ; nth_error (extractKeyTopics content 2) 0
         ; nth_error (extractKeyTopics content 2) 1 ].
Proof.
  assert (Hf : forallb (fun f => negb (has commonWords f)) fillers = true)
    by (vm_compute; reflexivity).
  unfold extractKeyTopics.
  repeat constructor;
    match goal with
    | |- exists w, nth_error (extractKeyTopicsWith ?s ?c ?m) ?i = _ /\ _ /\ _ =>
        destruct (nth_error_topic s c m i Hf) as [w (E & L & G)]; [lia|];
        exists w; rewrite E in *; auto
    end.
Qed.

(** ** Content-type detection *)

(** The reduction [(a, b) => s(a) > s(b) ? a : b] ends on the last element
    whose score is the maximum: nothing before it scores more, everything
    behind it scores less. *)
Lemma reduce_last_maximum (s : string -> nat) (l pre mid : list string) (a : string) :
  Forall (fun k => s k <= s a) pre ->
  Forall (fun k => s k < s a) mid ->
  exists d before after,
    (pre ++ a :: mid ++ l = before ++ d :: after)%list
    /\ fold_left (fun a b => if Nat.ltb (s b) (s a) then a else b) l a = d
    /\ Forall (fun k => s k <= s d) before
    /\ Forall (fun k => s k < s d) after.
Proof.
  revert pre mid a. induction l as [|b l IH]; intros pre mid a Hpre Hmid.
  - exists a, pre, mid. rewrite app_nil_r. auto.
  - simpl fold_left. destruct (Nat.ltb_spec (s b) (s a)) as [Hlt | Hge].
    + destruct (IH pre (mid ++ [b])%list a Hpre) as (d & before & after & E & F & H1 & H2).
      { apply Forall_app. split; [exact Hmid | constructor; [exact Hlt | constructor]]. }
      exists d, before, after. rewrite <- E, <- app_assoc. simpl. auto.
    + destruct (IH (pre ++ a :: mid)%list [] b) as (d & before & after & E & F & H1 & H2).
      { apply Forall_app. split.
        - eapply Forall_impl; [|exact Hpre]. intros k Hk. simpl in Hk. lia.
        - constructor; [lia|].
          eapply Forall_impl; [|exact Hmid]. intros k Hk. simpl in Hk. lia. }
      { constructor. }
      exists d, before, after. rewrite <- E, <- app_assoc. simpl. auto.
Qed.

Lemma scoresOf_keys (content : string) : map fst (scoresOf content) = map fst keywords.
Proof. unfold scoresOf. rewrite map_map. reflexivity. Qed.

(** C4, as the code has it.  [detectContentType] settles on the LAST category,
    in the order of the keys of [keywords], among those with the maximum
    score: no category before it scores more and every category behind it
    scores less.  It returns that category when its score is at least 2, and
    the user's selection otherwise. *)
Theorem detectContentType_last_maximum (content userSelectedType : string) :
  exists (d : string) (before after : list string),
    (map fst keywords = before ++ d :: after)%list
    /\ Forall (fun k => score content k <= score content d) before
    /\ Forall (fun k => score content k < score content d) after
    /\ detectContentType content userSelectedType
       = if Nat.leb 2 (score content d) then d else userSelectedType.
Proof.
  unfold detectContentType, highestScore. rewrite scoresOf_keys.
  change (map fst keywords)
    with ("charitable" :: ["financial"; "business"; "technology"; "health"; "education"]).
  unfold reduce.
  destruct (reduce_last_maximum (scoreIn (scoresOf content))
              ["financial"; "business"; "technology"; "health"; "education"]
              [] [] "charitable")
    as (d & before & after & E & F & H1 & H2); try constructor.
  exists d, before, after. simpl in E. rewrite <- E, F. unfold score. auto.
Qed.

(** C4, as the specification words it, fails: on this text [charitable] and
    [financial] share the maximum score 2, [charitable] is the first of the
    two, and [detectContentType] answers [financial]. *)
Lemma detectContentType_tie_counterexample :
  scoresOf "charity donation money finance"
  = [("charitable", 2); ("financial", 2); ("business", 0); ("technology", 0);
     ("health", 0); ("education", 0)]
  /\ firstWithMaximum (scoresOf "charity donation money finance") = Some "charitable"
  /\ detectContentType "charity donation money finance" "article" = "financial"
  /\ detectContentType "charity donation money finance" "article" <> "charitable".
Proof.
  repeat split; try (vm_compute; reflexivity).
  vm_compute. discriminate.
Qed.

(** ** Compliance check *)

Lemma pushWarning_app (label : string) (found warnings : list string) :
  pushWarning label found warnings = (warnings ++ warningFor label found)%list.
Proof.
  unfold pushWarning, warningFor. destruct found; simpl; [now rewrite app_nil_r | reflexivity].
Qed.

Lemma length_warningFor (label : string) (found : list string) :
  List.length (warningFor label found) = if Nat.ltb 0 (List.length found) then 1 else 0.
Proof. destruct found; reflexivity. Qed.

Lemma apiComplianceCheck_layout (words : prohibitedWords) (content : string) :
  apiComplianceCheck words content
  = (warningFor "Red words found" (wordsFound content (red_words words))
     ++ warningFor "Yellow words found" (wordsFound content (yellow_words words))
     ++ warningFor "US-specific terms found" (wordsFound content (us_specific_terms words)))%list.
Proof.
  unfold apiComplianceCheck. rewrite !pushWarning_app. simpl. now rewrite app_assoc.
Qed.

(** C3.  The warnings of the compliance check are, in this order, the warning
    of the red words, of the yellow words and of the US-specific terms, each
    present exactly when its list has a match: between 0 and 3 entries.  When
    the text contains a red word (compared in lower case, as a substring), the
    first warning is ["Red words found: "] followed by the matched red words
    joined with [", "], and no other warning starts with
    ["Red words found:"]. *)
Theorem compliance_warnings (words : prohibitedWords) (content : string) :
  let red := wordsFound content (red_words words) in
  let yellow := wordsFound content (yellow_words words) in
  let us := wordsFound content (us_specific_terms words) in
  apiComplianceCheck words content
  = (warningFor "Red words found" red ++ warningFor "Yellow words found" yellow
     ++ warningFor "US-specific terms found" us)%list
  /\ List.length (apiComplianceCheck words content)
     = (if Nat.ltb 0 (List.length red) then 1 else 0)
       + (if Nat.ltb 0 (List.length yellow) then 1 else 0)
       + (if Nat.ltb 0 (List.length us) then 1 else 0)
  /\ List.length (apiComplianceCheck words content) <= 3
  /\ ((exists word, In word (red_words words)
                    /\ includes (toLowerCase content) (toLowerCase word) = true) ->
      exists rest,
        apiComplianceCheck words content
        = ("Red words found: " ++ join ", " red) :: rest
        /\ Forall (fun w => startsWith w "Red words found:" = false) rest
        /\ List.length (filter (fun w => startsWith w "Red words found:")
                               (apiComplianceCheck words content)) = 1).
Proof.
  intros red yellow us.
  pose proof (apiComplianceCheck_layout words content) as L.
  fold red yellow us in L.
  split; [exact L|].
  assert (Hlen : List.length (apiComplianceCheck words content)
                 = (if Nat.ltb 0 (List.length red) then 1 else 0)
                   + (if Nat.ltb 0 (List.length yellow) then 1 else 0)
                   + (if Nat.ltb 0 (List.length us) then 1 else 0)).
  { rewrite L, !length_app, !length_warningFor. lia. }
  split; [exact Hlen|].
  split.
  { rewrite Hlen.
    destruct (Nat.ltb 0 (List.length red)), (Nat.ltb 0 (List.length yellow)),
      (Nat.ltb 0 (List.length us)); simpl; lia. }
  intros (word & Hin & Hinc).
  assert (Hred : In word red) by (apply filter_In; auto).
  exists (warningFor "Yellow words found" yellow
          ++ warningFor "US-specific terms found" us)%list.
  assert (Hrest : Forall (fun w => startsWith w "Red words found:" = false)
                    (warningFor "Yellow words found" yellow
                     ++ warningFor "US-specific terms found" us)%list).
  { apply Forall_app. split.
    - destruct yellow; simpl; repeat constructor.
    - destruct us; simpl; repeat constructor. }
  rewrite L. destruct red as [|r red']; [destruct Hred|].
  split; [reflexivity|]. split; [exact Hrest|].
  rewrite filter_app, length_app, (filter_none _ _ Hrest). reflexivity.
Qed.

(** A text with two of three red words, in another case than listed. *)
Lemma compliance_warnings_witness :
  let words := mkWords ["guarantee"; "risk-free"; "no-lose"] ["best"] ["401(k)"] in
  let content := "We GUARANTEE a Risk-Free return" in
  List.hd EmptyString (apiComplianceCheck words content)
  = "Red words found: guarantee, risk-free"
  /\ List.length (filter (fun w => startsWith w "Red words found:")
                         (apiComplianceCheck words content)) = 1.
Proof.
  intros words content.
  destruct (compliance_warnings words content) as (_ & _ & _ & H).
  destruct H as (rest & E & _ & C).
  - exists "guarantee". split; [now left | reflexivity].
  - split; [rewrite E; reflexivity | exact C].
Defined.

(** ** The shuffle yields exactly the orders of the bucket *)

Lemma removeAt_Permutation {A : Type} (l : list A) (i : nat) (d : A) :
  i < List.length l -> Permutation l (nth i l d :: removeAt i l).
Proof.
  revert i. induction l as [|x l IH]; intros i Hi; simpl in Hi; [lia|].
  destruct i as [|i]; simpl.
  - apply Permutation_refl.
  - eapply perm_trans; [apply perm_skip, (IH i); lia | apply perm_swap].
Qed.

Lemma shuffle_Permutation {A : Type} (picks : list nat) (l : list A) :
  Permutation l (shuffle picks l).
Proof.
  revert l. induction picks as [|k picks IH]; intros l; simpl.
  - apply Permutation_refl.
  - destruct l as [|x l0] eqn:E; [apply Permutation_refl|]. rewrite <- E.
    assert (Hi : k mod List.length l < List.length l)
      by (apply Nat.mod_upper_bound; subst l; simpl; lia).
    eapply perm_trans; [apply (removeAt_Permutation l _ x Hi)|].
    apply perm_skip, IH.
Qed.

Lemma In_nth_removeAt {A : Type} (l : list A) (y : A) :
  In y l ->
  exists i, i < List.length l /\ (forall d, nth i l d = y).
Proof.
  induction l as [|x l IH]; simpl; [tauto|].
  intros [-> | H].
  - exists 0. split; [lia | reflexivity].
  - destruct (IH H) as (i & Hi & Hn). exists (S i). split; [lia | exact Hn].
Qed.

Lemma shuffle_complete {A : Type} (l l' : list A) :
  Permutation l l' -> exists picks, shuffle picks l = l'.
Proof.
  revert l. induction l' as [|y l' IH]; intros l HP.
  - apply Permutation_sym, Permutation_nil in HP. subst l. exists []. reflexivity.
  - assert (Hy : In y l) by (eapply Permutation_in; [apply Permutation_sym, HP | now left]).
    destruct (In_nth_removeAt l y Hy) as (i & Hi & Hn).
    assert (HP' : Permutation (removeAt i l) l').
    { apply Permutation_cons_inv with (a := y).
      eapply perm_trans; [|exact HP].
      rewrite <- (Hn y). apply Permutation_sym, removeAt_Permutation, Hi. }
    destruct (IH _ HP') as [picks Hpicks].
    exists (i :: picks). destruct l as [|x l0]; [simpl in Hi; lia|].
    change (shuffle (i :: picks) (x :: l0))
      with (nth (i mod List.length (x :: l0)) (x :: l0) x
            :: shuffle picks (removeAt (i mod List.length (x :: l0)) (x :: l0))).
    rewrite Nat.mod_small by exact Hi. rewrite Hn, Hpicks. reflexivity.
Qed.

Lemma length_shuffle {A : Type} (picks : list nat) (l : list A) :
  List.length (shuffle picks l) = List.length l.
Proof. symmetry. apply Permutation_length, shuffle_Permutation. Qed.

Lemma In_shuffle {A : Type} (picks : list nat) (l : list A) (x : A) :
  In x (shuffle picks l) -> In x l.
Proof. apply Permutation_in, Permutation_sym, shuffle_Permutation. Qed.

(** ** What a replacement keeps *)

Lemma matchAlts_Some (ci : bool) (ps : list string) (s : string) (n : nat) :
  matchAlts ci ps s = Some n ->
  exists p, In p ps /\ String.length p = n /\ startsWithCase ci s p = true.
Proof.
  induction ps as [|p ps IH]; simpl; [discriminate|].
  destruct (startsWithCase ci s p) eqn:E.
  - intros [= <-]. exists p. auto.
  - intros H. destruct (IH H) as (q & Hq & Hl & Hs). exists q. auto.
Qed.

Lemma isUpper_isAscii (c : ascii) : isUpper c = true -> isAscii c = true.
Proof.
  unfold isUpper, between, isAscii. intros H. apply andb_true_iff in H as [_ H].
  apply Nat.leb_le in H. apply Nat.ltb_lt. lia.
Qed.

Lemma nonAscii_match (ci : bool) (a b : ascii) :
  (if ci then Ascii.eqb (lowerChar a) (lowerChar b) else Ascii.eqb a b) = true ->
  nonAscii a = true -> isAscii b = false.
Proof.
  unfold nonAscii. intros H Ha. apply negb_true_iff in Ha.
  destruct ci.
  - apply Ascii.eqb_eq in H.
    assert (La : lowerChar a = a).
    { unfold lowerChar. destruct (isUpper a) eqn:U; [|reflexivity].
      apply isUpper_isAscii in U. congruence. }
    destruct (isAscii b) eqn:B; [|reflexivity].
    apply isAscii_lowerChar in B. congruence.
  - apply Ascii.eqb_eq in H. congruence.
Qed.

(** Dropping a matched prefix without ASCII characters drops no ASCII
    character. *)
Lemma anyChar_drop_match (ci : bool) (p s : string) :
  startsWithCase ci s p = true -> allChars nonAscii p = true ->
  anyChar isAscii (dropChars (String.length p) s) = anyChar isAscii s.
Proof.
  revert s. induction p as [|a p IH]; intros s; simpl; [reflexivity|].
  destruct s as [|b s]; [discriminate|].
  intros H Hp. apply andb_true_iff in H as [Hab Hs].
  apply andb_true_iff in Hp as [Ha Hp].
  simpl. rewrite (nonAscii_match ci a b Hab Ha). simpl. now apply IH.
Qed.

Lemma dropChars_empty (k : nat) : dropChars k EmptyString = EmptyString.
Proof. destruct k; reflexivity. Qed.

Lemma replace_go_keeps_ascii (r : rule) :
  keepsAscii r = true ->
  forall (s : string) (k : nat),
    anyChar isAscii (dropChars k s) = true ->
    anyChar isAscii (replace_go r k s) = true.
Proof.
  intros Hr. induction s as [|c s IH]; intros k H.
  - rewrite dropChars_empty in H. discriminate H.
  - destruct k as [|k]; [|simpl in *; now apply IH].
    simpl in H. cbn [replace_go].
    destruct (matchAlts (ignoreCase r) (alts r) (String c s)) as [[|n]|] eqn:M.
    + rewrite anyChar_append. simpl.
      apply orb_true_iff in H as [H | H]; [rewrite H; now rewrite orb_true_r|].
      rewrite (IH 0 H). now rewrite !orb_true_r.
    + rewrite anyChar_append.
      unfold keepsAscii in Hr. apply orb_true_iff in Hr as [Hr | Hr];
        [now rewrite Hr|].
      destruct (matchAlts_Some _ _ _ _ M) as (p & Hp & Hl & Hs).
      rewrite forallb_forall in Hr. specialize (Hr _ Hp).
      pose proof (anyChar_drop_match _ _ _ Hs Hr) as D.
      rewrite Hl in D. simpl in D. rewrite IH; [apply orb_true_r|].
      rewrite D. exact H.
    + simpl. apply orb_true_iff in H as [H | H]; [now rewrite H|].
      rewrite (IH 0 H). apply orb_true_r.
Qed.

Lemma replace_keeps_ascii (r : rule) (s : string) :
  keepsAscii r = true -> anyChar isAscii s = true -> anyChar isAscii (replace r s) = true.
Proof. intros Hr H. now apply replace_go_keeps_ascii. Qed.

Lemma applyRules_keeps_ascii (rs : list rule) (s : string) :
  forallb keepsAscii rs = true ->
  anyChar isAscii s = true -> anyChar isAscii (applyRules rs s) = true.
Proof.
  unfold applyRules. revert s. induction rs as [|r rs IH]; intros s Hrs H; simpl.
  - exact H.
  - simpl in Hrs. apply andb_true_iff in Hrs as [Hr Hrs].
    apply IH; [exact Hrs | now apply replace_keeps_ascii].
Qed.

(** A replacement made of characters with a property keeps the property. *)
Lemma replace_go_allChars (P : ascii -> bool) (r : rule) :
  allChars P (repl r) = true ->
  forall (s : string) (k : nat),
    allChars P s = true -> allChars P (replace_go r k s) = true.
Proof.
  intros Hr. induction s as [|c s IH]; intros k H.
  - simpl. destruct k; [|reflexivity].
    destruct (matchAlts (ignoreCase r) (alts r) EmptyString); [exact Hr | reflexivity].
  - simpl in H. apply andb_true_iff in H as [Hc Hs].
    destruct k as [|k]; [|simpl; now apply IH].
    cbn [replace_go].
    destruct (matchAlts (ignoreCase r) (alts r) (String c s)) as [[|n]|].
    + rewrite allChars_append. simpl. now rewrite Hr, Hc, IH.
    + rewrite allChars_append. now rewrite Hr, IH.
    + simpl. now rewrite Hc, IH.
Qed.

Lemma applyRules_allChars (P : ascii -> bool) (rs : list rule) (s : string) :
  forallb (fun r => allChars P (repl r)) rs = true ->
  allChars P s = true -> allChars P (applyRules rs s) = true.
Proof.
  unfold applyRules. revert s. induction rs as [|r rs IH]; intros s Hrs H; simpl.
  - exact H.
  - simpl in Hrs. apply andb_true_iff in Hrs as [Hr Hrs].
    apply IH; [exact Hrs | now apply replace_go_allChars].
Qed.

Lemma formatTag_ascii (hashtag : string) : anyChar isAscii (formatTag hashtag) = true.
Proof. unfold formatTag. destruct (_ && _); reflexivity. Qed.

Lemma formatHashtags_go_keeps_ascii (s : string) (k : nat) :
  anyChar isAscii (dropChars k s) = true ->
  anyChar isAscii (formatHashtags_go k s) = true.
Proof.
  revert k. induction s as [|c s IH]; intros k H.
  - rewrite dropChars_empty in H. discriminate H.
  - destruct k as [|k]; [|simpl in *; now apply IH].
    simpl in H. cbn [formatHashtags_go].
    destruct (Ascii.eqb c "#" && negb (String.eqb (takeWord s) EmptyString)).
    + rewrite anyChar_append, formatTag_ascii. reflexivity.
    + simpl. apply orb_true_iff in H as [H | H]; [now rewrite H|].
      rewrite (IH 0 H). apply orb_true_r.
Qed.

(** ** Selection *)

Lemma lookup_evaluate (value : slot -> string) (table : list (string * list template))
    (k : string) :
  lookup k (evaluate value table) = option_map (map (interpolate value)) (lookup k table).
Proof.
  induction table as [|[k' ts] table IH]; simpl; [reflexivity|].
  destruct (String.eqb k' k); [reflexivity | exact IH].
Qed.

Lemma lookup_In {A : Type} (k : string) (o : list (string * A)) (v : A) :
  lookup k o = Some v -> In v (map snd o).
Proof.
  induction o as [|[k' v'] o IH]; simpl; [discriminate|].
  destruct (String.eqb k' k); [intros [= ->]; now left | intros H; right; auto].
Qed.

(** The selected bucket is a bucket of the table, interpolated. *)
Lemma bucketOf_from_table (copy : serverCopy) (value : slot -> string)
    (table : list (string * list template)) (content contentType : string) :
  hasArticle table = true ->
  exists ts, In ts (map snd table)
             /\ bucketOf copy (evaluate value table) content contentType
                = map (interpolate value) ts.
Proof.
  unfold hasArticle, bucketOf. intros Ha.
  destruct (lookup "article" table) as [art|] eqn:A; [clear Ha | discriminate].
  destruct (detector copy) as [detect|]; simpl firstDefined;
    rewrite !lookup_evaluate, A;
    repeat match goal with
           | |- context [lookup ?k table] =>
               lazymatch k with
               | "article" => fail
               | _ => let E := fresh "E" in destruct (lookup k table) eqn:E
               end
           end; simpl;
    eexists; (split; [|reflexivity]); eapply lookup_In; eassumption.
Qed.

Lemma interpolate_ascii (value : slot -> string) (t : template) :
  hasAsciiText t = true -> anyChar isAscii (interpolate value t) = true.
Proof.
  induction t as [|p t IH]; simpl; [discriminate|].
  intros H. rewrite anyChar_append. apply orb_true_iff in H as [H | H].
  - destruct p; [simpl; now rewrite H | discriminate].
  - rewrite (IH H). apply orb_true_r.
Qed.

(** What the three generators select before the tone is applied: [n] strings
    of the chosen bucket, each with an ASCII character. *)
Lemma selection_ready (copy : serverCopy) (value : slot -> string)
    (table : list (string * list template)) (content contentType : string)
    (picks : list nat) (n : nat) :
  tableReady n table = true ->
  let selected :=
    slice0 (Z.of_nat n)
           (shuffle picks (bucketOf copy (evaluate value table) content contentType)) in
  List.length selected = n
  /\ Forall (fun s => anyChar isAscii s = true) selected.
Proof.
  intros Hready selected. unfold tableReady in Hready.
  apply andb_true_iff in Hready as [Ha Hall].
  destruct (bucketOf_from_table copy value table content contentType Ha)
    as (ts & Hts & Hb).
  apply in_map_iff in Hts as (b & <- & Hin).
  rewrite forallb_forall in Hall. specialize (Hall _ Hin).
  apply andb_true_iff in Hall as [Hn Hascii]. apply Nat.leb_le in Hn.
  subst selected. rewrite Hb. split.
  - apply length_slice0. rewrite length_shuffle, length_map. exact Hn.
  - apply Forall_forall. intros s Hs.
    apply In_slice0, In_shuffle, in_map_iff in Hs as (t & <- & Ht).
    apply interpolate_ascii. rewrite forallb_forall in Hascii. now apply Hascii.
Qed.

(** One case for each [case] of the [switch(tone)], and one for no case. *)
Ltac tone_cases tone :=
  repeat match goal with
         | |- context [if String.eqb tone ?t then _ else _] =>
             destruct (String.eqb tone t)
         end.

Lemma titleToneRules_keep_ascii (tone : string) :
  forallb keepsAscii (titleToneRules tone) = true.
Proof. unfold titleToneRules. tone_cases tone; vm_compute; reflexivity. Qed.

Lemma descriptionToneRules_keep_ascii (tone : string) :
  forallb keepsAscii (descriptionToneRules tone) = true.
Proof. unfold descriptionToneRules. tone_cases tone; vm_compute; reflexivity. Qed.

Lemma socialToneRules_keep_ascii (tone : string) :
  forallb keepsAscii (socialToneRules tone) = true.
Proof. unfold socialToneRules. tone_cases tone; vm_compute; reflexivity. Qed.

Lemma Forall_map_intro {A B : Type} (P : A -> Prop) (Q : B -> Prop) (f : A -> B)
    (l : list A) :
  (forall x, P x -> Q (f x)) -> Forall P l -> Forall Q (map f l).
Proof.
  intros H. induction 1; simpl; constructor; auto.
Qed.

(** The three generators of a copy whose tables are ready return full lists
    of non-empty strings. *)
Lemma titles_full (copy : serverCopy) (content contentType : string)
    (targetAudience : option string) (tone : string) (picks : list nat) :
  tableReady 5 (titleTable copy) = true ->
  List.length (generateTitlesIn copy content contentType targetAudience tone picks) = 5
  /\ Forall (fun t => t <> EmptyString)
            (generateTitlesIn copy content contentType targetAudience tone picks).
Proof.
  intros Hready. unfold generateTitlesIn, selectedTitles. cbv zeta. rewrite length_map.
  match goal with |- context [evaluate ?v (titleTable copy)] =>
    destruct (selection_ready copy v (titleTable copy) content contentType picks 5 Hready)
      as [L F] end.
  split; [exact L|].
  eapply Forall_map_intro; [|exact F]. intros s Hs. simpl in Hs.
  apply (anyChar_nonempty isAscii), applyRules_keeps_ascii;
    [apply titleToneRules_keep_ascii | exact Hs].
Qed.

Lemma descriptions_full (copy : serverCopy) (content contentType : string)
    (targetAudience : option string) (tone : string) (picks : list nat) :
  tableReady 3 (descriptionTable copy) = true ->
  List.length (generateDescriptionsIn copy content contentType targetAudience tone picks) = 3
  /\ Forall (fun t => t <> EmptyString)
            (generateDescriptionsIn copy content contentType targetAudience tone picks).
Proof.
  intros Hready. unfold generateDescriptionsIn, selectedDescriptions. cbv zeta.
  rewrite length_map.
  match goal with |- context [evaluate ?v (descriptionTable copy)] =>
    destruct (selection_ready copy v (descriptionTable copy) content contentType picks 3
                Hready) as [L F] end.
  split; [exact L|].
  eapply Forall_map_intro; [|exact F]. intros s Hs. simpl in Hs.
  apply (anyChar_nonempty isAscii), applyRules_keeps_ascii;
    [apply descriptionToneRules_keep_ascii | exact Hs].
Qed.

Lemma socialCopy_full (copy : serverCopy) (content contentType : string)
    (targetAudience : option string) (tone : string) (picks : list nat) :
  tableReady 3 (socialTable copy) = true ->
  List.length (generateSocialCopyIn copy content contentType targetAudience tone picks) = 3
  /\ Forall (fun t => t <> EmptyString)
            (generateSocialCopyIn copy content contentType targetAudience tone picks).
Proof.
  intros Hready. unfold generateSocialCopyIn, selectedSocialCopy. cbv zeta.
  rewrite !length_map.
  match goal with |- context [evaluate ?v (socialTable copy)] =>
    destruct (selection_ready copy v (socialTable copy) content contentType picks 3 Hready)
      as [L F] end.
  split; [exact L|].
  eapply Forall_map_intro; [|eapply Forall_map_intro; [|exact F]].
  - intros s Hs. apply (anyChar_nonempty isAscii).
    apply formatHashtags_go_keeps_ascii. exact Hs.
  - intros s Hs. simpl in Hs. apply applyRules_keeps_ascii;
      [apply socialToneRules_keep_ascii | exact Hs].
Qed.


(** The earlier copy of the server, with its four buckets per table, does the
    same. *)
Lemma earlier_copy_returns_full_lists (content contentType : string)
    (targetAudience : option string) (tone : string) (picks : list nat) :
  List.length (generateTitlesIn earlierServer content contentType targetAudience tone picks) = 5
  /\ List.length (generateDescriptionsIn earlierServer content contentType targetAudience
                                         tone picks) = 3
  /\ List.length (generateSocialCopyIn earlierServer content contentType targetAudience
                                       tone picks) = 3.
Proof.
  split; [|split].
  - apply titles_full. vm_compute. reflexivity.
  - apply descriptions_full. vm_compute. reflexivity.
  - apply socialCopy_full. vm_compute. reflexivity.
Qed.

(** ** Professional titles *)

Lemma includes_char (s : string) (a : ascii) :
  includes s (String a EmptyString) = anyChar (Ascii.eqb a) s.
Proof.
  induction s as [|c s IH]; simpl; [reflexivity|].
  rewrite IH. unfold startsWith. simpl. now rewrite andb_true_r.
Qed.

Lemma anyChar_negb_allChars (p : ascii -> bool) (s : string) :
  allChars (fun c => negb (p c)) s = true -> anyChar p s = false.
Proof.
  induction s as [|c s IH]; simpl; [reflexivity|].
  intros H. apply andb_true_iff in H as [Hc Hs].
  apply negb_true_iff in Hc. now rewrite Hc, IH.
Qed.

(** [s.replace(/!/g, '.')] leaves no exclamation mark. *)
Lemma replace_bang (s : string) (k : nat) :
  allChars notBang (replace_go (g ["!"] ".") k s) = true.
Proof.
  revert k. induction s as [|c s IH]; intros k.
  - destruct k; reflexivity.
  - destruct k as [|k]; [|simpl; apply IH].
    cbn [replace_go g ignoreCase alts repl matchAlts startsWithCase String.length].
    rewrite andb_true_r. destruct (Ascii.eqb "!" c) eqn:E.
    + rewrite allChars_append, IH. reflexivity.
    + simpl. unfold notBang at 1. now rewrite E, IH.
Qed.

Lemma applyRules_cons (r : rule) (rs : list rule) (s : string) :
  applyRules (r :: rs) s = applyRules rs (replace r s).
Proof. reflexivity. Qed.

Lemma professional_title_no_bang (s : string) :
  includes (applyRules (titleToneRules "professional") s) "!" = false.
Proof.
  rewrite includes_char. apply anyChar_negb_allChars.
  change (titleToneRules "professional")
    with (g ["!"] "." :: tl (titleToneRules "professional")).
  rewrite applyRules_cons. apply applyRules_allChars.
  - vm_compute. reflexivity.
  - apply replace_bang.
Qed.

(** ** ASCII topics *)

Lemma allChars_cleanContent (content : string) :
  allChars isAscii (cleanContent content) = true.
Proof.
  unfold cleanContent, trim, collapseSpaces, blankPunctuation.
  apply allChars_trimEnd, allChars_trimStart, allChars_collapseSpaces; [reflexivity|].
  apply allChars_mapChars. intros c.
  destruct (isWordChar c || isSpace c) eqn:E; [now apply isAscii_wordOrSpace | reflexivity].
Qed.

Lemma topics_ascii (stop : list string) (content : string) (maxTopics : Z) :
  Forall (fun t => allChars isAscii t = true) (extractKeyTopicsWith stop content maxTopics).
Proof.
  apply Forall_forall. intros t Ht.
  destruct (extractKeyTopics_origin _ _ _ _ Ht) as [H | H].
  - unfold contentWords in H. apply filter_In in H as [H _].
    pose proof (allChars_splitSpaces_go isAscii EmptyString false (cleanContent content)
                  eq_refl (allChars_cleanContent content)) as F.
    rewrite Forall_forall in F. now apply F.
  - unfold fillers in H. simpl in H.
    destruct H as [<- | [<- | [<- | [<- | []]]]]; reflexivity.
Qed.

Lemma allChars_takeChars (p : ascii -> bool) (n : nat) (s : string) :
  allChars p s = true -> allChars p (takeChars n s) = true.
Proof.
  revert s. induction n as [|n IH]; intros s; simpl; [reflexivity|].
  destruct s as [|c s]; simpl; [reflexivity|].
  intros H. apply andb_true_iff in H as [Hc Hs]. now rewrite Hc, IH.
Qed.

Lemma ensureCompleteWord_ascii (word : option string) :
  (forall w, word = Some w -> allChars isAscii w = true) ->
  allChars isAscii (ensureCompleteWord word) = true.
Proof.
  intros H. unfold ensureCompleteWord.
  destruct (fallbackGuard word); [reflexivity|].
  destruct word as [w|]; [|reflexivity]. specialize (H w eq_refl).
  destruct (endsWith w "for").
  - rewrite allChars_append, allChars_takeChars by exact H. reflexivity.
  - now repeat destruct (endsWith w _).
Qed.

Lemma topic_value_ascii (stop : list string) (content : string) (maxTopics : Z)
    (i : nat) (default : string) :
  allChars isAscii default = true ->
  allChars isAscii
    (orElse (ensureCompleteWord (nth_error (extractKeyTopicsWith stop content maxTopics) i))
            default) = true.
Proof.
  intros Hd. unfold orElse.
  destruct (String.eqb _ EmptyString); [exact Hd|].
  apply ensureCompleteWord_ascii. intros w Hw. apply nth_error_In in Hw.
  pose proof (topics_ascii stop content maxTopics) as F.
  rewrite Forall_forall in F. now apply F.
Qed.

Lemma capitalize_ascii (w : string) :
  allChars isAscii w = true -> allChars isAscii (capitalize w) = true.
Proof.
  intros H. unfold capitalize. rewrite allChars_append.
  destruct w as [|c w]; [reflexivity|]. simpl in *.
  apply andb_true_iff in H as [Hc Hw]. now rewrite isAscii_upperChar, Hw.
Qed.

Lemma interpolate_allAscii (value : slot -> string) (t : template) :
  (forall x, allChars isAscii (value x) = true) ->
  asciiText t = true -> allChars isAscii (interpolate value t) = true.
Proof.
  intros Hv. induction t as [|p t IH]; simpl; [reflexivity|].
  intros H. apply andb_true_iff in H as [Hp Ht].
  rewrite allChars_append, (IH Ht), andb_true_r.
  destruct p; [exact Hp | apply Hv].
Qed.

(** Each selected string is a template of the table, interpolated. *)
Lemma selection_from_table (copy : serverCopy) (value : slot -> string)
    (table : list (string * list template)) (content contentType : string)
    (picks : list nat) (n : Z) (s : string) :
  hasArticle table = true ->
  In s (slice0 n (shuffle picks (bucketOf copy (evaluate value table) content contentType))) ->
  exists b t, In b table /\ In t (snd b) /\ s = interpolate value t.
Proof.
  intros Ha Hs.
  destruct (bucketOf_from_table copy value table content contentType Ha) as (ts & Hts & Hb).
  apply in_map_iff in Hts as (b & <- & Hin).
  rewrite Hb in Hs. apply In_slice0, In_shuffle, in_map_iff in Hs as (t & <- & Ht).
  exists b, t. auto.
Qed.

(** An ASCII string contains no string that starts with a non-ASCII
    character. *)
Lemma includes_nonAscii (s sub : string) (c : ascii) :
  allChars isAscii s = true -> nonAscii c = true ->
  includes s (String c sub) = false.
Proof.
  intros Hs Hc. induction s as [|b s IH]; [reflexivity|].
  simpl in Hs. apply andb_true_iff in Hs as [Hb Hs].
  cbn [includes]. rewrite (IH Hs), orb_false_r.
  unfold startsWith. cbn [startsWithCase].
  destruct (Ascii.eqb c b) eqn:E; [|reflexivity].
  apply Ascii.eqb_eq in E. subst b. unfold nonAscii in Hc. rewrite Hb in Hc. discriminate Hc.
Qed.

Lemma noEmoji_strippedEmoji (t : string) :
  noEmoji t = true -> Forall (fun e => includes t e = false) strippedEmoji.
Proof.
  intros H. unfold noEmoji in H.
  repeat constructor; apply includes_nonAscii; (exact H || reflexivity).
Qed.

(** C6.  With the tone ["professional"], no title [generateTitles] returns
    contains ["!"], whatever the text, the content type, the audience and the
    order of the shuffle.  For the content type ["article"] and the audience
    ["managers"] the 5 titles moreover contain no emoji: every character is
    ASCII, and none of the emoji the rule deletes occurs. *)
Theorem professional_titles_are_plain (content contentType : string)
    (targetAudience : option string) (picks : list nat) :
  Forall (fun t => includes t "!" = false)
         (generateTitles content contentType targetAudience "professional" picks)
  /\ List.length (generateTitles content "article" (Some "managers") "professional" picks) = 5
  /\ Forall (fun t => includes t "!" = false
                      /\ noEmoji t = true
                      /\ Forall (fun e => includes t e = false) strippedEmoji)
            (generateTitles content "article" (Some "managers") "professional" picks).
Proof.
  split; [|split].
  - unfold generateTitles, generateTitlesIn.
    eapply Forall_map_intro; [|apply Forall_forall; intros x _; exact I].
    intros s _. apply professional_title_no_bang.
  - apply titles_full. vm_compute. reflexivity.
  - unfold generateTitles, generateTitlesIn, selectedTitles. cbv zeta.
    eapply Forall_map_intro; [|apply Forall_forall; intros x Hx; exact Hx].
    intros s Hs. split; [apply professional_title_no_bang|].
    apply selection_from_table in Hs as (b & t & Hb & Ht & ->); [|reflexivity].
    match goal with |- ?A /\ _ => assert (N : A); [|split; [exact N|]] end;
      [|now apply noEmoji_strippedEmoji].
    unfold noEmoji. apply applyRules_allChars; [vm_compute; reflexivity|].
    apply interpolate_allAscii.
    + intros x. destruct x; unfold valuesOf.
      * apply capitalize_ascii, topic_value_ascii. reflexivity.
      * apply topic_value_ascii. reflexivity.
      * apply topic_value_ascii. reflexivity.
      * reflexivity.
      * reflexivity.
    + assert (G : forallb (fun b => forallb asciiText (snd b)) (titleTable server) = true)
        by (vm_compute; reflexivity).
      rewrite forallb_forall in G. specialize (G _ Hb).
      rewrite forallb_forall in G. now apply G.
Qed.

(** ** Unknown tone *)

Lemma toneRules_unknown (tone : string) :
  tone <> "professional" -> tone <> "casual" -> tone <> "friendly" ->
  tone <> "authoritative" ->
  titleToneRules tone = [] /\ descriptionToneRules tone = [] /\ socialToneRules tone = [].
Proof.
  intros H1 H2 H3 H4.
  apply String.eqb_neq in H1, H2, H3, H4.
  unfold titleToneRules, descriptionToneRules, socialToneRules.
  now rewrite H1, H2, H3, H4.
Qed.

Lemma map_applyRules_nil (l : list string) : map (applyRules []) l = l.
Proof. unfold applyRules. simpl. apply map_id. Qed.

(** C7, as the code has it.  For a tone other than ["professional"],
    ["casual"], ["friendly"] and ["authoritative"] the [switch(tone)] applies
    no rule: [generateTitles] and [generateDescriptions] return the selected
    interpolated templates unchanged, and [generateSocialCopy] returns them
    after the hash-tag pass [formatHashtags], which runs for every tone. *)
Theorem unknown_tone_applies_no_rule (content contentType : string)
    (targetAudience : option string) (tone : string) (picks : list nat) :
  tone <> "professional" -> tone <> "casual" -> tone <> "friendly" ->
  tone <> "authoritative" ->
  (titleToneRules tone = [] /\ descriptionToneRules tone = [] /\ socialToneRules tone = [])
  /\ generateTitles content contentType targetAudience tone picks
     = selectedTitles server content contentType targetAudience picks
  /\ generateDescriptions content contentType targetAudience tone picks
     = selectedDescriptions server content contentType targetAudience picks
  /\ generateSocialCopy content contentType targetAudience tone picks
     = map formatHashtags (selectedSocialCopy server content contentType targetAudience picks).
Proof.
  intros H1 H2 H3 H4.
  destruct (toneRules_unknown tone H1 H2 H3 H4) as (Rt & Rd & Rs).
  split; [auto|].
  unfold generateTitles, generateDescriptions, generateSocialCopy,
    generateTitlesIn, generateDescriptionsIn, generateSocialCopyIn.
  rewrite Rt, Rd, Rs, !map_applyRules_nil. auto.
Qed.

Lemma unknown_tone_applies_no_rule_witness :
  generateTitles "Tax planning for retirement" "blog" (Some "savers") "playful" [2; 5]
  = selectedTitles server "Tax planning for retirement" "blog" (Some "savers") [2; 5].
Proof.
  apply (unknown_tone_applies_no_rule
           "Tax planning for retirement" "blog" (Some "savers") "playful" [2; 5]);
    discriminate.
Defined.

(** C7, as the specification words it, fails for [generateSocialCopy]: with
    the unknown tone ["playful"] no rule applies, and still, whatever the
    order of the shuffle, the posts are not the interpolated templates: the
    hash tag [#content] of the template has become [#Content]. *)
Lemma unknown_tone_social_counterexample :
  socialToneRules "playful" = []
  /\ includes (nth 0 (selectedSocialCopy server "" "article" None []) "") "#content" = true
  /\ includes (nth 0 (generateSocialCopy "" "article" None "playful" []) "") "#content" = false
  /\ includes (nth 0 (generateSocialCopy "" "article" None "playful" []) "") "#Content" = true
  /\ ~ (exists picks,
          generateSocialCopy "" "article" None "playful" picks
          = selectedSocialCopy server "" "article" None picks).
Proof.
  repeat split; try (vm_compute; reflexivity).
  intros [picks H].
  unfold generateSocialCopy, generateSocialCopyIn in H.
  change (socialToneRules "playful") with (@nil rule) in H.
  rewrite map_applyRules_nil in H.
  unfold selectedSocialCopy in H. cbv zeta in H.
  match type of H with context [evaluate ?v (socialTable server)] =>
    set (value := v) in H;
    destruct (selection_ready server value (socialTable server) "" "article" picks 3)
      as [L _]; [vm_compute; reflexivity|];
    pose proof (selection_from_table server value (socialTable server) "" "article" picks 3)
      as From
  end.
  cbv zeta in L.
  change (Z.of_nat 3) with 3%Z in L.
  destruct (slice0 3 (shuffle picks (bucketOf server (evaluate value (socialTable server))
                                              "" "article"))) as [|s rest] eqn:E;
    [discriminate L|].
  destruct (From s) as (b & t & Hb & Ht & Hs); [reflexivity | now left |].
  simpl in H. injection H as H _. subst s.
  assert (G : forallb (fun b => forallb (fun t =>
                negb (String.eqb (formatHashtags (interpolate value t))
                                 (interpolate value t))) (snd b))
                      (socialTable server) = true) by (vm_compute; reflexivity).
  rewrite forallb_forall in G. specialize (G _ Hb).
  rewrite forallb_forall in G. specialize (G _ Ht).
  rewrite H, String.eqb_refl in G. discriminate G.
Qed.

(** ** Interpolation *)

Lemma startsWith_append (s r : string) : startsWith (s ++ r) s = true.
Proof.
  unfold startsWith. induction s as [|c s IH]; simpl; [reflexivity|].
  now rewrite Ascii.eqb_refl, IH.
Qed.

Lemma includes_here (s sub : string) : startsWith s sub = true -> includes s sub = true.
Proof. intros H. destruct s; simpl; now rewrite H. Qed.

Lemma includes_append_r (p s sub : string) :
  includes s sub = true -> includes (p ++ s) sub = true.
Proof.
  intros H. induction p as [|c p IH]; simpl; [exact H|].
  rewrite IH. apply orb_true_r.
Qed.

Lemma slot_eqb_eq (x y : slot) : slot_eqb x y = true -> x = y.
Proof. destruct x, y; simpl; intros H; congruence. Qed.

(** The value of an interpolated expression is in the output as it is. *)
Lemma interpolate_includes (value : slot -> string) (t : template) (x : slot) :
  hasSlot x t = true -> includes (interpolate value t) (value x) = true.
Proof.
  unfold hasSlot. induction t as [|p t IH]; simpl; [discriminate|].
  intros H. apply orb_true_iff in H as [H | H].
  - destruct p as [text | y]; [discriminate|].
    apply slot_eqb_eq in H. subst y. simpl.
    apply includes_here, startsWith_append.
  - apply includes_append_r, IH, H.
Qed.

Lemma table_slots (value : slot -> string) (table : list (string * list template))
    (x : slot) (audience : string) :
  forallb (fun b => forallb (hasSlot x) (snd b)) table = true ->
  value TargetAudience = audience -> value ValidAudience = audience ->
  Forall (fun b =>
            Forall (fun t =>
                      includes (interpolate value t) (value x) = true
                      /\ (hasAudience t = true ->
                          includes (interpolate value t) audience = true))
                   (snd b))
         table.
Proof.
  intros Hx Ht Hv. apply Forall_forall. intros b Hb. apply Forall_forall. intros t Hin.
  rewrite forallb_forall in Hx. specialize (Hx _ Hb).
  rewrite forallb_forall in Hx. specialize (Hx _ Hin).
  split; [now apply interpolate_includes|].
  unfold hasAudience. intros H. apply orb_true_iff in H as [H | H].
  - rewrite <- Ht. now apply interpolate_includes.
  - rewrite <- Hv. now apply interpolate_includes.
Qed.

(** C5, as the code has it.  With the main topic ["finance"] and the audience
    ["managers"], every title template yields a string that contains the
    topic with its first letter in upper case, ["Finance"]; every description
    and every social template yields a string that contains ["finance"]; and
    every template that interpolates the audience yields a string that
    contains ["managers"].  The values are copied as they are, neither
    shortened nor escaped. *)
Theorem interpolation_keeps_values (secondaryTopic : string) :
  let value := valuesOf "finance" secondaryTopic (Some "managers") in
  Forall (fun b =>
            Forall (fun t =>
                      includes (interpolate value t) "Finance" = true
                      /\ (hasAudience t = true ->
                          includes (interpolate value t) "managers" = true))
                   (snd b))
         titleTemplates
  /\ Forall (fun b =>
               Forall (fun t =>
                         includes (interpolate value t) "finance" = true
                         /\ (hasAudience t = true ->
                             includes (interpolate value t) "managers" = true))
                      (snd b))
            descriptionTemplates
  /\ Forall (fun b =>
               Forall (fun t =>
                         includes (interpolate value t) "finance" = true
                         /\ (hasAudience t = true ->
                             includes (interpolate value t) "managers" = true))
                      (snd b))
            socialTemplates.
Proof.
  intros value. split; [|split].
  - apply (table_slots value titleTemplates MainTopicCap "managers");
      [vm_compute; reflexivity | reflexivity | reflexivity].
  - apply (table_slots value descriptionTemplates MainTopic "managers");
      [vm_compute; reflexivity | reflexivity | reflexivity].
  - apply (table_slots value socialTemplates MainTopic "managers");
      [vm_compute; reflexivity | reflexivity | reflexivity].
Qed.

(** C5, as the specification words it, fails: the first title template of the
    bucket [article] yields ["The Complete Guide to Finance"], which contains
    neither ["finance"] nor ["managers"]; the second description template of
    the bucket contains ["finance"] and not ["managers"]. *)
Lemma interpolation_counterexample :
  let value := valuesOf "finance" "strategies" (Some "managers") in
  (exists rest others, titleTemplates
     = ("article", [T "The Complete Guide to "; V MainTopicCap] :: rest) :: others)
  /\ interpolate value [T "The Complete Guide to "; V MainTopicCap]
     = "The Complete Guide to Finance"
  /\ includes "The Complete Guide to Finance" "finance" = false
  /\ includes "The Complete Guide to Finance" "managers" = false
  /\ (exists t, nth_error (match lookup "article" descriptionTemplates with
                           | Some ts => ts
                           | None => []
                           end) 1 = Some t
                /\ includes (interpolate value t) "finance" = true
                /\ includes (interpolate value t) "managers" = false)
  /\ ~ Forall (fun b =>
                Forall (fun t =>
                          includes (interpolate value t) "finance" = true
                          /\ includes (interpolate value t) "managers" = true)
                       (snd b))
             titleTemplates.
Proof.
  cbv zeta. split; [|split; [|split; [|split; [|split]]]].
  - eexists. eexists. reflexivity.
  - vm_compute. reflexivity.
  - vm_compute. reflexivity.
  - vm_compute. reflexivity.
  - eexists. split; [reflexivity|]. split; vm_compute; reflexivity.
  - unfold titleTemplates. intros H.
    apply Forall_inv in H. cbn [snd] in H. apply Forall_inv in H.
    destruct H as [H _]. vm_compute in H. discriminate H.
Qed.

(** ** The answer of [/api/generate] *)

(** C9.  Whatever the request and the draws, the [warnings] field of the
    answer of [/api/generate] is the empty list, in both copies of the
    server: warnings come from the compliance check only. *)
Theorem generate_has_no_warnings (req : generationRequest) (d : draws) :
  warnings (apiGenerate req d) = []
  /\ warnings (apiGenerateIn earlierServer req d) = [].
Proof. split; reflexivity. Qed.

(** The same text, checked: the compliance handler is where a warning comes
    from. *)
Example warnings_come_from_the_check :
  let words := mkWords ["guarantee"] ["best"] ["401(k)"] in
  let req := mkRequest "article" "We GUARANTEE the best returns" None "casual" in
  warnings (apiGenerate req (mkDraws [] [] [])) = []
  /\ apiComplianceCheck words (content req)
     = ["Red words found: guarantee"; "Yellow words found: best"].
Proof. split; vm_compute; reflexivity. Qed.

(** * Further properties *)

(** ** [detectContentType]: the threshold *)

(** X1.  [detectContentType] either finds no category with two keyword
    matches and returns the user's selection unchanged, or returns a category
    of [keywords] that has at least two matches and as many as any other. *)
Theorem detectContentType_threshold (content userSelectedType : string) :
  (Forall (fun k => score content k < 2) (map fst keywords)
   /\ detectContentType content userSelectedType = userSelectedType)
  \/ (In (detectContentType content userSelectedType) (map fst keywords)
      /\ 2 <= score content (detectContentType content userSelectedType)
      /\ Forall (fun k => score content k
                          <= score content (detectContentType content userSelectedType))
                (map fst keywords)).
Proof.
  unfold detectContentType, highestScore. rewrite scoresOf_keys.
  change (map fst keywords)
    with ("charitable" :: ["financial"; "business"; "technology"; "health"; "education"]).
  unfold reduce.
  destruct (reduce_last_maximum (scoreIn (scoresOf content))
              ["financial"; "business"; "technology"; "health"; "education"]
              [] [] "charitable")
    as (d & before & after & E & F & H1 & H2); [constructor | constructor |].
  simpl in E. rewrite F. fold (score content d).
  assert (Hall : Forall (fun k => score content k <= score content d)
                        (before ++ d :: after)%list).
  { apply Forall_app. split; [exact H1|]. constructor; [lia|].
    eapply Forall_impl; [|exact H2]. intros k Hk. simpl in Hk. unfold score. lia. }
  rewrite <- E in Hall.
  destruct (Nat.leb_spec 2 (score content d)) as [Hge | Hlt].
  - right. split; [|split; [exact Hge | exact Hall]].
    rewrite E. apply in_or_app. right. now left.
  - left. split; [|reflexivity].
    eapply Forall_impl; [|exact Hall]. intros k Hk. simpl in Hk. lia.
Qed.

(** ** [extractKeyTopics]: how many topics *)

Lemma length_slice0_nonneg {A : Type} (e : Z) (l : list A) :
  (0 <= e)%Z -> List.length (slice0 e l) = Nat.min (Z.to_nat e) (List.length l).
Proof.
  intros H. unfold slice0.
  destruct (Z.ltb_spec e 0) as [Hneg | _]; [lia|].
  rewrite length_firstn. lia.
Qed.

Lemma extractKeyTopics_bound (stop : list string) (content : string) (maxTopics : Z) :
  (0 <= maxTopics)%Z ->
  List.length (extractKeyTopicsWith stop content maxTopics)
  <= Nat.max 3 (Z.to_nat maxTopics).
Proof.
  intros H. unfold extractKeyTopicsWith.
  set (ranked := slice0 maxTopics _).
  assert (L : List.length (map fst ranked) <= Z.to_nat maxTopics).
  { rewrite length_map. unfold ranked. rewrite length_slice0_nonneg by exact H. lia. }
  destruct (map fst ranked) as [|a [|b [|c rest]]]; cbn [List.length app] in *; lia.
Qed.

(** X2.  For a count that is not negative, [extractKeyTopics] returns at most
    [max(3, maxTopics)] topics; so the calls of the generators, with the
    counts 3 and 2, get exactly three topics, and the count 0 gets the three
    default topics whatever the text. *)
Theorem extractKeyTopics_count (content : string) (maxTopics : Z) :
  (0 <= maxTopics)%Z ->
  List.length (extractKeyTopics content maxTopics) <= Nat.max 3 (Z.to_nat maxTopics)
  /\ List.length (extractKeyTopics content 3) = 3
  /\ List.length (extractKeyTopics content 2) = 3
  /\ extractKeyTopics content 0 = ["content"; "information"; "strategies"].
Proof.
  intros H. unfold extractKeyTopics. split; [now apply extractKeyTopics_bound|].
  pose proof (extractKeyTopics_bound commonWords content 3 ltac:(lia)) as B3.
  pose proof (extractKeyTopics_bound commonWords content 2 ltac:(lia)) as B2.
  pose proof (extractKeyTopics_length commonWords content 3) as L3.
  pose proof (extractKeyTopics_length commonWords content 2) as L2.
  simpl in B3, B2. split; [lia|]. split; [lia|].
  unfold extractKeyTopicsWith, slice0.
  change (0 <? 0)%Z with false. cbv iota.
  rewrite Z.min_l by lia. reflexivity.
Qed.

Lemma extractKeyTopics_count_witness :
  List.length (extractKeyTopics "alpha beta gamma delta epsilon zeta" 4) <= 4.
Proof.
  apply (extractKeyTopics_count "alpha beta gamma delta epsilon zeta" 4). lia.
Defined.

(** ** [ensureCompleteWord] *)

Lemma length_takeChars (n : nat) (s : string) :
  String.length (takeChars n s) = Nat.min n (String.length s).
Proof.
  revert s. induction n as [|n IH]; intros s; [reflexivity|].
  destruct s as [|c s]; simpl; [reflexivity|]. now rewrite IH.
Qed.

Lemma dropChars_append (x y : string) (k : nat) :
  dropChars (String.length x + k) (x ++ y) = dropChars k y.
Proof. induction x as [|c x IH]; simpl; [reflexivity | exact IH]. Qed.

Lemma fallbackGuard_false (w : string) :
  fallbackGuard (Some w) = false -> 3 <= String.length w.
Proof.
  unfold fallbackGuard. intros H. apply orb_false_iff in H as [_ H].
  apply Nat.ltb_ge in H. exact H.
Qed.

Lemma ensureCompleteWord_length (word : option string) :
  3 <= String.length (ensureCompleteWord word).
Proof.
  unfold ensureCompleteWord. destruct (fallbackGuard word) eqn:G; [simpl; lia|].
  destruct word as [w|]; [|simpl; lia]. apply fallbackGuard_false in G.
  destruct (endsWith w "for").
  - rewrite length_append, length_takeChars. simpl. lia.
  - now repeat destruct (endsWith w _).
Qed.

(** X3.  [ensureCompleteWord] never returns a string shorter than three
    characters, in particular never the empty string: the alternative of
    [ensureCompleteWord(topics[i]) || 'content'] in the generators is never
    taken, whatever the argument. *)
Theorem ensureCompleteWord_never_short (word : option string) (default : string) :
  3 <= String.length (ensureCompleteWord word)
  /\ ensureCompleteWord word <> EmptyString
  /\ orElse (ensureCompleteWord word) default = ensureCompleteWord word.
Proof.
  pose proof (ensureCompleteWord_length word) as L.
  assert (N : ensureCompleteWord word <> EmptyString)
    by (intros E; rewrite E in L; simpl in L; lia).
  split; [exact L|]. split; [exact N|].
  unfold orElse. destruct (String.eqb_spec (ensureCompleteWord word) EmptyString);
    [contradiction | reflexivity].
Qed.

Lemma ensureCompleteWord_no_for (word : option string) :
  endsWith (ensureCompleteWord word) "for" = false.
Proof.
  unfold ensureCompleteWord. destruct (fallbackGuard word) eqn:G; [reflexivity|].
  destruct word as [w|]; [|reflexivity].
  destruct (endsWith w "for") eqn:E.
  - unfold endsWith. rewrite length_append.
    change (String.length "marketing") with 9. change (String.length "for") with 3.
    replace (String.length (takeChars (String.length w - 3) w) + 9 - 3)
      with (String.length (takeChars (String.length w - 3) w) + 6) by lia.
    rewrite dropChars_append. simpl. apply andb_false_r.
  - destruct (endsWith w "ing"), (endsWith w "ed"), (endsWith w "er"); exact E.
Qed.

(** X4.  [ensureCompleteWord] leaves a word of three or more characters that
    does not end with ["for"] as it is; its result never ends with ["for"];
    and applying it twice is applying it once. *)
Theorem ensureCompleteWord_idempotent (word : option string) :
  (forall w, word = Some w -> 3 <= String.length w -> endsWith w "for" = false ->
             ensureCompleteWord word = w)
  /\ endsWith (ensureCompleteWord word) "for" = false
  /\ ensureCompleteWord (Some (ensureCompleteWord word)) = ensureCompleteWord word.
Proof.
  assert (Keep : forall w, 3 <= String.length w -> endsWith w "for" = false ->
                           ensureCompleteWord (Some w) = w).
  { intros w L E. unfold ensureCompleteWord.
    assert (G : fallbackGuard (Some w) = false).
    { unfold fallbackGuard. apply orb_false_iff. split.
      - destruct w; [simpl in L; lia | reflexivity].
      - apply Nat.ltb_ge. exact L. }
    rewrite G, E.
    destruct (endsWith w "ing"), (endsWith w "ed"), (endsWith w "er"); reflexivity. }
  split; [intros w -> L E; now apply Keep|].
  split; [apply ensureCompleteWord_no_for|].
  apply Keep; [apply ensureCompleteWord_length | apply ensureCompleteWord_no_for].
Qed.

(** ** [extractKeyTopics]: ranking *)

























(** ** [extractKeyTopics]: the characters of a topic *)

Ltac each_char c :=
  destruct c as [[] [] [] [] [] [] [] []]; try reflexivity; try discriminate.

Lemma cleaned_char (c : ascii) :
  let c' := lowerChar c in
  let d := if isWordChar c' || isSpace c' then c' else " "%char in
  isSpace d || isTopicChar d = true.
Proof. each_char c. Qed.

Lemma allChars_impl (p q : ascii -> bool) (s : string) :
  (forall c, p c = true -> q c = true) -> allChars p s = true -> allChars q s = true.
Proof.
  intros Hpq. induction s as [|c s IH]; simpl; [reflexivity|].
  intros H. apply andb_true_iff in H as [Hc Hs]. now rewrite (Hpq c Hc), IH.
Qed.

Lemma cleanContent_chars (content : string) :
  allChars (fun c => isSpace c || isTopicChar c) (cleanContent content) = true.
Proof.
  unfold cleanContent, trim, collapseSpaces, blankPunctuation, toLowerCase.
  apply allChars_trimEnd, allChars_trimStart, allChars_collapseSpaces; [reflexivity|].
  induction content as [|c s IH]; simpl; [reflexivity|].
  rewrite IH, andb_true_r. apply cleaned_char.
Qed.

Lemma splitSpaces_go_chars (p : ascii -> bool) (cur : string) (b : bool) (s : string) :
  allChars p cur = true ->
  allChars (fun c => isSpace c || p c) s = true ->
  Forall (fun w => allChars p w = true) (splitSpaces_go cur b s).
Proof.
  revert cur b. induction s as [|c s IH]; intros cur b Hcur Hs; simpl.
  - constructor; [exact Hcur | constructor].
  - simpl in Hs. apply andb_true_iff in Hs as [Hc Hs].
    destruct (isSpace c) eqn:E.
    + destruct b; [now apply IH|]. constructor; [exact Hcur | now apply IH].
    + apply IH; [|exact Hs]. rewrite allChars_append, Hcur. simpl in *. now rewrite Hc.
Qed.

(** X7.  A topic is made of lower-case ASCII letters, digits and underscores
    only, whatever the text and the stop words: no upper-case letter, no
    white space, no punctuation and no character outside ASCII reaches the
    templates through a topic. *)
Theorem topics_are_lower_case_words (stop : list string) (content : string) (maxTopics : Z) :
  Forall (fun t => allChars isTopicChar t = true)
         (extractKeyTopicsWith stop content maxTopics).
Proof.
  apply Forall_forall. intros t Ht.
  destruct (extractKeyTopics_origin _ _ _ _ Ht) as [H | H].
  - unfold contentWords in H. apply filter_In in H as [H _].
    pose proof (splitSpaces_go_chars isTopicChar EmptyString false (cleanContent content)
                  eq_refl (cleanContent_chars content)) as F.
    rewrite Forall_forall in F. now apply F.
  - unfold fillers in H. simpl in H.
    destruct H as [<- | [<- | [<- | [<- | []]]]]; reflexivity.
Qed.

(** ** [extractKeyTopics]: the case of the text *)

Lemma lowerChar_upperChar (c : ascii) : lowerChar (upperChar c) = lowerChar c.
Proof. each_char c. Qed.

Lemma lowerChar_lowerChar (c : ascii) : lowerChar (lowerChar c) = lowerChar c.
Proof. each_char c. Qed.

Lemma mapChars_mapChars (f g : ascii -> ascii) (s : string) :
  mapChars f (mapChars g s) = mapChars (fun c => f (g c)) s.
Proof. induction s as [|c s IH]; simpl; [reflexivity | now rewrite IH]. Qed.

Lemma mapChars_ext (f g : ascii -> ascii) (s : string) :
  (forall c, f c = g c) -> mapChars f s = mapChars g s.
Proof. intros H. induction s as [|c s IH]; simpl; [reflexivity | now rewrite H, IH]. Qed.

Lemma toLowerCase_toUpperCase (s : string) : toLowerCase (toUpperCase s) = toLowerCase s.
Proof.
  unfold toLowerCase, toUpperCase. rewrite mapChars_mapChars.
  apply mapChars_ext, lowerChar_upperChar.
Qed.

Lemma toLowerCase_toLowerCase (s : string) : toLowerCase (toLowerCase s) = toLowerCase s.
Proof.
  unfold toLowerCase. rewrite mapChars_mapChars.
  apply mapChars_ext, lowerChar_lowerChar.
Qed.

(** X8.  The topics do not depend on the case of the ASCII letters of the
    text: the text with these letters in upper case, and the text with them
    in lower case, give the topics of the text itself. *)
Theorem extractKeyTopics_ignores_case (stop : list string) (content : string) (maxTopics : Z) :
  extractKeyTopicsWith stop (toUpperCase content) maxTopics
  = extractKeyTopicsWith stop content maxTopics
  /\ extractKeyTopicsWith stop (toLowerCase content) maxTopics
     = extractKeyTopicsWith stop content maxTopics.
Proof.
  unfold extractKeyTopicsWith, contentWords, cleanContent.
  now rewrite toLowerCase_toUpperCase, toLowerCase_toLowerCase.
Qed.

(** ** [formatHashtags] *)

Lemma append_empty_r (s : string) : s ++ EmptyString = s.
Proof. induction s as [|c s IH]; simpl; [reflexivity | now rewrite IH]. Qed.

Lemma append_assoc (a b c : string) : (a ++ b) ++ c = a ++ (b ++ c).
Proof. induction a as [|x a IH]; simpl; [reflexivity | now rewrite IH]. Qed.

Lemma word_char_facts (c : ascii) :
  isWordChar c = true ->
  Ascii.eqb c "#" = false /\ Ascii.eqb c " " = false /\ isSpace c = false.
Proof. each_char c; intros _; repeat split. Qed.

Lemma upperChar_fixed (c : ascii) : isLower c = false -> upperChar c = c.
Proof. unfold upperChar. now intros ->. Qed.

Lemma lowerChar_fixed (c : ascii) : isUpper c = false -> lowerChar c = c.
Proof. unfold lowerChar. now intros ->. Qed.

Lemma upper_not_lower (c : ascii) : isUpper c = true -> isLower c = false.
Proof. each_char c. Qed.

Lemma lower_is_word (c : ascii) : isLower c = true -> isWordChar c = true.
Proof. unfold isWordChar. intros ->. now rewrite orb_true_r. Qed.

Lemma join_empty_cons (p : string) (rest : list string) :
  join EmptyString (p :: rest) = p ++ join EmptyString rest.
Proof. destruct rest; simpl; [now rewrite append_empty_r | reflexivity]. Qed.

Lemma trimEnd_spaceCapitals (h : string) :
  allChars isWordChar h = true -> trimEnd (spaceCapitals h) = spaceCapitals h.
Proof.
  induction h as [|c h IH]; simpl; [reflexivity|].
  intros H. apply andb_true_iff in H as [Hc Hh].
  destruct (word_char_facts c Hc) as (_ & _ & Hs).
  destruct (isUpper c); cbn [trimEnd]; rewrite (IH Hh), Hs; reflexivity.
Qed.

Lemma trim_spaceCapitals (c : ascii) (h : string) :
  allChars isWordChar (String c h) = true ->
  trim (spaceCapitals (String c h)) = String c (spaceCapitals h).
Proof.
  intros H. pose proof (trimEnd_spaceCapitals _ H) as E.
  simpl in H. apply andb_true_iff in H as [Hc Hh].
  destruct (word_char_facts c Hc) as (_ & _ & Hs).
  unfold trim. cbn [spaceCapitals] in *. destruct (isUpper c).
  - cbn [trimStart]. change (isSpace " ") with true. cbv iota. rewrite Hs.
    cbn [trimEnd] in *. rewrite Hs in *. rewrite (trimEnd_spaceCapitals _ Hh). reflexivity.
  - cbn [trimStart]. rewrite Hs. exact E.
Qed.

Lemma titleWord_snoc (cur : string) (c : ascii) :
  cur <> EmptyString -> isUpper c = false ->
  titleWord (cur ++ String c EmptyString) = titleWord cur ++ String c EmptyString.
Proof.
  intros Hcur Hc. destruct cur as [|a cur]; [contradiction|].
  unfold titleWord. simpl. f_equal. unfold toLowerCase.
  clear Hcur. induction cur as [|b cur IH]; simpl.
  - now rewrite (lowerChar_fixed c Hc).
  - now rewrite IH.
Qed.

(** The words between the capitals, put back together. *)
Lemma join_titleWords (h cur : string) :
  allChars isWordChar h = true -> cur <> EmptyString ->
  join EmptyString (map titleWord (splitBlank_go cur (spaceCapitals h)))
  = titleWord cur ++ h.
Proof.
  revert cur. induction h as [|c h IH]; intros cur H Hcur.
  - simpl. now rewrite append_empty_r.
  - simpl in H. apply andb_true_iff in H as [Hc Hh].
    destruct (word_char_facts c Hc) as (_ & Hb & _).
    cbn [spaceCapitals]. destruct (isUpper c) eqn:U.
    + cbn [splitBlank_go]. change (Ascii.eqb " " " ") with true. cbv iota.
      rewrite Hb. cbn [map]. rewrite join_empty_cons. cbn [append].
      rewrite (IH _ Hh) by discriminate.
      unfold titleWord at 2. simpl.
      now rewrite (upperChar_fixed c (upper_not_lower c U)).
    + cbn [splitBlank_go]. rewrite Hb.
      rewrite (IH _ Hh) by (destruct cur; discriminate).
      rewrite (titleWord_snoc cur c Hcur U), append_assoc. reflexivity.
Qed.

(** Both branches of the callback give the same result: the hash tag with its
    first character in upper case. *)
Lemma formatTag_capitalize (hashtag : string) :
  allChars isWordChar hashtag = true -> hashtag <> EmptyString ->
  formatTag hashtag = "#" ++ capitalize hashtag.
Proof.
  intros H Hne. unfold formatTag. destruct (_ && _); [reflexivity|].
  destruct hashtag as [|c h]; [contradiction|].
  rewrite (trim_spaceCapitals c h H).
  simpl in H. apply andb_true_iff in H as [Hc Hh].
  destruct (word_char_facts c Hc) as (_ & Hb & _).
  unfold splitBlank. cbn [splitBlank_go]. rewrite Hb. cbn [append].
  rewrite (join_titleWords h _ Hh) by discriminate. reflexivity.
Qed.

Lemma takeWord_word (s : string) : allChars isWordChar (takeWord s) = true.
Proof.
  induction s as [|c s IH]; simpl; [reflexivity|].
  destruct (isWordChar c) eqn:E; simpl; [now rewrite E, IH | reflexivity].
Qed.

Lemma takeWord_split (s : string) :
  s = takeWord s ++ dropChars (String.length (takeWord s)) s.
Proof.
  induction s as [|c s IH]; simpl; [reflexivity|].
  destruct (isWordChar c); simpl; [now rewrite <- IH | reflexivity].
Qed.

Lemma capitalizeTags_word (w rest : string) :
  allChars isWordChar w = true ->
  capitalizeTags false (w ++ rest) = w ++ capitalizeTags false rest.
Proof.
  induction w as [|c w IH]; simpl; [reflexivity|].
  intros H. apply andb_true_iff in H as [Hc Hw].
  destruct (word_char_facts c Hc) as (Hh & _ & _). now rewrite Hh, IH.
Qed.

Lemma capitalizeTags_no_word (s : string) :
  takeWord s = EmptyString -> capitalizeTags true s = capitalizeTags false s.
Proof.
  destruct s as [|c s]; simpl; [reflexivity|].
  destruct (isWordChar c) eqn:E; [discriminate|]. intros _.
  rewrite upperChar_fixed; [reflexivity|].
  destruct (isLower c) eqn:L; [|reflexivity]. now rewrite (lower_is_word c L) in E.
Qed.

Lemma formatHashtags_go_spec (text : string) (skip : nat) :
  formatHashtags_go skip text = capitalizeTags false (dropChars skip text).
Proof.
  revert skip. induction text as [|c text IH]; intros skip.
  - now rewrite dropChars_empty.
  - destruct skip as [|k]; [|simpl; apply IH].
    cbn [formatHashtags_go dropChars capitalizeTags].
    destruct (Ascii.eqb_spec c "#") as [-> | Hc]; cbn [andb].
    + destruct (String.eqb_spec (takeWord text) EmptyString) as [E | Hne]; cbn [negb].
      * rewrite (IH 0). cbn [dropChars]. now rewrite (capitalizeTags_no_word _ E).
      * rewrite (IH _), (formatTag_capitalize _ (takeWord_word text) Hne).
        rewrite (takeWord_split text) at 4.
        pose proof (takeWord_word text) as W.
        destruct (takeWord text) as [|a w]; [contradiction|].
        simpl in W. apply andb_true_iff in W as [Ha Hw].
        destruct (word_char_facts a Ha) as (Hh & _ & _).
        unfold capitalize. cbn [charAt0 slice1 toUpperCase mapChars append capitalizeTags].
        rewrite Hh, (capitalizeTags_word _ _ Hw). reflexivity.
    + now rewrite (IH 0).
Qed.

(** X9.  [formatHashtags] comes to this: every character that follows a [#]
    is put in upper case and nothing else changes.  The two branches of the
    callback (one word, or several words and capitals) give the same string,
    the hash tag with its first character in upper case. *)
Theorem formatHashtags_capitalizes_tags (text : string) :
  formatHashtags text = capitalizeTags false text
  /\ forall hashtag, allChars isWordChar hashtag = true -> hashtag <> EmptyString ->
                     formatTag hashtag = "#" ++ capitalize hashtag.
Proof.
  split; [apply (formatHashtags_go_spec text 0) | apply formatTag_capitalize].
Qed.

Lemma upperChar_facts (c : ascii) :
  upperChar (upperChar c) = upperChar c
  /\ Ascii.eqb (upperChar c) "#" = Ascii.eqb c "#"
  /\ lowerChar (upperChar c) = lowerChar c.
Proof. each_char c; repeat split. Qed.

Lemma capitalizeTags_idempotent (b : bool) (text : string) :
  capitalizeTags b (capitalizeTags b text) = capitalizeTags b text.
Proof.
  revert b. induction text as [|c text IH]; intros b; simpl; [reflexivity|].
  destruct (upperChar_facts c) as (U & H & _).
  destruct b; rewrite ?U, ?H, IH; reflexivity.
Qed.

Lemma capitalizeTags_length (b : bool) (text : string) :
  String.length (capitalizeTags b text) = String.length text.
Proof. revert b. induction text as [|c text IH]; intros b; simpl; [reflexivity | now rewrite IH]. Qed.

Lemma capitalizeTags_lower (b : bool) (text : string) :
  toLowerCase (capitalizeTags b text) = toLowerCase text.
Proof.
  unfold toLowerCase. revert b. induction text as [|c text IH]; intros b; simpl; [reflexivity|].
  destruct (upperChar_facts c) as (_ & _ & L).
  destruct b; rewrite ?L, IH; reflexivity.
Qed.

Lemma capitalizeTags_no_hash (text : string) :
  anyChar (Ascii.eqb "#") text = false -> capitalizeTags false text = text.
Proof.
  induction text as [|c text IH]; cbn [capitalizeTags anyChar]; [reflexivity|].
  intros H. apply orb_false_iff in H as [Hc Ht].
  rewrite Ascii.eqb_sym, Hc, (IH Ht). reflexivity.
Qed.

(** X10.  [formatHashtags] changes the case of ASCII letters only: the
    result has the length of the text and is the text once the ASCII letters
    of both are put in lower case; a text without [#] comes back unchanged;
    and formatting twice is formatting once. *)
Theorem formatHashtags_changes_case_only (text : string) :
  String.length (formatHashtags text) = String.length text
  /\ toLowerCase (formatHashtags text) = toLowerCase text
  /\ (includes text "#" = false -> formatHashtags text = text)
  /\ formatHashtags (formatHashtags text) = formatHashtags text.
Proof.
  unfold formatHashtags. rewrite !formatHashtags_go_spec. cbn [dropChars].
  repeat split.
  - apply capitalizeTags_length.
  - apply capitalizeTags_lower.
  - rewrite includes_char. apply capitalizeTags_no_hash.
  - apply capitalizeTags_idempotent.
Qed.

(** ** Compliance check: what a match is *)

Lemma startsWith_iff (s p : string) :
  startsWith s p = true <-> exists b, s = p ++ b.
Proof.
  unfold startsWith. revert s. induction p as [|a p IH]; intros s; simpl.
  - split; [intros _; now exists s | reflexivity].
  - destruct s as [|c s].
    + split; [discriminate | intros [b Hb]; discriminate].
    + rewrite andb_true_iff, IH. split.
      * intros [Hc [b ->]]. apply Ascii.eqb_eq in Hc. subst c. now exists b.
      * intros [b [= -> ->]]. split; [apply Ascii.eqb_refl | now exists b].
Qed.

(** [includes] is the substring test. *)
Lemma includes_iff (s sub : string) :
  includes s sub = true <-> exists a b, s = a ++ sub ++ b.
Proof.
  induction s as [|c s IH]; cbn [includes]; rewrite orb_true_iff, startsWith_iff.
  - split.
    + intros [[b Hb] | H]; [now exists EmptyString, b | discriminate].
    + intros (a & b & H). left. destruct a; [now exists b | discriminate].
  - rewrite IH. split.
    + intros [[b Hb] | (a & b & ->)]; [now exists EmptyString, b|].
      now exists (String c a), b.
    + intros (a & b & H). destruct a as [|x a]; [left; now exists b|].
      right. injection H as _ ->. now exists a, b.
Qed.

Lemma mapChars_append (f : ascii -> ascii) (a b : string) :
  mapChars f (a ++ b) = mapChars f a ++ mapChars f b.
Proof. induction a as [|c a IH]; simpl; [reflexivity | now rewrite IH]. Qed.

Lemma wordsFound_iff (content : string) (phrases : list string) (p : string) :
  In p (wordsFound content phrases)
  <-> In p phrases /\ exists a b, toLowerCase content = a ++ toLowerCase p ++ b.
Proof. unfold wordsFound. now rewrite filter_In, includes_iff. Qed.

(** X11.  A phrase of a list is reported when, and only when, the text in
    lower case has the phrase in lower case as a substring: no word boundary
    is looked at.  The case of the ASCII letters of the text plays no part:
    the text with these letters in upper case gets the same warnings. *)
Theorem compliance_matches_substrings (words : prohibitedWords) (content : string)
    (phrases : list string) :
  (forall p, In p (wordsFound content phrases)
             <-> In p phrases
                 /\ exists a b, toLowerCase content = a ++ toLowerCase p ++ b)
  /\ apiComplianceCheck words (toUpperCase content) = apiComplianceCheck words content.
Proof.
  split; [intros p; apply wordsFound_iff|].
  unfold apiComplianceCheck, wordsFound. now rewrite toLowerCase_toUpperCase.
Qed.

Lemma wordsFound_grows (before content after : string) (phrases : list string) (p : string) :
  In p (wordsFound content phrases) ->
  In p (wordsFound (before ++ content ++ after) phrases).
Proof.
  rewrite !wordsFound_iff. intros [Hin (a & b & E)]. split; [exact Hin|].
  unfold toLowerCase in *. rewrite !mapChars_append, E.
  exists (mapChars lowerChar before ++ a), (b ++ mapChars lowerChar after).
  now rewrite !append_assoc.
Qed.

Lemma warningFor_grows (label : string) (found found' : list string) :
  (forall p, In p found -> In p found') ->
  List.length (warningFor label found) <= List.length (warningFor label found').
Proof.
  intros H. destruct found as [|x found]; simpl; [lia|].
  destruct found' as [|y found']; simpl; [|lia].
  destruct (H x (or_introl eq_refl)).
Qed.

(** X12.  Text added in front of an ASCII content or behind it never removes
    a finding: every phrase found in the content is found in the longer text,
    and the longer text gets at least as many warnings.  (The content is
    taken to be ASCII because the lower case of other letters, which the
    model leaves as they are, can depend on their neighbours.) *)
Theorem compliance_is_monotone (words : prohibitedWords) (before content after : string) :
  allChars isAscii content = true ->
  (forall phrases p, In p (wordsFound content phrases) ->
                     In p (wordsFound (before ++ content ++ after) phrases))
  /\ List.length (apiComplianceCheck words content)
     <= List.length (apiComplianceCheck words (before ++ content ++ after)).
Proof.
  intros _. split; [intros phrases p; apply wordsFound_grows|].
  rewrite !apiComplianceCheck_layout, !length_app.
  pose proof (fun l ps => warningFor_grows l _ _ (wordsFound_grows before content after ps)) as G.
  pose proof (G "Red words found" (red_words words)).
  pose proof (G "Yellow words found" (yellow_words words)).
  pose proof (G "US-specific terms found" (us_specific_terms words)).
  lia.
Qed.

Lemma compliance_is_monotone_witness :
  List.length (apiComplianceCheck (mkWords ["guarantee"] ["best"] ["401k"]) "A guaranteed return")
  <= List.length (apiComplianceCheck (mkWords ["guarantee"] ["best"] ["401k"])
                    ("The best: " ++ "A guaranteed return" ++ " on your 401K")).
Proof.
  apply (compliance_is_monotone (mkWords ["guarantee"] ["best"] ["401k"])
           "The best: " "A guaranteed return" " on your 401K").
  reflexivity.
Defined.

(** ** The bucket of a request *)

Lemma fold_left_choice {A : Type} (keep : A -> A -> bool) (l : list A) (a : A) :
  In (fold_left (fun a b => if keep a b then a else b) l a) (a :: l).
Proof.
  revert a. induction l as [|b l IH]; intros a; simpl; [now left|].
  destruct (keep a b).
  - destruct (IH a) as [H | H]; [now left | right; now right].
  - right. apply IH.
Qed.

(** The detector answers with the user's selection or with a category. *)
Lemma detectContentType_cases (content userSelectedType : string) :
  detectContentType content userSelectedType = userSelectedType
  \/ In (detectContentType content userSelectedType) (map fst keywords).
Proof.
  unfold detectContentType, highestScore, reduce. rewrite scoresOf_keys.
  destruct (map fst keywords) as [|a l] eqn:E; [now left|].
  destruct (Nat.leb 2 _); [right | now left].
  apply (fold_left_choice
           (fun a b => Nat.ltb (scoreIn (scoresOf content) b) (scoreIn (scoresOf content) a))).
Qed.

(** A detection that differs from the user's selection does not depend on
    that selection. *)
Lemma detectContentType_strong (content userSelectedType other : string) :
  detectContentType content userSelectedType <> userSelectedType ->
  detectContentType content other = detectContentType content userSelectedType.
Proof.
  unfold detectContentType.
  destruct (highestScore (scoresOf content)) as [d|]; [|contradiction].
  destruct (Nat.leb 2 _); [reflexivity | contradiction].
Qed.

Lemma bucketOf_detected (allTemplates : list (string * list string))
    (content contentType other : string) :
  detectContentType content contentType <> contentType ->
  lookup (detectContentType content contentType) allTemplates <> None ->
  bucketOf server allTemplates content other
  = bucketOf server allTemplates content (detectContentType content contentType).
Proof.
  intros Hd Hl. unfold bucketOf. cbn [detector server].
  rewrite (detectContentType_strong content contentType other Hd).
  rewrite (detectContentType_strong content contentType
             (detectContentType content contentType) Hd).
  cbn [firstDefined].
  destruct (lookup (detectContentType content contentType) allTemplates);
    [reflexivity | contradiction].
Qed.

Lemma detected_bucket_exists (value : slot -> string) (d : string) :
  In d ["charitable"; "financial"] ->
  lookup d (evaluate value titleTemplates) <> None
  /\ lookup d (evaluate value descriptionTemplates) <> None
  /\ lookup d (evaluate value socialTemplates) <> None.
Proof.
  intros [<- | [<- | []]]; rewrite !lookup_evaluate; repeat split;
    match goal with
    | |- option_map _ (lookup ?k ?t) <> None =>
        let E := fresh "E" in
        destruct (lookup k t) eqn:E; [discriminate | vm_compute in E; discriminate E]
    end.
Qed.

(** X13.  When the detector settles on [charitable] or [financial] against
    the user's selection, the content type of the request plays no part: the
    titles, descriptions and social posts are those of a request for the
    detected type, whatever type the request names. *)
Theorem detection_overrides_content_type (content contentType other : string)
    (targetAudience : option string) (tone : string) (picks : list nat) :
  let detected := detectContentType content contentType in
  detected <> contentType ->
  In detected ["charitable"; "financial"] ->
  generateTitles content other targetAudience tone picks
  = generateTitles content detected targetAudience tone picks
  /\ generateDescriptions content other targetAudience tone picks
     = generateDescriptions content detected targetAudience tone picks
  /\ generateSocialCopy content other targetAudience tone picks
     = generateSocialCopy content detected targetAudience tone picks.
Proof.
  intros detected Hd Hin. subst detected.
  unfold generateTitles, generateDescriptions, generateSocialCopy,
    generateTitlesIn, generateDescriptionsIn, generateSocialCopyIn,
    selectedTitles, selectedDescriptions, selectedSocialCopy.
  cbn [titleTable descriptionTable socialTable server].
  repeat split.
  - rewrite (bucketOf_detected _ content contentType other Hd); [reflexivity|].
    apply (detected_bucket_exists _ _ Hin).
  - rewrite (bucketOf_detected _ content contentType other Hd); [reflexivity|].
    apply (detected_bucket_exists _ _ Hin).
  - rewrite (bucketOf_detected _ content contentType other Hd); [reflexivity|].
    apply (detected_bucket_exists _ _ Hin).
Qed.

Lemma detection_overrides_content_type_witness :
  generateTitles "Giving to a charity: plan your donation." "video" None "casual" [3; 1]
  = generateTitles "Giving to a charity: plan your donation."
      (detectContentType "Giving to a charity: plan your donation." "blog")
      None "casual" [3; 1].
Proof.
  apply (detection_overrides_content_type
           "Giving to a charity: plan your donation." "blog" "video" None "casual" [3; 1]).
  - vm_compute. discriminate.
  - vm_compute. auto.
Defined.

Lemma undetected_bucket_missing (value : slot -> string) (d : string) :
  In d (map fst keywords) -> ~ In d ["charitable"; "financial"] ->
  lookup d (evaluate value titleTemplates) = None
  /\ lookup d (evaluate value descriptionTemplates) = None
  /\ lookup d (evaluate value socialTemplates) = None.
Proof.
  intros Hk Hn. rewrite !lookup_evaluate.
  change (map fst keywords)
    with ["charitable"; "financial"; "business"; "technology"; "health"; "education"] in Hk.
  simpl in Hk, Hn.
  destruct Hk as [<- | [<- | [<- | [<- | [<- | [<- | []]]]]]];
    try (exfalso; apply Hn; auto; fail);
    repeat split;
    match goal with
    | |- option_map _ (lookup ?k ?t) = None =>
        let E := fresh "E" in
        destruct (lookup k t) eqn:E; [vm_compute in E; discriminate E | reflexivity]
    end.
Qed.

Lemma bucketOf_undetected (allTemplates : list (string * list string))
    (content contentType : string) :
  detectContentType content contentType = contentType
  \/ lookup (detectContentType content contentType) allTemplates = None ->
  bucketOf server allTemplates content contentType
  = bucketOf (withoutDetection server) allTemplates content contentType.
Proof.
  unfold bucketOf. cbn [detector server withoutDetection firstDefined].
  intros [-> | ->]; [|reflexivity].
  destruct (lookup contentType allTemplates); reflexivity.
Qed.

(** X14.  Detection changes the bucket for [charitable] and [financial] only.
    A detected category without a bucket ([business], [technology], [health],
    [education]) is dropped, and so is a detection that agrees with the
    request: the answers are those of the server without detection, the
    bucket of the requested type or else [article]. *)
Theorem detection_without_bucket_is_ignored (content contentType : string)
    (targetAudience : option string) (tone : string) (picks : list nat) :
  let detected := detectContentType content contentType in
  detected = contentType \/ ~ In detected ["charitable"; "financial"] ->
  generateTitles content contentType targetAudience tone picks
  = generateTitlesIn (withoutDetection server) content contentType targetAudience tone picks
  /\ generateDescriptions content contentType targetAudience tone picks
     = generateDescriptionsIn (withoutDetection server) content contentType
         targetAudience tone picks
  /\ generateSocialCopy content contentType targetAudience tone picks
     = generateSocialCopyIn (withoutDetection server) content contentType
         targetAudience tone picks.
Proof.
  intros detected H. subst detected.
  assert (G : forall value,
             (detectContentType content contentType = contentType
              \/ lookup (detectContentType content contentType)
                        (evaluate value titleTemplates) = None)
             /\ (detectContentType content contentType = contentType
                 \/ lookup (detectContentType content contentType)
                           (evaluate value descriptionTemplates) = None)
             /\ (detectContentType content contentType = contentType
                 \/ lookup (detectContentType content contentType)
                           (evaluate value socialTemplates) = None)).
  { intros value.
    destruct (detectContentType_cases content contentType) as [E | Hk]; [auto|].
    destruct H as [E | Hn]; [auto|].
    destruct (undetected_bucket_missing value _ Hk Hn) as (A & B & C). auto. }
  unfold generateTitles, generateDescriptions, generateSocialCopy,
    generateTitlesIn, generateDescriptionsIn, generateSocialCopyIn,
    selectedTitles, selectedDescriptions, selectedSocialCopy.
  cbn [titleTable descriptionTable socialTable stopWords server withoutDetection].
  repeat split.
  - rewrite bucketOf_undetected; [reflexivity | apply G].
  - rewrite bucketOf_undetected; [reflexivity | apply G].
  - rewrite bucketOf_undetected; [reflexivity | apply G].
Qed.

Lemma detection_without_bucket_is_ignored_witness :
  generateTitles "Our business and company news for every corporate team." "blog"
    None "friendly" [2]
  = generateTitlesIn (withoutDetection server)
      "Our business and company news for every corporate team." "blog" None "friendly" [2].
Proof.
  apply (detection_without_bucket_is_ignored
           "Our business and company news for every corporate team." "blog"
           None "friendly" [2]).
  right. vm_compute. intros [H | [H | []]]; discriminate H.
Defined.

(** ** The draw of the templates *)







(** ** Rules that replace a word by itself *)

Lemma replace_go_self (p : string) (s : string) (k : nat) :
  p <> EmptyString -> replace_go (g [p] p) k s = dropChars k s.
Proof.
  intros Hp. revert k. induction s as [|c s IH]; intros k.
  - rewrite dropChars_empty. destruct k; [|reflexivity].
    destruct p as [|a p]; [contradiction | reflexivity].
  - destruct k as [|k]; [|simpl; apply IH].
    cbn [replace_go g ignoreCase alts repl matchAlts dropChars].
    destruct (startsWithCase false (String c s) p) eqn:E.
    + apply startsWith_iff in E as [b E].
      destruct p as [|a p]; [contradiction|].
      cbn [String.length]. rewrite IH.
      injection E as -> ->.
      rewrite <- (Nat.add_0_r (String.length p)), dropChars_append. reflexivity.
    + now rewrite IH.
Qed.

Lemma replace_selfReplacing (r : rule) (s : string) :
  selfReplacing r = true -> replace r s = s.
Proof.
  unfold selfReplacing. destruct r as [[|p [|q ps]] ci rp]; simpl; try discriminate.
  intros H. apply andb_true_iff in H as [H Hne]. apply andb_true_iff in H as [Hci Hp].
  apply negb_true_iff in Hci, Hne. apply String.eqb_eq in Hp. apply String.eqb_neq in Hne.
  subst ci rp. apply (replace_go_self p s 0 Hne).
Qed.

(** X16.  A rule that replaces a literal by itself changes no string, so a
    chain of rules gives the same result without such rules.  The title rules
    have four of them: [Master], [Comprehensive] and [Essential] for the
    authoritative tone, [Complete Guide] for the casual one. *)
Theorem self_replacing_rules_change_nothing (rules : list rule) (s : string) :
  applyRules (filter (fun r => negb (selfReplacing r)) rules) s = applyRules rules s
  /\ map alts (filter selfReplacing (titleToneRules "authoritative"))
     = [["Master"]; ["Comprehensive"]; ["Essential"]]
  /\ map alts (filter selfReplacing (titleToneRules "casual")) = [["Complete Guide"]].
Proof.
  split; [|split; reflexivity].
  unfold applyRules. revert s. induction rules as [|r rules IH]; intros s; [reflexivity|].
  cbn [filter fold_left]. destruct (selfReplacing r) eqn:E; cbn [negb].
  - rewrite (replace_selfReplacing r s E). apply IH.
  - cbn [fold_left]. apply IH.
Qed.

(** ** Values the templates do not use *)

Lemma interpolate_unused (x : slot) (v v' : slot -> string) (t : template) :
  hasSlot x t = false -> (forall y, y <> x -> v y = v' y) ->
  interpolate v t = interpolate v' t.
Proof.
  unfold hasSlot. intros H Hv. induction t as [|p t IH]; simpl; [reflexivity|].
  simpl in H. apply orb_false_iff in H as [Hp Ht]. rewrite (IH Ht). f_equal.
  destruct p as [text | y]; simpl; [reflexivity|].
  apply Hv. intros ->. destruct x; discriminate Hp.
Qed.

Lemma evaluate_unused (x : slot) (v v' : slot -> string)
    (table : list (string * list template)) :
  unusedIn x table = true -> (forall y, y <> x -> v y = v' y) ->
  evaluate v table = evaluate v' table.
Proof.
  unfold unusedIn, evaluate. intros H Hv. rewrite forallb_forall in H.
  apply map_ext_in. intros b Hb. f_equal.
  apply map_ext_in. intros t Ht.
  specialize (H b Hb). rewrite forallb_forall in H. specialize (H t Ht).
  apply negb_true_iff in H. now apply (interpolate_unused x).
Qed.

Lemma unusedIn_firstn (x : slot) (n : nat) (table : list (string * list template)) :
  unusedIn x table = true -> unusedIn x (firstn n table) = true.
Proof.
  unfold unusedIn. rewrite !forallb_forall. intros H b Hb. apply H.
  now apply In_firstn in Hb.
Qed.

Lemma titles_without_default (copy : serverCopy) (content contentType tone : string)
    (picks : list nat) :
  unusedIn ValidAudience (titleTable copy) = true ->
  generateTitlesIn copy content contentType None tone picks
  = generateTitlesIn copy content contentType (Some "undefined") tone picks.
Proof.
  intros H. unfold generateTitlesIn, selectedTitles.
  match goal with
  | |- context [evaluate (valuesOf ?m ?s None) _] =>
      rewrite (evaluate_unused ValidAudience (valuesOf m s None)
                 (valuesOf m s (Some "undefined")) _ H)
  end; [reflexivity|].
  intros [] Hy; try reflexivity. contradiction.
Qed.

(** X17.  The title templates write the audience of the request as it is and
    never the default [professionals]: a request without a target audience
    gets the titles of a request whose audience is the word [undefined].
    This holds for both copies of the server. *)
Theorem missing_audience_reads_undefined (content contentType tone : string)
    (picks : list nat) :
  unusedIn ValidAudience titleTemplates = true
  /\ generateTitles content contentType None tone picks
     = generateTitles content contentType (Some "undefined") tone picks
  /\ generateTitlesIn earlierServer content contentType None tone picks
     = generateTitlesIn earlierServer content contentType (Some "undefined") tone picks.
Proof.
  assert (U : unusedIn ValidAudience titleTemplates = true) by (vm_compute; reflexivity).
  split; [exact U|]. split.
  - apply titles_without_default. exact U.
  - apply titles_without_default. apply unusedIn_firstn. exact U.
Qed.

(** X18.  No template of the social posts writes the second topic: the posts
    are the same whatever stands in its place. *)
Theorem social_posts_ignore_second_topic (content contentType : string)
    (targetAudience : option string) (tone : string) (picks : list nat) (second : string) :
  unusedIn SecondaryTopic socialTemplates = true
  /\ generateSocialCopy content contentType targetAudience tone picks
     = map formatHashtags
         (map (applyRules (socialToneRules tone))
            (slice0 3
               (shuffle picks
                  (bucketOf server
                     (evaluate
                        (valuesOf
                           (orElse (ensureCompleteWord
                                      (nth_error (extractKeyTopics content 2) 0)) "content")
                           second targetAudience)
                        socialTemplates)
                     content contentType)))).
Proof.
  assert (U : unusedIn SecondaryTopic socialTemplates = true) by (vm_compute; reflexivity).
  split; [exact U|].
  unfold generateSocialCopy, generateSocialCopyIn, selectedSocialCopy, extractKeyTopics.
  cbn [socialTable stopWords server].
  match goal with
  | |- context [evaluate (valuesOf ?m ?s ?a) socialTemplates] =>
      rewrite (evaluate_unused SecondaryTopic (valuesOf m s a) (valuesOf m second a) _ U)
  end; [reflexivity|].
  intros [] Hy; try reflexivity. contradiction.
Qed.

(** ** The Gemini service: reading an answer *)

Lemma trimEnd_idempotent (s : string) : trimEnd (trimEnd s) = trimEnd s.
Proof.
  induction s as [|c s IH]; [reflexivity|]. cbn [trimEnd].
  destruct (isSpace c && String.eqb (trimEnd s) EmptyString) eqn:E; [reflexivity|].
  cbn [trimEnd]. now rewrite IH, E.
Qed.

Lemma trimStart_head (s : string) :
  match trimStart s with
  | EmptyString => True
  | String c _ => isSpace c = false
  end.
Proof.
  induction s as [|c s IH]; simpl; [exact I|].
  destruct (isSpace c) eqn:E; [exact IH | exact E].
Qed.

Lemma trimStart_fixed (s : string) :
  match s with
  | EmptyString => True
  | String c _ => isSpace c = false
  end -> trimStart s = s.
Proof. destruct s as [|c s]; simpl; [reflexivity | now intros ->]. Qed.

Lemma trim_idempotent (s : string) : trim (trim s) = trim s.
Proof.
  unfold trim. pose proof (trimStart_head s) as H.
  destruct (trimStart s) as [|c t]; [reflexivity|].
  rewrite (trimStart_fixed (trimEnd (String c t))).
  - apply trimEnd_idempotent.
  - cbn [trimEnd]. rewrite H. exact H.
Qed.

Lemma splitChar_go_fields (sep : ascii) (cur s : string) :
  allChars (fun c => negb (Ascii.eqb c sep)) cur = true ->
  Forall (fun f => allChars (fun c => negb (Ascii.eqb c sep)) f = true)
         (GeminiService.splitChar_go sep cur s).
Proof.
  revert cur. induction s as [|c s IH]; intros cur Hcur; simpl.
  - constructor; [exact Hcur | constructor].
  - destruct (Ascii.eqb c sep) eqn:E.
    + constructor; [exact Hcur | now apply IH].
    + apply IH. rewrite allChars_append, Hcur. simpl. now rewrite E.
Qed.

Lemma answerLines_clean (text : string) (n : Z) :
  Forall (fun line => isCleanLine line = true)
         (map trim (slice0 n (GeminiService.answerLines text))).
Proof.
  apply Forall_forall. intros l Hl.
  apply in_map_iff in Hl as (line & <- & Hin).
  apply In_slice0 in Hin. unfold GeminiService.answerLines in Hin.
  apply filter_In in Hin as [Hin Hne].
  pose proof (splitChar_go_fields GeminiService.newline EmptyString (trim text) eq_refl) as F.
  rewrite Forall_forall in F. specialize (F _ Hin).
  unfold isCleanLine. rewrite Hne, trim_idempotent, String.eqb_refl. simpl.
  unfold trim. now apply allChars_trimEnd, allChars_trimStart.
Qed.

Lemma answerLines_blank (text : string) :
  trim text = EmptyString -> GeminiService.answerLines text = [].
Proof. unfold GeminiService.answerLines. now intros ->. Qed.

(** X19.  The three parsers never return [null] on a string.  They return
    at most 5, 3 and 3 lines; every line is non-empty, has no white space at
    its ends and no line feed inside; the descriptions and the social posts
    of one text are the same list, the first three of its titles; and a
    blank text gives the empty list. *)
Theorem gemini_parsers_return_clean_lines (text : string) :
  exists lines,
    GeminiService.parseTitles text = Some lines
    /\ GeminiService.parseDescriptions text = Some (firstn 3 lines)
    /\ GeminiService.parseSocialCopy text = Some (firstn 3 lines)
    /\ List.length lines <= 5
    /\ Forall (fun line => isCleanLine line = true) lines
    /\ (trim text = EmptyString -> lines = []).
Proof.
  unfold GeminiService.parseTitles, GeminiService.parseDescriptions,
    GeminiService.parseSocialCopy.
  eexists. split; [reflexivity|].
  assert (E : map trim (slice0 3 (GeminiService.answerLines text))
              = firstn 3 (map trim (slice0 5 (GeminiService.answerLines text)))).
  { rewrite firstn_map. f_equal. unfold slice0.
    change (5 <? 0)%Z with false. change (3 <? 0)%Z with false. cbv iota.
    rewrite firstn_firstn. f_equal. lia. }
  rewrite E. repeat split.
  - rewrite length_map, length_slice0_nonneg by lia. lia.
  - apply answerLines_clean.
  - intros H. now rewrite (answerLines_blank text H).
Qed.

(** ** The Gemini service: when the templates are used *)





(** X21.  [init] always ends with the service initialized, and the service
    is available exactly when the API key is set and not empty and the client
    answers the trial call; whether that answer can be read plays no part.
    Without a key, or with a client that fails the trial, every request gets
    the fallback. *)
Theorem gemini_available_with_key_and_answer (apiKey : option string)
    (model : GeminiService.client) (content contentType : string)
    (targetAudience tone : option string)
    (templateFallback : outcome GeminiService.metadata) :
  exists s,
    GeminiService.init apiKey model GeminiService.constructed = Returned s
    /\ GeminiService.initialized s = true
    /\ (GeminiService.isAvailable s = true
        <-> GeminiService.truthy apiKey = true
            /\ exists result, model "Hello" = Returned result)
    /\ (GeminiService.truthy apiKey = false \/ model "Hello" = Thrown ->
        GeminiService.generateMetadata s model content contentType targetAudience tone
          templateFallback
        = templateFallback).
Proof.
  unfold GeminiService.init, GeminiService.checkAvailability, GeminiService.generateMetadata.
  destruct (GeminiService.truthy apiKey); [destruct (model "Hello") as [result|] eqn:E|];
    cbn; eexists; (split; [reflexivity|]); cbn; (split; [reflexivity|]); split.
  - split; [intros _; split; [reflexivity | now exists result] | reflexivity].
  - intros [H | H]; discriminate H.
  - split; [discriminate | intros [_ [r Hr]]; discriminate Hr].
  - reflexivity.
  - split; [discriminate | intros [H _]; discriminate H].
  - reflexivity.
Qed.

(** ** The Gemini service: the prompts *)

Lemma orDefault_idempotent (x : option string) (d : string) :
  d <> EmptyString ->
  GeminiService.orDefault (Some (GeminiService.orDefault x d)) d
  = GeminiService.orDefault x d.
Proof.
  intros Hd. apply String.eqb_neq in Hd. unfold GeminiService.orDefault.
  destruct x as [s|]; [destruct (String.eqb s EmptyString) eqn:E|];
    rewrite ?Hd, ?E; reflexivity.
Qed.

Lemma prompt_quotes_content (first : string) (content : string) (rest : list string) :
  includes
    (join (String GeminiService.newline EmptyString)
       (first :: EmptyString
        :: ("Content: " ++ GeminiService.doubleQuote ++ content ++ GeminiService.doubleQuote)
        :: rest))
    (GeminiService.doubleQuote ++ content ++ GeminiService.doubleQuote)
  = true.
Proof.
  cbn [join]. do 4 apply includes_append_r.
  assert (H : forall tail,
             includes (("Content: " ++ GeminiService.doubleQuote ++ content
                        ++ GeminiService.doubleQuote) ++ tail)
                      (GeminiService.doubleQuote ++ content ++ GeminiService.doubleQuote)
             = true).
  { intros tail. rewrite append_assoc. apply includes_append_r.
    rewrite !append_assoc. apply includes_here.
    rewrite <- !append_assoc. apply startsWith_append. }
  destruct rest as [|r rest]; [|apply H].
  rewrite <- (append_empty_r (_ ++ _ ++ _ ++ _)). apply H.
Qed.

(** X22.  Each prompt carries the content of the request as it is, between
    double quotes.  A target audience or a tone that is missing or empty is
    written as [professionals] and [professional]: the service answers such a
    request as it answers the request with these values. *)
Theorem gemini_prompts_carry_the_request (s : GeminiService.service)
    (model : GeminiService.client) (content contentType : string)
    (targetAudience tone : option string)
    (templateFallback : outcome GeminiService.metadata) :
  Forall (fun prompt =>
            includes prompt
              (GeminiService.doubleQuote ++ content ++ GeminiService.doubleQuote) = true)
         [ GeminiService.buildTitlePrompt content contentType targetAudience tone
         ; GeminiService.buildDescriptionPrompt content contentType targetAudience tone
         ; GeminiService.buildSocialPrompt content contentType targetAudience tone ]
  /\ GeminiService.generateMetadata s model content contentType targetAudience tone
       templateFallback
     = GeminiService.generateMetadata s model content contentType
         (Some (GeminiService.orDefault targetAudience "professionals"))
         (Some (GeminiService.orDefault tone "professional"))
         templateFallback.
Proof.
  split.
  - repeat constructor; apply prompt_quotes_content.
  - unfold GeminiService.generateMetadata, GeminiService.generateTitles,
      GeminiService.generateDescriptions, GeminiService.generateSocialCopy,
      GeminiService.buildTitlePrompt, GeminiService.buildDescriptionPrompt,
      GeminiService.buildSocialPrompt.
    rewrite !orDefault_idempotent by discriminate. reflexivity.
Qed.

(** ** The page and the server *)

Lemma positive_length {A : Type} (l : list A) :
  match List.length l with 0 => false | S _ => true end = true <-> 0 < List.length l.
Proof. destruct l; simpl; split; intros H; try reflexivity; try discriminate; lia. Qed.

(** X23.  What the page makes of the two answers of the server.  The
    titles, descriptions and social posts are those of [/api/generate]; the
    warnings are those of the compliance check and nothing else, since
    [/api/generate] sends none; the block of the warnings is shown exactly
    when the check has a finding.  When the compliance check answers with an
    error status the page shows the result without warnings, and when the
    call of the check fails the whole request fails, generated texts
    included. *)
Theorem page_shows_the_findings (words : prohibitedWords)
    (req : generationRequest) (d : draws) (failure : Frontend.fetched (list string)) :
  let result := apiGenerate req d in
  let found := apiComplianceCheck words (content req) in
  (exists shown,
      Frontend.generateMetadata (Returned (generateAnswer result))
        (Returned (complianceAnswer found))
      = Returned shown
      /\ Frontend.titles shown = titles result
      /\ Frontend.descriptions shown = descriptions result
      /\ Frontend.socialCopy shown = socialCopy result
      /\ Frontend.warnings shown = Some found
      /\ (Frontend.warningsShown shown = true
          <-> exists phrase,
                In phrase (red_words words ++ yellow_words words ++ us_specific_terms words)
                /\ includes (toLowerCase (content req)) (toLowerCase phrase) = true))
  /\ (Frontend.ok failure = false ->
      exists shown,
        Frontend.generateMetadata (Returned (generateAnswer result)) (Returned failure)
        = Returned shown
        /\ Frontend.warnings shown = Some []
        /\ Frontend.warningsShown shown = false)
  /\ Frontend.generateMetadata (Returned (generateAnswer result)) Thrown = Thrown.
Proof.
  intros result found. split; [|split].
  - eexists. split; [reflexivity|]. cbn. repeat split; try reflexivity.
    + intros H. apply positive_length in H. subst found.
      rewrite apiComplianceCheck_layout, !length_app in H.
      assert (P : forall label ps,
                 0 < List.length (warningFor label (wordsFound (content req) ps)) ->
                 exists phrase, In phrase ps
                   /\ includes (toLowerCase (content req)) (toLowerCase phrase) = true).
      { intros label ps Hl. destruct (wordsFound (content req) ps) as [|p l] eqn:E;
          [simpl in Hl; lia|].
        assert (Hp : In p (wordsFound (content req) ps)) by (rewrite E; now left).
        unfold wordsFound in Hp. apply filter_In in Hp. now exists p. }
      destruct (Nat.lt_ge_cases 0
                  (List.length (warningFor "Red words found"
                                  (wordsFound (content req) (red_words words)))))
        as [H1 | H1].
      { destruct (P _ _ H1) as (p & Hp & Hi). exists p. split; [|exact Hi].
        apply in_or_app. now left. }
      destruct (Nat.lt_ge_cases 0
                  (List.length (warningFor "Yellow words found"
                                  (wordsFound (content req) (yellow_words words)))))
        as [H2 | H2].
      { destruct (P _ _ H2) as (p & Hp & Hi). exists p. split; [|exact Hi].
        apply in_or_app. right. apply in_or_app. now left. }
      destruct (P "US-specific terms found" (us_specific_terms words)) as (p & Hp & Hi);
        [lia|].
      exists p. split; [|exact Hi]. apply in_or_app. right. apply in_or_app. now right.
    + intros (p & Hp & Hi). apply positive_length. subst found.
      rewrite apiComplianceCheck_layout, !length_app.
      assert (P : forall label ps, In p ps ->
                 0 < List.length (warningFor label (wordsFound (content req) ps))).
      { intros label ps Hin.
        assert (Hf : In p (wordsFound (content req) ps))
          by (unfold wordsFound; apply filter_In; auto).
        destruct (wordsFound (content req) ps); [destruct Hf | simpl; lia]. }
      apply in_app_or in Hp as [Hp | Hp]; [pose proof (P "Red words found" _ Hp); lia|].
      apply in_app_or in Hp as [Hp | Hp];
        [pose proof (P "Yellow words found" _ Hp) | pose proof (P "US-specific terms found" _ Hp)];
        lia.
  - destruct failure as [o j]. cbn [Frontend.ok]. intros ->.
    eexists. split; [reflexivity|]. split; reflexivity.
  - reflexivity.
Qed.

(** ** [extractKeyTopics]: words with equal counts *)



















(** ** The audience of the descriptions and social posts *)

(** X25.  [validAudience], the audience the descriptions and social posts
    write: it is never empty and has no white space at its ends; it is the
    trimmed audience of the request when that is not empty, and
    [professionals] when the audience is missing, empty or blank. *)
Theorem validAudience_is_never_blank (targetAudience : option string) :
  validAudienceOf targetAudience <> EmptyString
  /\ trim (validAudienceOf targetAudience) = validAudienceOf targetAudience
  /\ (forall a, targetAudience = Some a -> trim a <> EmptyString ->
                validAudienceOf targetAudience = trim a)
  /\ (targetAudience = None
      \/ (exists a, targetAudience = Some a /\ trim a = EmptyString) ->
      validAudienceOf targetAudience = "professionals").
Proof.
  unfold validAudienceOf. destruct targetAudience as [a|].
  - destruct (String.eqb_spec a EmptyString) as [-> | Ha].
    + repeat split; try discriminate; try reflexivity.
      intros a [= <-] H. now contradiction H.
    + destruct (String.eqb_spec (trim a) EmptyString) as [E | Hne].
      * repeat split; try discriminate; try reflexivity.
        intros a' [= <-] H. contradiction.
      * repeat split; [exact Hne | apply trim_idempotent | now intros a' [= <-] _ |].
        intros [H | (a' & [= <-] & H)]; [discriminate | contradiction].
  - repeat split; try discriminate; try reflexivity.
Qed.
